(** * Seven-segment OCR of the Humidity app: a shallow embedding

    The development follows two source files:
    - [machine_learning/production_ocr.py] (classes [ProductionOCR] and
      [HumidityAppOCRManager]): the template-matching decoder, the three
      recognition methods, the arbitration in [predict_digit], the humidity
      and temperature readings, [get_status] and [process_display_reading];
    - [machine_learning/scripts/generate_seven_segment_dataset.py] (class
      [SevenSegmentGenerator] and [generate_dataset]): the digit table, the
      clean renderer, the six-stage degradation pipeline, the samples and
      the naming and numbering of the files of a dataset.

    Conventions.  Python [int] is [Z].  Python and numpy floating-point
    values are modelled by exact rationals [Q]: the scores of the decoder
    are multiples of one half (exact in binary floating point), every other
    quantity is used only through comparisons, clipping and bounds, none of
    which the theorems below make depend on rounding.  A [dict] whose
    iteration order matters is an association list in insertion order.
    Calls into OpenCV, Keras and Tesseract are parameters of the sections
    that use them. *)

From Stdlib Require Import ZArith QArith Qround Qminmax List String Ascii Bool Lia.
From Stdlib Require Import DecimalString DecimalPos DecimalZ Qabs Lqa.
Import ListNotations.

Local Open Scope Z_scope.

(** ** Python helpers *)

(** [d.get(k, default)] on a dict with string keys. *)
Fixpoint dict_get {V : Type} (d : list (string * V)) (k : string) (default : V) : V :=
  match d with
  | [] => default
  | (k', v) :: rest => if String.eqb k k' then v else dict_get rest k default
  end.

(** [k in d] for a dict, [x in l] for a list of strings. *)
Definition dict_has {V : Type} (d : list (string * V)) (k : string) : bool :=
  existsb (fun kv => String.eqb k (fst kv)) d.

Definition str_in (x : string) (l : list string) : bool :=
  existsb (String.eqb x) l.

(** [a < b] and [a >= b] on numbers. *)
Definition Qlt_bool (a b : Q) : bool := negb (Qle_bool b a).
Definition Qge_bool (a b : Q) : bool := Qle_bool b a.

(** Python's [min(a, b)]: the first argument unless the second is strictly
    smaller. *)
Definition py_min (a b : Q) : Q := if Qlt_bool b a then b else a.

(** Python's [max(a, b)]: the first argument unless the second is strictly
    larger. *)
Definition py_max (a b : Q) : Q := if Qlt_bool a b then b else a.

(** ** The seven segments and the truth table of the specification *)

Module SegmentGeometry.

Inductive Segment := A | B | C | D | E | F | G.

Definition Segment_eqb (s t : Segment) : bool :=
  match s, t with
  | A, A | B, B | C, C | D, D | E, E | F, F | G, G => true
  | _, _ => false
  end.

Definition all_segments : list Segment := [A; B; C; D; E; F; G].

Definition mem (s : Segment) (l : list Segment) : bool :=
  existsb (Segment_eqb s) l.

(** The table of section 4.1 of the specification, entry by entry and in
    the order the specification writes it.  Digits outside 0..9 have no
    entry. *)
Definition truth_table (digit : Z) : option (list Segment) :=
  match digit with
  | 0 => Some [A; B; C; D; E; F]
  | 1 => Some [B; C]
  | 2 => Some [A; B; G; E; D]
  | 3 => Some [A; B; G; C; D]
  | 4 => Some [F; G; B; C]
  | 5 => Some [A; F; G; C; D]
  | 6 => Some [A; F; G; E; D; C]
  | 7 => Some [A; B; C]
  | 8 => Some [A; B; C; D; E; F; G]
  | 9 => Some [A; B; C; D; F; G]
  | _ => None
  end.

Definition activeSegments (digit : Z) : list Segment :=
  match truth_table digit with Some l => l | None => [] end.

(** An activation vector: one boolean per segment, in the order A..G. *)
Record ActivationVector := mkVec {
  vA : bool; vB : bool; vC : bool; vD : bool; vE : bool; vF : bool; vG : bool
}.

Definition active (v : ActivationVector) (s : Segment) : bool :=
  match s with
  | A => vA v | B => vB v | C => vC v | D => vD v
  | E => vE v | F => vF v | G => vG v
  end.

(** A set of segments as an activation vector: the listed segments are
    active and no others. *)
Definition as_vector (l : list Segment) : ActivationVector :=
  mkVec (mem A l) (mem B l) (mem C l) (mem D l) (mem E l) (mem F l) (mem G l).

Definition digits : list Z := [0; 1; 2; 3; 4; 5; 6; 7; 8; 9].

(** The score of section 4.5 of the specification, written with the
    cardinalities it names:
    the number of expected segments observed active, minus one half of
    the number of segments observed active that are not expected. *)
Definition spec_score (digit : Z) (v : ActivationVector) : Q :=
  let expected := activeSegments digit in
  let observed := filter (active v) all_segments in
  let common := filter (fun s => mem s observed) expected in
  let extra := filter (fun s => negb (mem s expected)) observed in
  (inject_Z (Z.of_nat (List.length common))
   - (1 # 2) * inject_Z (Z.of_nat (List.length extra)))%Q.

End SegmentGeometry.

(** ** production_ocr.py: result dictionaries *)

(** The dictionaries the recognition methods return, with the keys the
    arbitration and the readings consult; a key that is absent is [None].
    Diagnostic keys (probability lists, segment states, raw text) are left
    out: no code modelled here reads them. *)
Record ResultDict := mkResult {
  method : option string;
  digit : option Z;
  confidence : option Q;
  is_confident : option bool;
  error : option string
}.

(** ['digit' in result] *)
Definition has_digit (r : ResultDict) : bool :=
  match digit r with Some _ => true | None => false end.

(** [x.get('confidence', 0)] *)
Definition get_confidence (r : ResultDict) : Q :=
  match confidence r with Some c => c | None => 0 end.

Definition error_dict (m : option string) (msg : string) : ResultDict :=
  mkResult m None None None (Some msg).

(** ** production_ocr.py: the pattern matching of template_matching_predict *)

Module TemplateMatching.

Import SegmentGeometry.
Local Open Scope string_scope.

(** [segment_states]: a dict from segment name to "on", in the insertion
    order of the [segments] dict it is built from. *)
Definition SegmentStates := list (string * bool).

Definition patterns : list (Z * list string) :=
  [ (0, ["top"; "top_right"; "top_left"; "bottom_right"; "bottom_left"; "bottom"]);
    (1, ["top_right"; "bottom_right"]);
    (2, ["top"; "top_right"; "middle"; "bottom_left"; "bottom"]);
    (3, ["top"; "top_right"; "middle"; "bottom_right"; "bottom"]);
    (4, ["top_left"; "top_right"; "middle"; "bottom_right"]);
    (5, ["top"; "top_left"; "middle"; "bottom_right"; "bottom"]);
    (6, ["top"; "top_left"; "middle"; "bottom_left"; "bottom_right"; "bottom"]);
    (7, ["top"; "top_right"; "bottom_right"]);
    (8, ["top"; "top_right"; "top_left"; "middle"; "bottom_right"; "bottom_left"; "bottom"]);
    (9, ["top"; "top_right"; "top_left"; "middle"; "bottom_right"; "bottom"]) ].

(** The body of the loop over [patterns.items()]: one point per pattern
    segment that is on, half a point off per segment that is on and not in
    the pattern. *)
Definition pattern_score (pattern : list string) (segment_states : SegmentStates) : Q :=
  let score :=
    fold_left (fun (score : Q) segment =>
                 if dict_get segment_states segment false then (score + 1)%Q else score)
              pattern 0%Q in
  fold_left (fun (score : Q) (item : string * bool) =>
               let (segment, state) := item in
               if state && negb (str_in segment pattern) then (score - (1 # 2))%Q else score)
            segment_states score.

(** The loop itself, started from [best_digit = None], [best_score = 0];
    a pattern replaces the best one only on a strictly greater score. *)
Definition find_best_match (segment_states : SegmentStates) : option Z * Q :=
  fold_left (fun (best : option Z * Q) (item : Z * list string) =>
               let (digit, pattern) := item in
               let score := pattern_score pattern segment_states in
               if Qlt_bool (snd best) score then (Some digit, score) else best)
            patterns (None, 0%Q).

(** From "Find best match" to the end of the [try] block. *)
Definition match_patterns (segment_states : SegmentStates) : ResultDict :=
  let (best_digit, best_score) := find_best_match segment_states in
  match best_digit with
  | Some d =>
      if Qlt_bool 0%Q best_score then
        mkResult (Some "Template_Matching") (Some d)
                 (Some (py_min (1 # 2) (best_score / 7))%Q) (Some false) None
      else error_dict (Some "Template_Matching") "No pattern match found"
  | None => error_dict (Some "Template_Matching") "No pattern match found"
  end.

(** The correspondence between the decoder's segment names and the
    segments A..G of the specification. *)
Definition segment_of_name (name : string) : option Segment :=
  if String.eqb name "top" then Some A
  else if String.eqb name "top_right" then Some B
  else if String.eqb name "bottom_right" then Some C
  else if String.eqb name "bottom" then Some D
  else if String.eqb name "bottom_left" then Some E
  else if String.eqb name "top_left" then Some F
  else if String.eqb name "middle" then Some G
  else None.

(** The [segment_states] dict of an activation vector: the seven keys in
    the order the source inserts them. *)
Definition segment_states_of (v : ActivationVector) : SegmentStates :=
  [ ("top", vA v); ("top_right", vB v); ("top_left", vF v); ("middle", vG v);
    ("bottom_right", vC v); ("bottom_left", vE v); ("bottom", vD v) ].

(** The structural decoder on an activation vector. *)
Definition decode (v : ActivationVector) : ResultDict :=
  match_patterns (segment_states_of v).

(** The score the source computes for digit [d] ([0] outside the table). *)
Definition score_of (d : Z) (v : ActivationVector) : Q :=
  match find (fun item => Z.eqb (fst item) d) patterns with
  | Some (_, pattern) => pattern_score pattern (segment_states_of v)
  | None => 0%Q
  end.

End TemplateMatching.

(** ** numpy arrays and exceptions *)

(** A call that may raise: [Raise msg] carries [str(e)]. *)
Inductive Exc (T : Type) :=
| Ok (x : T)
| Raise (msg : string).
Arguments Ok {T} x.
Arguments Raise {T} msg.

(** [range(lo, hi)] *)
Definition range (lo hi : Z) : list Z :=
  map (fun i => lo + Z.of_nat i) (seq 0 (Z.to_nat (hi - lo))).

(** A two-dimensional array (a grey or binary image, a mask): its shape and
    its element at row [y], column [x]. *)
Record array2 (T : Type) := mkArray2 {
  shape0 : Z;
  shape1 : Z;
  at2 : Z -> Z -> T
}.
Arguments mkArray2 {T}.
Arguments shape0 {T}.
Arguments shape1 {T}.
Arguments at2 {T}.

(** A three-channel image of shape [(height, width, 3)]: its element at row
    [y], column [x], channel [c]. *)
Record array3 (T : Type) := mkArray3 {
  height : Z;
  width : Z;
  at3 : Z -> Z -> Z -> T
}.
Arguments mkArray3 {T}.
Arguments height {T}.
Arguments width {T}.
Arguments at3 {T}.

(** Element-wise operations, as numpy broadcasts them. *)
Definition map3 {S T : Type} (f : S -> T) (a : array3 S) : array3 T :=
  mkArray3 (height a) (width a) (fun y x c => f (at3 a y x c)).

(** An element-wise operation that also reads the position. *)
Definition imap3 {S T : Type} (f : Z -> Z -> Z -> S -> T) (a : array3 S) : array3 T :=
  mkArray3 (height a) (width a) (fun y x c => f y x c (at3 a y x c)).

(** [np.clip(v, lo, hi)] on one element. *)
Definition np_clip (v lo hi : Q) : Q :=
  if Qlt_bool v lo then lo else if Qlt_bool hi v then hi else v.

(** [.astype(np.uint8)] on one element: truncation toward zero, kept in the
    eight bits of the type. *)
Definition astype_uint8 (v : Q) : Z :=
  (Z.quot (Qnum v) (Zpos (Qden v))) mod 256.

(** [.astype(np.float32)] on one element. *)
Definition astype_float (v : Z) : Q := inject_Z v.

(** [np.clip(a, 0, 255).astype(np.uint8)] on a whole image. *)
Definition clip_to_uint8 (a : array3 Q) : array3 Z :=
  map3 (fun v => astype_uint8 (np_clip v 0 255)) a.

(** ** production_ocr.py: class ProductionOCR *)

Module ProductionOCR.

Import TemplateMatching.
Local Open Scope string_scope.

(** The attributes [__init__] sets that the methods below read. *)
Record ProductionOCR := mkOCR {
  cnn_available : bool;
  tesseract_available : bool;
  confidence_threshold : Q
}.

(** What [self.cnn_model.predict] returns: a list of two heads (the v3
    network) or a single array of class probabilities; each is given here
    by its first batch entry. *)
Inductive ModelOutput :=
| DualHead (digit_probs segment_probs : list Q)
| SingleHead (probabilities : list Q).

(** [np.max] and [np.argmax] of a one-dimensional array; an empty array
    raises [ValueError]. [np.argmax] returns the first index of the
    maximum. *)
Fixpoint argmax_from (l : list Q) (i best_i : Z) (best : Q) : Z * Q :=
  match l with
  | [] => (best_i, best)
  | x :: rest =>
      if Qlt_bool best x then argmax_from rest (i + 1) i x
      else argmax_from rest (i + 1) best_i best
  end.

Definition np_argmax (l : list Q) : Exc Z :=
  match l with
  | [] => Raise "attempt to get argmax of an empty sequence"
  | x :: rest => Ok (fst (argmax_from rest 1 0 x))
  end.

Definition np_max (l : list Q) : Exc Q :=
  match l with
  | [] => Raise "zero-size array to reduction operation maximum which has no identity"
  | x :: rest => Ok (snd (argmax_from rest 1 0 x))
  end.

(** [np.mean] of a one-dimensional array.  For an empty array numpy
    answers nan; the rationals have none and the quotient is 0 here.  The
    segment head of the network has seven outputs. *)
Definition np_mean (l : list Q) : Q :=
  (fold_left Qplus l 0 / inject_Z (Z.of_nat (List.length l)))%Q.

(** [str.strip()], [str.isdigit()] and [int(text)] on a text whose
    characters are code points below 256.  Among those, the white space
    is 9..13, 28..32, 133 and 160; the digits are '0'..'9' and the
    superscripts 178, 179 and 185, which [int] refuses. *)
Definition isspace (c : ascii) : bool :=
  let n := nat_of_ascii c in
  ((9 <=? n) && (n <=? 13) || (28 <=? n) && (n <=? 32) || (n =? 133) || (n =? 160))%nat.

Fixpoint lstrip (s : string) : string :=
  match s with
  | EmptyString => EmptyString
  | String c rest => if isspace c then lstrip rest else s
  end.

Fixpoint rstrip (s : string) : string :=
  match s with
  | EmptyString => EmptyString
  | String c rest =>
      match rstrip rest with
      | EmptyString => if isspace c then EmptyString else String c EmptyString
      | rest' => String c rest'
      end
  end.

Definition strip (s : string) : string := rstrip (lstrip s).

Definition is_decimal (c : ascii) : bool :=
  let n := nat_of_ascii c in ((48 <=? n) && (n <=? 57))%nat.

Definition char_isdigit (c : ascii) : bool :=
  let n := nat_of_ascii c in
  (is_decimal c || (n =? 178) || (n =? 179) || (n =? 185))%nat.

Fixpoint all_chars (p : ascii -> bool) (s : string) : bool :=
  match s with
  | EmptyString => true
  | String c rest => p c && all_chars p rest
  end.

Definition isdigit (s : string) : bool :=
  match s with
  | EmptyString => false
  | _ => all_chars char_isdigit s
  end.

(** [int(text)] for a text of one character. *)
Definition int_of_char (c : ascii) : Exc Z :=
  if is_decimal c then Ok (Z.of_nat (nat_of_ascii c) - 48)
  else Raise "invalid literal for int() with base 10".

(** [max(results, key=...)]: the first element whose key no other element
    exceeds; [None] stands for the [ValueError] on an empty list. *)
Fixpoint max_from {T : Type} (key : T -> Q) (best : T) (l : list T) : T :=
  match l with
  | [] => best
  | x :: rest => max_from key (if Qlt_bool (key best) (key x) then x else best) rest
  end.

Definition py_max_by {T : Type} (key : T -> Q) (l : list T) : option T :=
  match l with
  | [] => None
  | x :: rest => Some (max_from key x rest)
  end.

(** What [predict_digit] returns: the keys of the chosen dictionary (or
    the [error] key alone), and the two keys [predict_digit] adds.  In the
    source [all_methods] is the list [results] itself, of which the
    returned dictionary is a member; here it lists the members as they
    were before the key was added. *)
Record Prediction := mkPrediction {
  chosen : ResultDict;
  all_methods : option (list ResultDict);
  methods_tried : option (list string)
}.

(** What [process_humidity_reading] returns. *)
Record Reading := mkReading {
  humidity : option Z;
  reading_confidence : Q;
  reading_method : option string;
  reading_is_confident : option bool;
  valid : bool;
  reading_error : option string
}.

Definition str_of_int (n : Z) : string :=
  DecimalString.NilZero.string_of_int (Z.to_int n).

(** What [process_temperature_reading] returns. *)
Record TemperatureReading := mkTemperatureReading {
  temperature : option Z;
  temperature_confidence : Q;
  temperature_method : option string;
  temperature_is_confident : option bool;
  temperature_valid : bool;
  temperature_error : option string
}.

(** What [get_status] returns. *)
Record Status := mkStatus {
  status_cnn_available : bool;
  traditional_ocr_available : bool;
  template_matching_available : bool;
  status_confidence_threshold : Q;
  preferred_method : string
}.

(** The degree sign of the temperature message, one character. *)
Definition degree_sign : string := String (ascii_of_nat 176) EmptyString.

Section Methods.

(** The input image, and the calls that leave this repository.  Each
    stands for a run of library calls inside a [try] block and answers
    [Raise] when one of them raises:
    - [preprocess_seven_segment_image]: the OpenCV preprocessing, a
      binary image;
    - [cnn_forward]: [preprocess_seven_segment_image_v3], the colour
      conversion, the resize, the normalisation and
      [self.cnn_model.predict];
    - [image_to_string]: the preprocessing and
      [pytesseract.image_to_string] with the digits-only configuration. *)
Variable Image : Type.
Variable preprocess_seven_segment_image : Image -> Exc (array2 Z).
Variable cnn_forward : Image -> Exc ModelOutput.
Variable image_to_string : Image -> Exc string.

Variable self : ProductionOCR.

Definition cnn_predict_digit (image : Image) : ResultDict :=
  if negb (cnn_available self) then error_dict None "CNN model not available"
  else
    match cnn_forward image with
    | Raise msg => error_dict None msg
    | Ok (DualHead digit_probs segment_probs) =>
        match np_argmax digit_probs, np_max digit_probs with
        | Ok predicted_digit, Ok digit_confidence =>
            let segment_confidence :=
              np_mean (map (fun p => Qabs (p - (1 # 2)) + (1 # 2))%Q segment_probs) in
            let combined_confidence :=
              ((7 # 10) * digit_confidence + (3 # 10) * segment_confidence)%Q in
            mkResult (Some "CNN_v3") (Some predicted_digit) (Some combined_confidence)
                     (Some (Qge_bool combined_confidence (confidence_threshold self)))
                     None
        | Raise msg, _ => error_dict None msg
        | _, Raise msg => error_dict None msg
        end
    | Ok (SingleHead probabilities) =>
        match np_argmax probabilities, np_max probabilities with
        | Ok predicted_digit, Ok confidence =>
            mkResult (Some "CNN_v2") (Some predicted_digit) (Some confidence)
                     (Some (Qge_bool confidence (confidence_threshold self)))
                     None
        | Raise msg, _ => error_dict None msg
        | _, Raise msg => error_dict None msg
        end
    end.

Definition traditional_ocr_predict (image : Image) : ResultDict :=
  if negb (tesseract_available self) then error_dict None "Traditional OCR not available"
  else
    match image_to_string image with
    | Raise msg => error_dict None msg
    | Ok raw =>
        let text := strip raw in
        if isdigit text && (String.length text =? 1)%nat then
          match text with
          | String c _ =>
              match int_of_char c with
              | Ok digit =>
                  let confidence := (6 # 10)%Q in
                  mkResult (Some "Traditional_OCR") (Some digit) (Some confidence)
                           (Some (Qge_bool confidence (confidence_threshold self)))
                           None
              | Raise msg => error_dict None msg
              end
          | EmptyString => error_dict None "invalid literal for int() with base 10"
          end
        else
          error_dict (Some "Traditional_OCR") ("Invalid OCR result: " ++ text)
    end.

(** The seven regions of the binary image, as [(rows, columns)] slices,
    in the order of the [segments] dict. *)
Definition segment_slices (h w : Z) : list (string * ((Z * Z) * (Z * Z))) :=
  [ ("top",          ((0, h / 4),         (w / 4, 3 * w / 4)));
    ("top_right",    ((0, h / 2),         (3 * w / 4, w)));
    ("top_left",     ((0, h / 2),         (0, w / 4)));
    ("middle",       ((h / 3, 2 * h / 3), (w / 4, 3 * w / 4)));
    ("bottom_right", ((h / 2, h),         (3 * w / 4, w)));
    ("bottom_left",  ((h / 2, h),         (0, w / 4)));
    ("bottom",       ((3 * h / 4, h),     (w / 4, 3 * w / 4))) ].

(** [np.sum(segment == 255)] and [segment.size] of a slice. *)
Definition count_white (processed : array2 Z) (rows cols : Z * Z) : Z :=
  fold_left (fun n y =>
               fold_left (fun n x => if Z.eqb (at2 processed y x) 255 then n + 1 else n)
                         (range (fst cols) (snd cols)) n)
            (range (fst rows) (snd rows)) 0.

Definition slice_size (rows cols : Z * Z) : Z :=
  Z.max 0 (snd rows - fst rows) * Z.max 0 (snd cols - fst cols).

(** [white_ratio > 0.3]; on an empty slice the ratio is nan and the
    comparison is false. *)
Definition segment_on (processed : array2 Z) (rows cols : Z * Z) : bool :=
  let size := slice_size rows cols in
  if Z.eqb size 0 then false
  else Qlt_bool (3 # 10) (inject_Z (count_white processed rows cols) / inject_Z size).

Definition segment_states_of_image (processed : array2 Z) : SegmentStates :=
  map (fun item : string * ((Z * Z) * (Z * Z)) =>
         let (name, region) := item in
         (name, segment_on processed (fst region) (snd region)))
      (segment_slices (shape0 processed) (shape1 processed)).

Definition template_matching_predict (image : Image) : ResultDict :=
  match preprocess_seven_segment_image image with
  | Raise msg => error_dict None msg
  | Ok processed => match_patterns (segment_states_of_image processed)
  end.

(** The loop of [predict_digit] over the requested methods. *)
Fixpoint collect_results (image : Image) (methods : list string) : list ResultDict :=
  match methods with
  | [] => []
  | method :: rest =>
      let found :=
        if String.eqb method "cnn" && cnn_available self then
          let result := cnn_predict_digit image in
          if has_digit result then [result] else []
        else if String.eqb method "traditional" && tesseract_available self then
          let result := traditional_ocr_predict image in
          if has_digit result then [result] else []
        else if String.eqb method "template" then
          let result := template_matching_predict image in
          if has_digit result then [result] else []
        else [] in
      found ++ collect_results image rest
  end.

Definition default_methods : list string := ["cnn"; "traditional"; "template"].

Definition predict_digit (image : Image) (methods : option (list string)) : Prediction :=
  let methods := match methods with Some l => l | None => default_methods end in
  let results := collect_results image methods in
  match py_max_by get_confidence results with
  | Some best_result => mkPrediction best_result (Some results) None
  | None => mkPrediction (error_dict None "All methods failed") None (Some methods)
  end.

Definition process_humidity_reading (image : Image) : Reading :=
  let result := chosen (predict_digit image None) in
  match digit result with
  | Some humidity =>
      if Z.leb 0 humidity && Z.leb humidity 100 then
        mkReading (Some humidity) (get_confidence result)
                  (Some (match method result with Some m => m | None => "unknown" end))
                  (Some (match is_confident result with Some b => b | None => false end))
                  true None
      else
        mkReading (Some humidity) (get_confidence result)
                  (Some (match method result with Some m => m | None => "unknown" end))
                  (Some false) false
                  (Some ("Humidity " ++ str_of_int humidity ++ "% out of valid range (0-100%)"))
  | None =>
      mkReading None 0 None None false
                (Some (match error result with Some e => e | None => "Recognition failed" end))
  end.

Definition process_temperature_reading (image : Image) : TemperatureReading :=
  let result := chosen (predict_digit image None) in
  match digit result with
  | Some temperature =>
      if Z.leb (-40) temperature && Z.leb temperature 80 then
        mkTemperatureReading
          (Some temperature) (get_confidence result)
          (Some (match method result with Some m => m | None => "unknown" end))
          (Some (match is_confident result with Some b => b | None => false end))
          true None
      else
        mkTemperatureReading
          (Some temperature) (get_confidence result)
          (Some (match method result with Some m => m | None => "unknown" end))
          (Some false) false
          (Some ("Temperature " ++ str_of_int temperature ++ degree_sign
                 ++ "C out of valid range (-40 to 80" ++ degree_sign ++ "C)"))
  | None =>
      mkTemperatureReading
        None 0 None None false
        (Some (match error result with Some e => e | None => "Recognition failed" end))
  end.

Definition get_status : Status :=
  mkStatus (cnn_available self) (tesseract_available self) true
           (confidence_threshold self)
           (if cnn_available self then "CNN"
            else if tesseract_available self then "Traditional" else "Template").

End Methods.

End ProductionOCR.

(** ** production_ocr.py: class HumidityAppOCRManager *)

Module HumidityAppOCRManager.

Import ProductionOCR.
Local Open Scope string_scope.

(** The manager holds one [ProductionOCR], set by [__init__]. *)
Record HumidityAppOCRManager := mkManager {
  ocr : ProductionOCR.ProductionOCR
}.

(** The dictionary of the automatic branch of [process_display_reading]. *)
Record ValueReading := mkValueReading {
  value : option Z;
  value_confidence : Q;
  value_method : option string;
  value_is_confident : option bool;
  suggested_type : option string;
  value_valid : bool;
  value_error : option string
}.

(** [process_display_reading] returns the dictionary of the branch taken. *)
Inductive DisplayReading :=
| HumidityResult (r : Reading)
| TemperatureResult (r : TemperatureReading)
| AutoResult (r : ValueReading).

Section Manager.

Variable Image : Type.
Variable preprocess_seven_segment_image : Image -> Exc (array2 Z).
Variable cnn_forward : Image -> Exc ModelOutput.
Variable image_to_string : Image -> Exc string.

Variable self : HumidityAppOCRManager.

Definition process_display_reading (image : Image) (reading_type : string)
  : DisplayReading :=
  if String.eqb reading_type "humidity" then
    HumidityResult
      (process_humidity_reading Image preprocess_seven_segment_image cnn_forward
                                image_to_string (ocr self) image)
  else if String.eqb reading_type "temperature" then
    TemperatureResult
      (process_temperature_reading Image preprocess_seven_segment_image cnn_forward
                                   image_to_string (ocr self) image)
  else
    let digit_result :=
      chosen (predict_digit Image preprocess_seven_segment_image cnn_forward
                            image_to_string (ocr self) image None) in
    match digit digit_result with
    | Some value =>
        if Z.leb 0 value && Z.leb value 100 then
          AutoResult
            (mkValueReading
               (Some value) (get_confidence digit_result)
               (Some (match method digit_result with Some m => m | None => "unknown" end))
               (Some (match is_confident digit_result with Some b => b | None => false end))
               (Some (if Z.leb value 50 then "humidity" else "either"))
               true None)
        else
          AutoResult
            (mkValueReading
               (Some value) (get_confidence digit_result)
               (Some (match method digit_result with Some m => m | None => "unknown" end))
               (Some false) None false
               (Some ("Value " ++ str_of_int value ++ " out of expected range")))
    | None =>
        AutoResult
          (mkValueReading
             None 0 None None None false
             (Some (match error digit_result with
                    | Some e => e
                    | None => "Recognition failed"
                    end)))
    end.

End Manager.

End HumidityAppOCRManager.

(** ** The process-global random generators

    [generate_seven_segment_dataset.py] draws from the generator of the
    module [random] and, for the noise, from [np.random].  Neither is a
    parameter of any function: both are state of the process.  The state is
    explicit here.  A generator is the sequence of raw values it is going to
    produce and the number of values already consumed, so that a statement
    about every generator is a statement about every sequence of draws. *)

Module GlobalRandom.

(** The generator behind [random.random()], [random.randint] and
    [random.choice]. *)
Record PyGenerator := mkPyGen {
  raw : nat -> Z;
  consumed : nat
}.

(** The generator behind [np.random.normal]: its standard normal
    variates. *)
Record NpGenerator := mkNpGen {
  variates : nat -> Q;
  np_consumed : nat
}.

Record Globals := mkGlobals {
  py_random : PyGenerator;
  np_random : NpGenerator
}.

(** Code that reads and advances the global generators and may raise. *)
Definition M (T : Type) : Type := Globals -> Exc (T * Globals).

Definition ret {T : Type} (x : T) : M T := fun g => Ok (x, g).

Definition bind {S T : Type} (c : M S) (k : S -> M T) : M T :=
  fun g => match c g with
           | Ok (x, g') => k x g'
           | Raise msg => Raise msg
           end.

Definition raise {T : Type} (msg : string) : M T := fun _ => Raise msg.

Declare Scope rand_scope.
Delimit Scope rand_scope with rand.
Notation "x <- c ;; k" := (bind c (fun x => k))
  (at level 61, c at next level, right associativity) : rand_scope.
Local Open Scope rand_scope.

(** [for _ in range(n)]: the body run [n] times on the value it rebinds. *)
Fixpoint repeat_M {T : Type} (n : nat) (body : T -> M T) (x : T) : M T :=
  match n with
  | O => ret x
  | S n' => x' <- body x ;; repeat_M n' body x'
  end.

Definition next_raw : M Z :=
  fun g =>
    let py := py_random g in
    Ok (raw py (consumed py), mkGlobals (mkPyGen (raw py) (S (consumed py))) (np_random g)).

(** [random.random()]: a 53-bit integer over 2^53, in [0, 1). *)
Definition random : M Q :=
  k <- next_raw ;; ret (Qmake (k mod 9007199254740992) 9007199254740992).

(** [random.uniform(a, b)] is [a + (b - a) * random()]. *)
Definition uniform (a b : Q) : M Q :=
  u <- random ;; ret (a + (b - a) * u)%Q.

(** [_randbelow(n)], for [n > 0]. *)
Definition randbelow (n : Z) : M Z :=
  k <- next_raw ;; ret (k mod n).

(** [random.randint(a, b)] is [randrange(a, b + 1)]; an empty range raises
    [ValueError]. *)
Definition randint (a b : Z) : M Z :=
  if b + 1 - a <=? 0 then raise "empty range for randrange()"%string
  else r <- randbelow (b + 1 - a) ;; ret (a + r).

(** [random.choice(seq)] *)
Definition choice {T : Type} (seq : list T) : M T :=
  match seq with
  | [] => raise "Cannot choose from an empty sequence"%string
  | first :: _ =>
      i <- randbelow (Z.of_nat (List.length seq)) ;; ret (nth (Z.to_nat i) seq first)
  end.

(** [np.random.normal(loc, scale, (h, w, 3))]: one fresh variate per
    element, in row-major order; a negative scale raises [ValueError]. *)
Definition np_random_normal (loc scale : Q) (h w : Z) : M (array3 Q) :=
  fun g =>
    if Qlt_bool scale 0 then Raise "scale < 0"%string
    else
      let np := np_random g in
      let start := np_consumed np in
      let noise := mkArray3 h w (fun y x c =>
                     (loc + scale * variates np (start + Z.to_nat ((y * w + x) * 3 + c)))%Q) in
      Ok (noise, mkGlobals (py_random g)
                           (mkNpGen (variates np) (start + Z.to_nat (h * w * 3)))).

End GlobalRandom.

(** ** generate_seven_segment_dataset.py: class SevenSegmentGenerator *)

Module SevenSegmentGenerator.

Import SegmentGeometry GlobalRandom.
Local Open Scope rand_scope.

Record SevenSegmentGenerator := mkGenerator {
  self_width : Z;
  self_height : Z
}.

(** [self.segments]: the polygon of each segment, relative to the size of
    the image. *)
Definition segments : list (string * list (Q * Q)) :=
  [ ("a", [(2 # 10, 1 # 10); (8 # 10, 1 # 10); (75 # 100, 15 # 100); (25 # 100, 15 # 100)]);
    ("b", [(8 # 10, 1 # 10); (85 # 100, 15 # 100); (8 # 10, 45 # 100); (75 # 100, 4 # 10)]);
    ("c", [(8 # 10, 55 # 100); (85 # 100, 6 # 10); (8 # 10, 9 # 10); (75 # 100, 85 # 100)]);
    ("d", [(2 # 10, 9 # 10); (8 # 10, 9 # 10); (75 # 100, 85 # 100); (25 # 100, 85 # 100)]);
    ("e", [(15 # 100, 6 # 10); (2 # 10, 55 # 100); (25 # 100, 85 # 100); (2 # 10, 9 # 10)]);
    ("f", [(15 # 100, 15 # 100); (2 # 10, 1 # 10); (25 # 100, 4 # 10); (2 # 10, 45 # 100)]);
    ("g", [(2 # 10, 45 # 100); (8 # 10, 45 # 100); (75 # 100, 5 # 10); (25 # 100, 5 # 10)])
  ]%string.

(** [self.digit_segments] *)
Definition digit_segments : list (string * list string) :=
  [ ("0", ["a"; "b"; "c"; "d"; "e"; "f"]);
    ("1", ["b"; "c"]);
    ("2", ["a"; "b"; "g"; "e"; "d"]);
    ("3", ["a"; "b"; "g"; "c"; "d"]);
    ("4", ["f"; "g"; "b"; "c"]);
    ("5", ["a"; "f"; "g"; "c"; "d"]);
    ("6", ["a"; "f"; "g"; "e"; "d"; "c"]);
    ("7", ["a"; "b"; "c"]);
    ("8", ["a"; "b"; "c"; "d"; "e"; "f"; "g"]);
    ("9", ["a"; "b"; "c"; "d"; "f"; "g"])
  ]%string.

(** The correspondence between the generator's segment letters and the
    segments A..G of the specification. *)
Definition segment_of_letter (letter : string) : option Segment :=
  (if String.eqb letter "a" then Some A
   else if String.eqb letter "b" then Some B
   else if String.eqb letter "c" then Some C
   else if String.eqb letter "d" then Some D
   else if String.eqb letter "e" then Some E
   else if String.eqb letter "f" then Some F
   else if String.eqb letter "g" then Some G
   else None)%string.

(** [d[k]] on a dict: [None] stands for the [KeyError]. *)
Fixpoint dict_lookup {V : Type} (d : list (string * V)) (k : string) : option V :=
  match d with
  | [] => None
  | (k', v) :: rest => if String.eqb k k' then Some v else dict_lookup rest k
  end.

(** [int(v)] of a float: truncation toward zero. *)
Definition py_int (v : Q) : Z := Z.quot (Qnum v) (Zpos (Qden v)).

(** [np.ones((h, w, 3), dtype=np.uint8) * value] *)
Definition np_full (h w value : Z) : array3 Z := mkArray3 h w (fun _ _ _ => value).

(** A colour [(c0, c1, c2)] read at channel [c]. *)
Definition channel (colour : Z * Z * Z) (c : Z) : Z :=
  let '(c0, c1, c2) := colour in
  if c =? 0 then c0 else if c =? 1 then c1 else c2.

(** Drawing a filled shape in place: the pixels the shape covers take the
    colour, the others keep their value. *)
Definition draw (covers : Z -> Z -> bool) (colour : Z * Z * Z) (img : array3 Z) : array3 Z :=
  imap3 (fun y x c v => if covers y x then channel colour c else v) img.

Definition draw2 (covers : Z -> Z -> bool) (value : Z) (mask : array2 Z) : array2 Z :=
  mkArray2 (shape0 mask) (shape1 mask)
           (fun y x => if covers y x then value else at2 mask y x).

Section OpenCV.

(** The rasterisers of OpenCV, each by the set of pixels (row [y],
    column [x]) that a filled shape covers:
    - [fillPoly_covers pts]: [cv2.fillPoly] of the polygon [pts];
    - [circle_covers center radius]: [cv2.circle] with thickness -1;
    - [ellipse_covers center axes angle startAngle endAngle]:
      [cv2.ellipse] with thickness -1;
    and the two numeric library functions the pipeline calls:
    [cv2.GaussianBlur] on a mask and [np.sqrt] on an integer. *)
Variable fillPoly_covers : list (Z * Z) -> Z -> Z -> bool.
Variable circle_covers : Z * Z -> Z -> Z -> Z -> bool.
Variable ellipse_covers : Z * Z -> Z * Z -> Z -> Z -> Z -> Z -> Z -> bool.
Variable cv2_GaussianBlur : array2 Z -> Z * Z -> Q -> array2 Z.
Variable np_sqrt : Z -> Q.

Variable self : SevenSegmentGenerator.

Definition create_clean_digit (digit : string) : Exc (array3 Z) :=
  if (self_height self <? 0) || (self_width self <? 0) then
    Raise "negative dimensions are not allowed"
  else
    let img := np_full (self_height self) (self_width self) 220 in
    let active_segments := dict_get digit_segments digit [] in
    fold_left
      (fun (acc : Exc (array3 Z)) segment =>
         match acc with
         | Raise msg => Raise msg
         | Ok img =>
             match dict_lookup segments segment with
             | None => Raise segment
             | Some points =>
                 let abs_points :=
                   map (fun p : Q * Q =>
                          (py_int (fst p * inject_Z (self_width self)),
                           py_int (snd p * inject_Z (self_height self)))) points in
                 Ok (draw (fillPoly_covers abs_points) (40, 40, 40) img)
             end
         end)
      active_segments (Ok img).

(** [np.maximum(a, b)] on one element. *)
Definition np_maximum (a b : Q) : Q := if Qlt_bool a b then b else a.

(** [np.linspace(start, stop, num)[i]] *)
Definition np_linspace (start stop : Q) (num i : Z) : Q :=
  if num =? 1 then start
  else (start + inject_Z i * ((stop - start) / inject_Z (num - 1)))%Q.

Definition _reduce_contrast (img : array3 Z) : M (array3 Z) :=
  let img_float := map3 (fun v => inject_Z v / 255)%Q img in
  contrast_factor <- uniform (3 # 10) (7 # 10) ;;
  let img_float := map3 (fun v => (1 # 2) + contrast_factor * (v - (1 # 2)))%Q img_float in
  let mask := fun y x => forallb (fun c => at3 img y x c <? 100) [0; 1; 2] in
  delta <- uniform (1 # 10) (3 # 10) ;;
  let img_float := imap3 (fun y x _ v => if mask y x then (v + delta)%Q else v) img_float in
  ret (clip_to_uint8 (map3 (fun v => v * 255)%Q img_float)).

(** One turn of the loop of [_add_reflections]. *)
Definition add_reflection (h w : Z) (img : array3 Z) : M (array3 Z) :=
  center_x <- randint 0 w ;;
  center_y <- randint 0 h ;;
  radius <- randint 20 80 ;;
  let mask := fun y x => (x - center_x) ^ 2 + (y - center_y) ^ 2 <=? radius ^ 2 in
  intensity <- uniform (2 # 10) (6 # 10) ;;
  let distance := fun y x => np_sqrt ((x - center_x) ^ 2 + (y - center_y) ^ 2) in
  let fade := fun y x => np_maximum 0 (1 - distance y x / inject_Z radius) in
  let overlay := fun y x => if mask y x then (intensity * fade y x)%Q else 0%Q in
  ret (clip_to_uint8
         (imap3 (fun y x _ v => astype_float v + overlay y x * 255)%Q img)).

Definition _add_reflections (img : array3 Z) : M (array3 Z) :=
  let h := height img in
  let w := width img in
  n <- randint 1 3 ;;
  repeat_M (Z.to_nat n) (add_reflection h w) img.

(** One turn of the loop of [_add_smudges]. *)
Definition add_smudge (h w : Z) (img : array3 Z) : M (array3 Z) :=
  x <- randint 0 (w - 50) ;;
  y <- randint 0 (h - 50) ;;
  size_x <- randint 20 60 ;;
  size_y <- randint 15 40 ;;
  angle <- randint 0 180 ;;
  let mask := mkArray2 h w (fun _ _ => 0) in
  let mask :=
    draw2 (ellipse_covers (x + size_x / 2, y + size_y / 2) (size_x / 2, size_y / 2)
                          angle 0 360)
          255 mask in
  let mask := cv2_GaussianBlur mask (15, 15) 0 in
  smudge_intensity <- uniform (5 # 100) (15 # 100) ;;
  ret (clip_to_uint8
         (imap3 (fun y x _ v =>
                   astype_float v
                   - inject_Z (at2 mask y x) / 255 * smudge_intensity * 255)%Q img)).

Definition _add_smudges (img : array3 Z) : M (array3 Z) :=
  let h := height img in
  let w := width img in
  n <- randint 2 5 ;;
  repeat_M (Z.to_nat n) (add_smudge h w) img.

(** One turn of the loop of [_add_dust]. *)
Definition add_particle (h w : Z) (img : array3 Z) : M (array3 Z) :=
  x <- randint 0 (w - 1) ;;
  y <- randint 0 (h - 1) ;;
  size <- randint 1 3 ;;
  color <- randint 60 180 ;;
  if size =? 1 then
    ret (draw (fun y' x' => (y' =? y) && (x' =? x)) (color, color, color) img)
  else
    ret (draw (circle_covers (x, y) size) (color, color, color) img).

Definition _add_dust (img : array3 Z) : M (array3 Z) :=
  let h := height img in
  let w := width img in
  num_particles <- randint 10 30 ;;
  repeat_M (Z.to_nat num_particles) (add_particle h w) img.

Definition _add_noise (img : array3 Z) : M (array3 Z) :=
  sigma <- uniform 2 8 ;;
  noise <- np_random_normal 0 sigma (height img) (width img) ;;
  ret (clip_to_uint8 (imap3 (fun y x c v => astype_float v + at3 noise y x c)%Q img)).

Definition _vary_lighting (img : array3 Z) : M (array3 Z) :=
  let h := height img in
  let w := width img in
  lighting_type <- choice ["left"; "right"; "top"; "bottom"; "center"]%string ;;
  let lighting : Z -> Z -> Q :=
    if String.eqb lighting_type "left" then
      fun _ x => np_linspace (12 # 10) (8 # 10) w x
    else if String.eqb lighting_type "right" then
      fun _ x => np_linspace (8 # 10) (12 # 10) w x
    else if String.eqb lighting_type "top" then
      fun y _ => np_linspace (12 # 10) (8 # 10) h y
    else if String.eqb lighting_type "bottom" then
      fun y _ => np_linspace (8 # 10) (12 # 10) h y
    else
      let center_x := w / 2 in
      let center_y := h / 2 in
      let distance := fun y x => np_sqrt ((x - center_x) ^ 2 + (y - center_y) ^ 2) in
      let max_distance := np_sqrt (center_x ^ 2 + center_y ^ 2) in
      fun y x => ((13 # 10) - (5 # 10) * (distance y x / max_distance))%Q in
  ret (clip_to_uint8 (imap3 (fun y x _ v => astype_float v * lighting y x)%Q img)).

Definition add_realistic_effects (img : array3 Z) : M (array3 Z) :=
  let result := img in
  result <- _reduce_contrast result ;;
  result <- _add_reflections result ;;
  result <- _add_smudges result ;;
  result <- _add_dust result ;;
  result <- _add_noise result ;;
  result <- _vary_lighting result ;;
  ret result.

(** [generate_sample], without its metadata dictionary. *)
Definition generate_sample (digit : string) : M (array3 Z) :=
  match create_clean_digit digit with
  | Raise msg => raise msg
  | Ok clean_img => add_realistic_effects clean_img
  end.

End OpenCV.

End SevenSegmentGenerator.

(** ** Vocabulary of the statements about the decoder *)

Module DecoderStatements.

Import SegmentGeometry TemplateMatching.

(** The result carries this confidence. *)
Definition has_confidence (r : ResultDict) (q : Q) : Prop :=
  match confidence r with Some c => c == q | None => False end.

(** The exact round trip of section 8 of the specification at digit [d]:
    the digit's own row, decoded, is the digit with confidence 1.0. *)
Definition round_trip (d : Z) : Prop :=
  digit (decode (as_vector (activeSegments d))) = Some d
  /\ has_confidence (decode (as_vector (activeSegments d))) 1.

(** The same with the decoder's ceiling of one half. *)
Definition capped_round_trip (d : Z) : Prop :=
  digit (decode (as_vector (activeSegments d))) = Some d
  /\ has_confidence (decode (as_vector (activeSegments d))) (1 # 2).

(** Every segment lit: the row of digit 8. *)
Definition all_on : ActivationVector := mkVec true true true true true true true.

(** The confidence rule of section 4.5 of the specification, and the rule
    of the source. *)
Definition spec_confidence (best_score : Q) : Q := Qmin 1 (Qmax 0 best_score / 7).
Definition code_confidence (best_score : Q) : Q := Qmin (1 # 2) (Qmax 0 best_score / 7).

(** The key of digit [d] in the generator's table. *)
Definition digit_key (d : Z) : string :=
  DecimalString.NilZero.string_of_int (Z.to_int d).

(** A list of segment names read through a correspondence; [None] when a
    name has no segment. *)
Fixpoint segments_of (f : string -> option Segment) (names : list string)
  : option (list Segment) :=
  match names with
  | [] => Some []
  | n :: rest =>
      match f n, segments_of f rest with
      | Some s, Some l => Some (s :: l)
      | _, _ => None
      end
  end.

Definition generator_row (d : Z) : option (list Segment) :=
  match SevenSegmentGenerator.dict_lookup SevenSegmentGenerator.digit_segments (digit_key d) with
  | Some names => segments_of SevenSegmentGenerator.segment_of_letter names
  | None => None
  end.

Definition decoder_row (d : Z) : option (list Segment) :=
  match find (fun item => Z.eqb (fst item) d) patterns with
  | Some (_, names) => segments_of segment_of_name names
  | None => None
  end.

(** What the decoder answers on [v], checked against the scores: the
    properties of claim C2 as a boolean. *)
Definition scores_agree (v : ActivationVector) : bool :=
  forallb (fun d => Qeq_bool (score_of d v) (spec_score d v)) digits.

Definition answer_is_lowest_maximum (v : ActivationVector) : bool :=
  match digit (decode v) with
  | Some d =>
      existsb (Z.eqb d) digits
      && Qlt_bool 0 (score_of d v)
      && forallb (fun e => Qle_bool (score_of e v) (score_of d v)) digits
      && forallb (fun e => negb (e <? d) || Qlt_bool (score_of e v) (score_of d v)) digits
      && match error (decode v) with None => true | Some _ => false end
  | None =>
      forallb (fun e => Qle_bool (score_of e v) 0) digits
      && match error (decode v), confidence (decode v) with
         | Some _, None => true
         | _, _ => false
         end
  end.

End DecoderStatements.

(** ** generate_seven_segment_dataset.py: generate_dataset

    The directories, the image files and the two JSON files are the
    effects of [generate_dataset].  The files written under [images/] are
    kept here as the list of writes, in order; the metadata list is the
    one dumped to [dataset_metadata.json]; the progress output is left
    out. *)

Module DatasetGeneration.

Import GlobalRandom SevenSegmentGenerator.
Local Open Scope rand_scope.
Local Open Scope string_scope.

(** ["0" * k] *)
Fixpoint zeros (k : nat) : string :=
  match k with
  | O => EmptyString
  | S k' => String "0" (zeros k')
  end.

(** [f"{i:04d}"]: the decimal digits of [i] filled with zeros on the
    left up to four characters, a minus sign counted in the four and put
    first. *)
Definition format_04d (i : Z) : string :=
  if Z.ltb i 0 then
    let body := ProductionOCR.str_of_int (- i) in
    String "-" (zeros (3 - String.length body) ++ body)
  else
    let body := ProductionOCR.str_of_int i in
    zeros (4 - String.length body) ++ body.

(** [f"seven_segment_{digit}_{i:04d}.png"] *)
Definition sample_filename (digit : string) (i : Z) : string :=
  "seven_segment_" ++ digit ++ "_" ++ format_04d i ++ ".png".

(** The metadata dictionary of one sample, as [generate_sample] builds it
    and [generate_dataset] completes it. *)
Record Metadata := mkMetadata {
  meta_digit : string;
  meta_width : Z;
  meta_height : Z;
  effects_applied : list string;
  meta_filename : string;
  sample_id : Z
}.

(** What the loops of [generate_dataset] update: the files written, the
    metadata list and the counter. *)
Record DatasetState := mkDatasetState {
  files : list (string * array3 Z);
  all_metadata : list Metadata;
  sample_count : Z
}.

(** The dictionary dumped to [dataset_summary.json], without its two
    constant texts. *)
Record Summary := mkSummary {
  total_samples : Z;
  samples_per_digit_of : Z;
  summary_digits : list string;
  image_width : Z;
  image_height : Z
}.

(** [for x in items: ...] on the state the body updates. *)
Fixpoint for_each {A S : Type} (items : list A) (body : A -> S -> M S) (s : S) : M S :=
  match items with
  | [] => ret s
  | x :: rest => s' <- body x s ;; for_each rest body s'
  end.

(** The characters of ['0123456789']. *)
Definition digit_characters : list string :=
  ["0"; "1"; "2"; "3"; "4"; "5"; "6"; "7"; "8"; "9"].

Section OpenCV.

Variable fillPoly_covers : list (Z * Z) -> Z -> Z -> bool.
Variable circle_covers : Z * Z -> Z -> Z -> Z -> bool.
Variable ellipse_covers : Z * Z -> Z * Z -> Z -> Z -> Z -> Z -> Z -> bool.
Variable cv2_GaussianBlur : array2 Z -> Z * Z -> Q -> array2 Z.
Variable np_sqrt : Z -> Q.

(** The body of the inner loop. *)
Definition generate_one (generator : SevenSegmentGenerator) (digit : string) (i : Z)
           (st : DatasetState) : M DatasetState :=
  img <- generate_sample fillPoly_covers circle_covers ellipse_covers cv2_GaussianBlur
                         np_sqrt generator digit ;;
  let filename := sample_filename digit i in
  let metadata :=
    mkMetadata digit (self_width generator) (self_height generator)
               ["low_contrast"; "reflections"; "smudges"; "dust"; "noise";
                "lighting_variation"]
               filename (sample_count st) in
  ret (mkDatasetState (files st ++ [(filename, img)])
                      (all_metadata st ++ [metadata])
                      (sample_count st + 1)).

Definition generate_dataset (samples_per_digit img_width img_height : Z)
  : M (DatasetState * Summary) :=
  let generator := mkGenerator img_width img_height in
  st <- for_each digit_characters
                 (fun digit st =>
                    for_each (range 0 samples_per_digit)
                             (generate_one generator digit) st)
                 (mkDatasetState [] [] 0) ;;
  ret (st, mkSummary (sample_count st) samples_per_digit digit_characters
                     img_width img_height).

End OpenCV.

(** *** The label the readers of the dataset parse from a file name

    [int(filename.split('_')[2])], as in the test block of
    [production_ocr.py] and in the training scripts. *)

(** [s.split(sep)] for a separator of one character. *)
Fixpoint split (sep : ascii) (s : string) : list string :=
  match s with
  | EmptyString => [EmptyString]
  | String c rest =>
      if Ascii.eqb c sep then EmptyString :: split sep rest
      else match split sep rest with
           | [] => [String c EmptyString]
           | first :: others => String c first :: others
           end
  end.

(** [int(text)] on a text of ASCII decimal digits, leading zeros
    allowed.  Python also accepts surrounding white space, a sign and
    underscores between digits; such texts are answered [Raise] here, and
    the statements below rely on the answers [Ok] only. *)
Definition int_of_text (text : string) : Exc Z :=
  match text with
  | EmptyString => Raise "invalid literal for int() with base 10"
  | _ =>
      match NilEmpty.uint_of_string text with
      | Some d => Ok (Z.of_uint d)
      | None => Raise "invalid literal for int() with base 10"
      end
  end.

Definition label_of_filename (filename : string) : Exc Z :=
  match nth_error (split "_" filename) 2 with
  | Some text => int_of_text text
  | None => Raise "list index out of range"
  end.

End DatasetGeneration.

(** ** Vocabulary of the statements about the arbitration *)

Module ArbitrationStatements.

Import ProductionOCR.

(** The class probabilities of a network output. *)
Definition digit_head (out : ModelOutput) : list Q :=
  match out with
  | DualHead digit_probs _ => digit_probs
  | SingleHead probabilities => probabilities
  end.

(** A stand-in network for closed examples: a single head that gives
    class 3 the probability 0.6. *)
Definition example_forward (_ : unit) : Exc ModelOutput :=
  Ok (SingleHead [1 # 10; 1 # 10; 1 # 10; 6 # 10; 1 # 10; 0; 0; 0; 0; 0]%Q).

(** A stand-in Tesseract that reads "7" with a trailing newline. *)
Definition example_image_to_string (_ : unit) : Exc string :=
  Ok (String "7" (String (ascii_of_nat 10) EmptyString)).

(** A stand-in preprocessing: a 4 by 4 binary image, white everywhere. *)
Definition example_preprocess (_ : unit) : Exc (array2 Z) :=
  Ok (mkArray2 4 4 (fun _ _ => 255)).

Definition example_ocr : ProductionOCR := mkOCR true true (1 # 2).

(** What one requested method contributes to [results]: the body of the
    loop of [predict_digit] for the method name [m]. *)
Definition requested_result (Image : Type)
    (preprocess_seven_segment_image : Image -> Exc (array2 Z))
    (cnn_forward : Image -> Exc ModelOutput)
    (image_to_string : Image -> Exc string)
    (self : ProductionOCR) (image : Image) (m : string) : list ResultDict :=
  collect_results Image preprocess_seven_segment_image cnn_forward image_to_string
                  self image [m].

(** The arbitration in the words of the amended claim C9.  A requested
    method is invoked when it is known and available: "cnn" when the model
    is loaded, "traditional" when Tesseract is available, "template"
    always; any other name is skipped. *)
Definition method_result (Image : Type)
    (preprocess_seven_segment_image : Image -> Exc (array2 Z))
    (cnn_forward : Image -> Exc ModelOutput)
    (image_to_string : Image -> Exc string)
    (self : ProductionOCR) (image : Image) (m : string) : option ResultDict :=
  if String.eqb m "cnn" then
    if cnn_available self
    then Some (cnn_predict_digit Image cnn_forward self image) else None
  else if String.eqb m "traditional" then
    if tesseract_available self
    then Some (traditional_ocr_predict Image image_to_string self image) else None
  else if String.eqb m "template" then
    Some (template_matching_predict Image preprocess_seven_segment_image image)
  else None.

(** The result of an invoked method is kept when it carries a digit. *)
Definition kept_results (Image : Type)
    (preprocess_seven_segment_image : Image -> Exc (array2 Z))
    (cnn_forward : Image -> Exc ModelOutput)
    (image_to_string : Image -> Exc string)
    (self : ProductionOCR) (image : Image) (m : string) : list ResultDict :=
  match method_result Image preprocess_seven_segment_image cnn_forward
                      image_to_string self image m with
  | Some r => if has_digit r then [r] else []
  | None => []
  end.

(** A stand-in network whose best class, 2, has the probability one
    half; every probability is a binary fraction, exact in float32. *)
Definition half_forward (_ : unit) : Exc ModelOutput :=
  Ok (SingleHead [1 # 8; 1 # 8; 1 # 2; 1 # 8; 1 # 8; 0; 0; 0; 0; 0]%Q).

(** A stand-in network with 102 classes whose most probable class is the
    last one, 101. *)
Definition wide_forward (_ : unit) : Exc ModelOutput :=
  Ok (SingleHead (repeat 0%Q 101 ++ [1%Q])).

End ArbitrationStatements.

(** ** Vocabulary of the statements about the recognition methods *)

Module RecognitionStatements.

Import SegmentGeometry TemplateMatching ProductionOCR.

(** The activation vector [template_matching_predict] reads off a binary
    image: each segment is on when more than 30% of its region is white. *)
Definition vector_of_image (processed : array2 Z) : ActivationVector :=
  let h := shape0 processed in
  let w := shape1 processed in
  mkVec (segment_on processed (0, h / 4) (w / 4, 3 * w / 4))
        (segment_on processed (0, h / 2) (3 * w / 4, w))
        (segment_on processed (h / 2, h) (3 * w / 4, w))
        (segment_on processed (3 * h / 4, h) (w / 4, 3 * w / 4))
        (segment_on processed (h / 2, h) (0, w / 4))
        (segment_on processed (0, h / 2) (0, w / 4))
        (segment_on processed (h / 3, 2 * h / 3) (w / 4, 3 * w / 4)).

(** What a result of the template matcher looks like: a digit among 0, 2,
    3, 4, 5, 6 and 8 with a confidence in (0, 1/2] that is never marked
    confident, or an error without a digit. *)
Definition template_answer (r : ResultDict) : bool :=
  match digit r, confidence r, is_confident r, method r, error r with
  | Some d, Some c, Some false, Some m, None =>
      existsb (Z.eqb d) [0; 2; 3; 4; 5; 6; 8]
      && Qlt_bool 0 c && Qle_bool c (1 # 2)
      && String.eqb m "Template_Matching"
  | None, None, None, _, Some _ => true
  | _, _, _, _, _ => false
  end.

(** The method can run: it is one of the three names, and what it needs
    is available. *)
Definition runnable (self : ProductionOCR) (m : string) : bool :=
  (String.eqb m "cnn" && cnn_available self)
  || (String.eqb m "traditional" && tesseract_available self)
  || String.eqb m "template".

(** The OCR as [ProductionOCR()] builds it when no model file is found and
    pytesseract cannot be imported. *)
Definition fallback_ocr (threshold : Q) : ProductionOCR := mkOCR false false threshold.

(** A stand-in for closed examples: a preprocessing that returns a 4 by 4
    image without a white pixel. *)
Definition black_preprocess (_ : unit) : Exc (array2 Z) :=
  Ok (mkArray2 4 4 (fun _ _ => 0)).

(** A stand-in network with two heads: class 3 at 0.6, and a segment
    head between 0 and 1. *)
Definition example_dual_forward (_ : unit) : Exc ModelOutput :=
  Ok (DualHead [1 # 10; 1 # 10; 1 # 10; 6 # 10; 1 # 10; 0; 0; 0; 0; 0]%Q
               [9 # 10; 8 # 10; 1; 1 # 2; 0; 1 # 10; 1]%Q).

(** The manager around the stand-in OCR of the closed examples. *)
Definition example_manager : HumidityAppOCRManager.HumidityAppOCRManager :=
  HumidityAppOCRManager.mkManager ArbitrationStatements.example_ocr.

End RecognitionStatements.

(** ** Vocabulary of the statements about the generator *)

Module GeneratorStatements.

Import GlobalRandom SevenSegmentGenerator.

(** Every element of the image is a valid pixel value. *)
Definition in_range (img : array3 Z) : Prop :=
  forall y x c, 0 <= at3 img y x c <= 255.

(** Two images of the same shape with the same pixels. *)
Definition same_image (a b : array3 Z) : Prop :=
  height a = height b /\ width a = width b
  /\ forall y x c, at3 a y x c = at3 b y x c.

(** Two states of the global generators that are going to produce the
    same draws. *)
Definition same_draws (g1 g2 : Globals) : Prop :=
  consumed (py_random g1) = consumed (py_random g2)
  /\ (forall n, raw (py_random g1) n = raw (py_random g2) n)
  /\ np_consumed (np_random g1) = np_consumed (np_random g2)
  /\ (forall n, variates (np_random g1) n = variates (np_random g2) n).

(** Two runs that end alike: the same exception, or images and generator
    states that agree. *)
Definition same_outcome (r1 r2 : Exc (array3 Z * Globals)) : Prop :=
  match r1, r2 with
  | Ok (out1, g1), Ok (out2, g2) => same_image out1 out2 /\ same_draws g1 g2
  | Raise m1, Raise m2 => m1 = m2
  | _, _ => False
  end.

(** The mask of [_reduce_contrast]: the pixel is dark in the image the
    function received. *)
Definition is_dark (img : array3 Z) (y x : Z) : bool :=
  forallb (fun c => at3 img y x c <? 100) [0; 1; 2].

(** A pixel value after the blend toward mid-grey, as a fraction of 255. *)
Definition compressed (contrast_factor : Q) (v : Z) : Q :=
  ((1 # 2) + contrast_factor * (inject_Z v / 255 - (1 # 2)))%Q.

(** Stand-ins for the OpenCV and numpy calls in closed examples: shapes
    that cover no pixel, a blur that changes nothing, the integer square
    root. *)
Definition no_polygon (_ : list (Z * Z)) (_ _ : Z) : bool := false.
Definition no_circle (_ : Z * Z) (_ _ _ : Z) : bool := false.
Definition no_ellipse (_ _ : Z * Z) (_ _ _ _ _ : Z) : bool := false.
Definition no_blur (mask : array2 Z) (_ : Z * Z) (_ : Q) : array2 Z := mask.
Definition integer_sqrt (n : Z) : Q := inject_Z (Z.sqrt n).

(** A state of the two global generators, and a 60 by 60 image whose left
    half is segment-dark and right half background-light. *)
Definition example_globals : Globals :=
  mkGlobals (mkPyGen (fun n => 1234567891234567 * Z.of_nat (S n)) 0)
            (mkNpGen (fun n => inject_Z (Z.of_nat n) / 3 - 1)%Q 0).

Definition example_image : array3 Z :=
  mkArray3 60 60 (fun _ x _ => if x <? 30 then 40 else 220).

Definition example_degrade : M (array3 Z) :=
  add_realistic_effects no_circle no_ellipse no_blur integer_sqrt example_image.

(** The pixel at [(y, x, c)] of a run, [None] if the run raised. *)
Definition pixel_of (r : Exc (array3 Z * Globals)) (y x c : Z) : option Z :=
  match r with Ok (out, _) => Some (at3 out y x c) | Raise _ => None end.

(** The state a run leaves the global generators in. *)
Definition state_after (r : Exc (array3 Z * Globals)) (g : Globals) : Globals :=
  match r with Ok (_, g') => g' | Raise _ => g end.

(** Whenever the computation returns, its value satisfies [P]. *)
Definition returns_only {T : Type} (c : M T) (P : T -> Prop) : Prop :=
  forall g, match c g with Ok (x, _) => P x | Raise _ => True end.

(** The computation raises nothing and its value satisfies [P]. *)
Definition always_returns {T : Type} (c : M T) (P : T -> Prop) : Prop :=
  forall g, exists x g', c g = Ok (x, g') /\ P x.

(** A valid image of the given shape. *)
Definition valid_image (h w : Z) (img : array3 Z) : Prop :=
  in_range img /\ height img = h /\ width img = w.

(** Two arrays of the same shape with the same elements. *)
Definition same_array {T : Type} (a b : array3 T) : Prop :=
  height a = height b /\ width a = width b
  /\ forall y x c, at3 a y x c = at3 b y x c.

(** Two runs that end alike, their values compared by [R]. *)
Definition same_result {T : Type} (R : T -> T -> Prop) (r1 r2 : Exc (T * Globals)) : Prop :=
  match r1, r2 with
  | Ok (x1, g1), Ok (x2, g2) => R x1 x2 /\ same_draws g1 g2
  | Raise m1, Raise m2 => m1 = m2
  | _, _ => False
  end.

(** Started from states that produce the same draws, the two computations
    end alike. *)
Definition related {T : Type} (R : T -> T -> Prop) (c1 c2 : M T) : Prop :=
  forall g1 g2, same_draws g1 g2 -> same_result R (c1 g1) (c2 g2).

(** The state of [example_globals] with the table of raw values written
    another way. *)
Definition example_globals_again : Globals :=
  mkGlobals (mkPyGen (fun n => 1234567891234567 * (Z.of_nat n + 1)) 0)
            (mkNpGen (fun n => inject_Z (Z.of_nat n) / 3 - 1)%Q 0).

End GeneratorStatements.

(** ** Vocabulary of further statements about the generator *)

Module PipelineStatements.

Import GlobalRandom SevenSegmentGenerator GeneratorStatements.

(** The computation raises, whatever the state of the generators. *)
Definition always_raises {T : Type} (c : M T) : Prop :=
  forall g, exists msg, c g = Raise msg.

(** The image has the shape [(h, w, 3)]. *)
Definition has_shape (h w : Z) (img : array3 Z) : Prop :=
  height img = h /\ width img = w.

(** The corners of a segment's polygon in pixels, as [create_clean_digit]
    computes them. *)
Definition abs_points_of (self : SevenSegmentGenerator) (points : list (Q * Q))
  : list (Z * Z) :=
  map (fun p : Q * Q =>
         (py_int (fst p * inject_Z (self_width self)),
          py_int (snd p * inject_Z (self_height self)))) points.

(** The pixel lies in the polygon of one of the listed segments. *)
Definition covered_by (fillPoly_covers : list (Z * Z) -> Z -> Z -> bool)
           (self : SevenSegmentGenerator) (names : list string) (y x : Z) : bool :=
  existsb (fun segment =>
             match dict_lookup segments segment with
             | Some points => fillPoly_covers (abs_points_of self points) y x
             | None => false
             end) names.

(** No pixel of [b] is darker than in [a]; no pixel of [b] is lighter. *)
Definition not_darker (a b : array3 Z) : Prop :=
  forall y x c, at3 a y x c <= at3 b y x c.

Definition not_lighter (a b : array3 Z) : Prop :=
  forall y x c, at3 b y x c <= at3 a y x c.

(** Every pixel of [b] is the pixel of [a], or a grey between 60 and 180. *)
Definition dusted (a b : array3 Z) : Prop :=
  forall y x,
    (forall c, at3 b y x c = at3 a y x c)
    \/ exists grey, 60 <= grey <= 180 /\ forall c, at3 b y x c = grey.

(** A stand-in rasteriser for closed examples: it fills the bounding box
    of the polygon. *)
Definition bounding_box_covers (points : list (Z * Z)) (y x : Z) : bool :=
  match points with
  | [] => false
  | (x0, y0) :: rest =>
      let x_min := fold_left Z.min (map fst rest) x0 in
      let x_max := fold_left Z.max (map fst rest) x0 in
      let y_min := fold_left Z.min (map snd rest) y0 in
      let y_max := fold_left Z.max (map snd rest) y0 in
      (x_min <=? x) && (x <=? x_max) && (y_min <=? y) && (y <=? y_max)
  end.

(** Every name of the list is a key of [segments]. *)
Definition all_segments_known (names : list string) : bool :=
  forallb (fun segment =>
             match dict_lookup segments segment with
             | Some _ => true
             | None => false
             end) names.

(** A stand-in blur for closed examples: it keeps the mask and saturates
    it to [uint8]. *)
Definition saturating_blur (mask : array2 Z) (_ : Z * Z) (_ : Q) : array2 Z :=
  mkArray2 (shape0 mask) (shape1 mask)
           (fun y x => Z.max 0 (Z.min 255 (at2 mask y x))).

(** The generator [SevenSegmentGenerator()] with its default canvas. *)
Definition default_generator : SevenSegmentGenerator := mkGenerator 200 300.

End PipelineStatements.

(** ** Vocabulary of the statements about the dataset *)

Module DatasetStatements.

Import GlobalRandom SevenSegmentGenerator DatasetGeneration.

(** The digit and the file name of each metadata entry, in order. *)
Definition listing (st : DatasetState) : list (string * string) :=
  map (fun m => (meta_digit m, meta_filename m)) (all_metadata st).

(** The samples of a dataset with [n] samples per digit: digit by digit,
    and for each digit the numbers 0 to [n - 1]. *)
Definition sample_keys (n : Z) : list (string * Z) :=
  list_prod digit_characters (range 0 n).

Definition expected_listing (n : Z) : list (string * string) :=
  map (fun key : string * Z => (fst key, sample_filename (fst key) (snd key)))
      (sample_keys n).

(** The files written and the counter agree with the metadata list. *)
Definition consistent (st : DatasetState) : Prop :=
  map fst (files st) = map meta_filename (all_metadata st)
  /\ map sample_id (all_metadata st) = range 0 (sample_count st)
  /\ 0 <= sample_count st.

(** The value of each of the ten digit characters. *)
Definition digit_values : list (Exc Z) :=
  [Ok 0; Ok 1; Ok 2; Ok 3; Ok 4; Ok 5; Ok 6; Ok 7; Ok 8; Ok 9].

End DatasetStatements.

(** * Theorems *)

(** ** Comparisons on rationals *)

Lemma Qlt_bool_iff (a b : Q) : Qlt_bool a b = true <-> (a < b)%Q.
Proof.
  unfold Qlt_bool. rewrite negb_true_iff. split.
  - intros H. apply Qnot_le_lt. intros Hle.
    apply Qle_bool_iff in Hle. congruence.
  - intros H. destruct (Qle_bool b a) eqn:E; [| reflexivity].
    apply Qle_bool_iff in E. exfalso. exact (Qlt_not_le _ _ H E).
Qed.

Lemma Qlt_bool_false_iff (a b : Q) : Qlt_bool a b = false <-> (b <= a)%Q.
Proof.
  unfold Qlt_bool. rewrite negb_false_iff. apply Qle_bool_iff.
Qed.

(** ** The truth table and the structural decoder *)

Module DecoderFacts.

Import SegmentGeometry TemplateMatching DecoderStatements.

(** The 128 activation vectors, one goal each. *)
Ltac each_vector v :=
  destruct v as [[] [] [] [] [] [] []].

Lemma scores_agree_all (v : ActivationVector) : scores_agree v = true.
Proof. each_vector v; vm_compute; reflexivity. Qed.

Lemma answer_is_lowest_maximum_all (v : ActivationVector) :
  answer_is_lowest_maximum v = true.
Proof. each_vector v; vm_compute; reflexivity. Qed.

(** C2.  On every activation vector the decoder's per-digit score is the
    score of the specification (expected segments observed active, minus
    one half per active segment that is not expected); the digit it
    returns attains the maximum score, no lower digit attains it, and the
    score is positive; when no score is positive the result carries no
    digit and no confidence but an error message, and nothing is raised
    ([decode] is a total function). *)
Theorem decoder_scores_and_selection (v : ActivationVector) :
  (forall d, In d digits -> score_of d v == spec_score d v)
  /\ match digit (decode v) with
     | Some d =>
         In d digits
         /\ (0 < score_of d v)%Q
         /\ (forall e, In e digits -> (score_of e v <= score_of d v)%Q)
         /\ (forall e, In e digits -> e < d -> (score_of e v < score_of d v)%Q)
         /\ error (decode v) = None
     | None =>
         (forall e, In e digits -> (score_of e v <= 0)%Q)
         /\ (exists msg, error (decode v) = Some msg)
         /\ confidence (decode v) = None
     end.
Proof.
  split.
  - intros d Hd. pose proof (scores_agree_all v) as H.
    unfold scores_agree in H. rewrite forallb_forall in H.
    apply Qeq_bool_iff. exact (H d Hd).
  - pose proof (answer_is_lowest_maximum_all v) as H.
    unfold answer_is_lowest_maximum in H.
    destruct (digit (decode v)) as [d |].
    + repeat rewrite andb_true_iff in H.
      destruct H as [[[[Hin Hpos] Hmax] Hlow] Herr].
      repeat split.
      * apply existsb_exists in Hin. destruct Hin as [x [Hx Heq]].
        apply Z.eqb_eq in Heq. subst x. exact Hx.
      * apply Qlt_bool_iff. exact Hpos.
      * intros e He. rewrite forallb_forall in Hmax.
        apply Qle_bool_iff. exact (Hmax e He).
      * intros e He Hlt. rewrite forallb_forall in Hlow.
        specialize (Hlow e He). apply orb_true_iff in Hlow.
        destruct Hlow as [Hge | Hs].
        -- apply negb_true_iff in Hge. apply Z.ltb_ge in Hge. lia.
        -- apply Qlt_bool_iff. exact Hs.
      * destruct (error (decode v)); [discriminate | reflexivity].
    + apply andb_true_iff in H. destruct H as [Hmax Herr].
      repeat split.
      * intros e He. rewrite forallb_forall in Hmax.
        apply Qle_bool_iff. exact (Hmax e He).
      * destruct (error (decode v)) as [msg |]; [exists msg; reflexivity | discriminate].
      * destruct (error (decode v)); destruct (confidence (decode v));
          try discriminate; reflexivity.
Qed.

(** What the decoder answers on the row of each digit: the lowest digit
    whose pattern contains the row.  The rows of 1 and 7 lie inside the
    pattern of 0 and the row of 9 inside the pattern of 8. *)
Lemma decode_rows :
  map (fun d => digit (decode (as_vector (activeSegments d)))) digits
  = [Some 0; Some 0; Some 2; Some 3; Some 4; Some 5; Some 6; Some 0; Some 8; Some 8].
Proof. vm_compute. reflexivity. Qed.

(** C1, refuted.  The round trip fails at digit 8, whose row decodes to 8
    with confidence one half and not 1.0, and at digit 1, whose row decodes
    to 0. *)
Lemma round_trip_fails_at_8_and_1 : ~ round_trip 8 /\ ~ round_trip 1.
Proof.
  split; intros [Hd Hc].
  - vm_compute in Hc. discriminate Hc.
  - vm_compute in Hd. discriminate Hd.
Qed.

(** C1, amended.  For every digit among 0, 2, 3, 4, 5, 6 and 8, the row of
    the digit decodes to the digit, with the confidence one half at which
    the decoder caps. *)
Theorem capped_round_trip_holds :
  Forall capped_round_trip [0; 2; 3; 4; 5; 6; 8].
Proof.
  repeat (apply Forall_cons; [split; vm_compute; reflexivity |]).
  apply Forall_nil.
Qed.

Lemma decode_confidence_all (v : ActivationVector) :
  match digit (decode v), confidence (decode v) with
  | Some d, Some c => Qeq_bool c (code_confidence (score_of d v)) = true
  | None, None => true = true
  | _, _ => false = true
  end.
Proof. each_vector v; vm_compute; reflexivity. Qed.

(** C3, refuted.  With all seven segments lit the decoder returns digit 8
    with confidence one half; the specification's rule gives 1.0 there. *)
Lemma all_on_confidence_is_half :
  digit (decode all_on) = Some 8
  /\ has_confidence (decode all_on) (1 # 2)
  /\ spec_confidence (score_of 8 all_on) == 1
  /\ ~ has_confidence (decode all_on) (spec_confidence (score_of 8 all_on)).
Proof.
  split; [vm_compute; reflexivity |].
  split; [vm_compute; reflexivity |].
  split; [vm_compute; reflexivity |].
  intros H. vm_compute in H. discriminate H.
Qed.

(** C3, amended.  Whenever the decoder succeeds, the confidence it reports
    is max(0, best score)/7 capped at 0.5, the best score being the score
    of the digit returned; an input matching all seven segments of digit 8
    yields confidence 0.5. *)
Theorem decoder_confidence_capped_at_half (v : ActivationVector) :
  match digit (decode v) with
  | Some d => has_confidence (decode v) (code_confidence (score_of d v))
  | None => confidence (decode v) = None
  end
  /\ has_confidence (decode all_on) (1 # 2).
Proof.
  split.
  - pose proof (decode_confidence_all v) as H. unfold has_confidence.
    destruct (digit (decode v)); destruct (confidence (decode v));
      try discriminate; try reflexivity.
    apply Qeq_bool_iff. exact H.
  - vm_compute. reflexivity.
Qed.

(** C4.  For every digit 0..9 the generator's [digit_segments] entry, read
    through a=A, ..., g=G, is the entry of the specification's table (in
    the same order), and the decoder's [patterns] entry, read through
    top=A, top_right=B, bottom_right=C, bottom=D, bottom_left=E,
    top_left=F, middle=G, lights exactly the same segments; both maps have
    the ten keys 0..9 and no others. *)
Theorem truth_table_reproduced :
  Forall (fun d =>
            generator_row d = truth_table d
            /\ option_map as_vector (decoder_row d) = option_map as_vector (truth_table d)
            /\ (forall s, In s (activeSegments d) <->
                          exists l, decoder_row d = Some l /\ In s l))
         digits
  /\ map fst SevenSegmentGenerator.digit_segments = map digit_key digits
  /\ map fst patterns = digits.
Proof.
  assert (Hmem : forall s l, mem s l = true <-> In s l).
  { intros s l. unfold mem. rewrite existsb_exists. split.
    - intros [x [Hx Heq]]. destruct s, x; try discriminate; exact Hx.
    - intros H. exists s. split; [exact H | destruct s; reflexivity]. }
  split; [| split; vm_compute; reflexivity].
  repeat (apply Forall_cons;
          [split; [vm_compute; reflexivity | split; [vm_compute; reflexivity |]] |]);
    try apply Forall_nil.
  all: intros s; rewrite <- Hmem; split.
  all: try (intros H; eexists; split; [vm_compute; reflexivity |];
            apply Hmem; destruct s; vm_compute in H |- *; congruence).
  all: intros [l [Hl Hin]]; vm_compute in Hl; injection Hl as <-;
       apply Hmem in Hin; destruct s; vm_compute in Hin |- *; congruence.
Qed.

End DecoderFacts.

(** ** The arbitration of predict_digit *)

Module ArbitrationFacts.

Import TemplateMatching ProductionOCR ArbitrationStatements.

Section MaxBy.

Variable T : Type.
Variable key : T -> Q.

Lemma max_from_ge (l : list T) (best : T) :
  (key best <= key (max_from key best l))%Q.
Proof.
  revert best. induction l as [| x rest IH]; intros best; simpl.
  - apply Qle_refl.
  - destruct (Qlt_bool (key best) (key x)) eqn:E.
    + apply Qlt_bool_iff in E. apply Qlt_le_weak in E.
      exact (Qle_trans _ _ _ E (IH x)).
    + apply IH.
Qed.

(** [max_from] returns the first element of [best :: l] whose key no
    element exceeds: every element before it has a strictly smaller key,
    every element after it a key that is not larger. *)
Lemma max_from_first (l : list T) (best : T) :
  exists before after,
    best :: l = before ++ max_from key best l :: after
    /\ (forall r, In r before -> (key r < key (max_from key best l))%Q)
    /\ (forall r, In r after -> (key r <= key (max_from key best l))%Q).
Proof.
  revert best. induction l as [| x rest IH]; intros best; simpl.
  - exists [], []. repeat split; intros r [].
  - destruct (Qlt_bool (key best) (key x)) eqn:E.
    + destruct (IH x) as [before [after [Hsplit [Hb Ha]]]].
      exists (best :: before), after. split; [| split].
      * simpl. rewrite Hsplit. reflexivity.
      * intros r [<- | Hr]; [| exact (Hb r Hr)].
        apply Qlt_bool_iff in E.
        exact (Qlt_le_trans _ _ _ E (max_from_ge rest x)).
      * exact Ha.
    + apply Qlt_bool_false_iff in E.
      destruct (IH best) as [before [after [Hsplit [Hb Ha]]]].
      destruct before as [| b0 before'].
      * simpl in Hsplit. injection Hsplit as Hbest Hrest.
        exists [], (x :: rest). split; [| split].
        -- simpl. rewrite <- Hbest. reflexivity.
        -- intros r [].
        -- intros r [<- | Hr].
           ++ rewrite <- Hbest. exact E.
           ++ apply Ha. rewrite <- Hrest. exact Hr.
      * simpl in Hsplit. injection Hsplit as Hb0 Hrest.
        exists (best :: x :: before'), after. split; [| split].
        -- simpl. f_equal. f_equal. exact Hrest.
        -- assert (Hlt : (key best < key (max_from key best rest))%Q).
           { apply Hb. left. symmetry. exact Hb0. }
           intros r [<- | [<- | Hr]].
           ++ exact Hlt.
           ++ exact (Qle_lt_trans _ _ _ E Hlt).
           ++ apply Hb. right. exact Hr.
        -- exact Ha.
Qed.

End MaxBy.

Section Arbitration.

Variable Image : Type.
Variable preprocess_seven_segment_image : Image -> Exc (array2 Z).
Variable cnn_forward : Image -> Exc ModelOutput.
Variable image_to_string : Image -> Exc string.
Variable self : ProductionOCR.

Local Abbreviation cnn := (cnn_predict_digit Image cnn_forward self).
Local Abbreviation traditional := (traditional_ocr_predict Image image_to_string self).
Local Abbreviation template := (template_matching_predict Image preprocess_seven_segment_image).
Local Abbreviation collect :=
  (collect_results Image preprocess_seven_segment_image cnn_forward image_to_string self).
Local Abbreviation predict :=
  (predict_digit Image preprocess_seven_segment_image cnn_forward image_to_string self).

Local Abbreviation requested :=
  (requested_result Image preprocess_seven_segment_image cnn_forward image_to_string self).

Lemma collect_results_cons (image : Image) (m : string) (rest : list string) :
  collect image (m :: rest) = requested image m ++ collect image rest.
Proof.
  unfold requested_result. simpl. rewrite app_nil_r. reflexivity.
Qed.

(** A requested method contributes its result when the method is known,
    available and its result carries a digit, and nothing otherwise. *)
Lemma requested_result_In (image : Image) (m : string) (r : ResultDict) :
  In r (requested image m) <->
  has_digit r = true
  /\ ((m = "cnn"%string /\ cnn_available self = true /\ r = cnn image)
      \/ (m = "traditional"%string /\ tesseract_available self = true
          /\ r = traditional image)
      \/ (m = "template"%string /\ r = template image)).
Proof.
  unfold requested_result. simpl. rewrite app_nil_r.
  destruct (String.eqb_spec m "cnn") as [-> | Hcnn];
    [destruct (cnn_available self); simpl |
     destruct (String.eqb_spec m "traditional") as [-> | Htrad];
     [destruct (tesseract_available self); simpl |
      simpl; destruct (String.eqb_spec m "template") as [-> | Htemp]]].
  all: repeat match goal with
              | |- context [if has_digit ?x then _ else _] =>
                  let Hd := fresh "Hd" in destruct (has_digit x) eqn:Hd
              end.
  all: simpl; split;
    [ intros H; repeat destruct H as [H | H]; subst; try contradiction; auto 10
    | intros [H1 [[Hm [Ha Hr]] | [[Hm [Ha Hr]] | [Hm Hr]]]];
      subst; try discriminate; try congruence; auto ].
Qed.

(** The results collected are exactly the digit-carrying results of the
    requested methods that are known and available. *)
Lemma collect_results_In (image : Image) (methods : list string) (r : ResultDict) :
  In r (collect image methods) <->
  exists m, In m methods /\ In r (requested image m).
Proof.
  induction methods as [| m rest IH].
  - simpl. split; [intros [] | intros [m [[] _]]].
  - rewrite collect_results_cons, in_app_iff, IH. split.
    + intros [H | [m' [Hin Hr]]].
      * exists m. split; [left; reflexivity | exact H].
      * exists m'. split; [right; exact Hin | exact Hr].
    + intros [m' [[<- | Hin] Hr]].
      * left. exact Hr.
      * right. exists m'. split; assumption.
Qed.

(** The loop of [predict_digit] collects, method by method in the order
    of the request, what the amended claim describes. *)
Lemma collect_results_flat_map (image : Image) (methods : list string) :
  collect image methods
  = flat_map (kept_results Image preprocess_seven_segment_image cnn_forward
                           image_to_string self image) methods.
Proof.
  induction methods as [| m rest IH]; [reflexivity |].
  cbn [collect_results flat_map]. rewrite IH. f_equal.
  unfold kept_results, method_result.
  destruct (String.eqb_spec m "cnn") as [-> | Hcnn].
  - destruct (cnn_available self); reflexivity.
  - destruct (String.eqb_spec m "traditional") as [-> | Htrad].
    + destruct (tesseract_available self); reflexivity.
    + destruct (String.eqb_spec m "template") as [-> | Htemp]; reflexivity.
Qed.

(** C9, amended.  For every image and requested method list: each
    requested method that is known and available is invoked ("cnn" when
    the model is loaded, "traditional" when Tesseract is available,
    "template" always; other names are skipped) and its result is kept
    when it carries a digit.  Of the kept results, taken in the order of
    the request, the arbitrator returns the first whose confidence none
    of the others exceeds: every result of an earlier request has a
    strictly lower confidence, so a tie goes to the method requested
    first, not to a fixed priority.  When no result is kept it returns (it
    does not raise) the error dictionary "All methods failed" listing the
    requested methods. *)
Theorem predict_digit_first_best (image : Image) (methods : list string) :
  match flat_map (kept_results Image preprocess_seven_segment_image cnn_forward
                               image_to_string self image) methods with
  | [] =>
      chosen (predict image (Some methods))
      = error_dict None "All methods failed"
      /\ methods_tried (predict image (Some methods)) = Some methods
      /\ all_methods (predict image (Some methods)) = None
  | first :: others =>
      exists before after,
        first :: others
        = before ++ chosen (predict image (Some methods)) :: after
        /\ (forall r, In r before ->
              (get_confidence r
               < get_confidence (chosen (predict image (Some methods))))%Q)
        /\ (forall r, In r after ->
              (get_confidence r
               <= get_confidence (chosen (predict image (Some methods))))%Q)
        /\ has_digit (chosen (predict image (Some methods))) = true
        /\ all_methods (predict image (Some methods)) = Some (first :: others)
        /\ methods_tried (predict image (Some methods)) = None
  end.
Proof.
  rewrite <- collect_results_flat_map.
  unfold predict_digit.
  destruct (collect image methods) as [| r0 rest] eqn:Hc; simpl.
  - repeat split.
  - destruct (max_from_first ResultDict get_confidence rest r0)
      as [before [after [Hsplit [Hb Ha]]]].
    exists before, after. repeat split; try assumption.
    assert (Hin : In (max_from get_confidence r0 rest) (collect image methods)).
    { rewrite Hc, Hsplit. apply in_or_app. right. left. reflexivity. }
    apply collect_results_In in Hin. destruct Hin as [m [_ Hm]].
    apply requested_result_In in Hm. exact (proj1 Hm).
Qed.

End Arbitration.

(** C9, refuted.  With the methods requested in the order template,
    cnn, an image that the preprocessing turns white everywhere and a
    network that gives its best class the probability one half, the
    neural and the structural result both carry a digit with the
    confidence 0.5, and the arbitrator returns the structural one, which
    was requested first: the neural result does not win the tie. *)
Lemma tie_goes_to_first_requested :
  method (chosen (predict_digit unit example_preprocess half_forward
                                example_image_to_string example_ocr tt
                                (Some ["template"; "cnn"]%string)))
  = Some "Template_Matching"%string
  /\ method (cnn_predict_digit unit half_forward example_ocr tt)
     = Some "CNN_v2"%string
  /\ has_digit (cnn_predict_digit unit half_forward example_ocr tt) = true
  /\ has_digit (template_matching_predict unit example_preprocess tt) = true
  /\ get_confidence (cnn_predict_digit unit half_forward example_ocr tt)
     == get_confidence (template_matching_predict unit example_preprocess tt).
Proof.
  split; [vm_compute; reflexivity |].
  split; [vm_compute; reflexivity |].
  split; [vm_compute; reflexivity |].
  split; [vm_compute; reflexivity |].
  vm_compute. reflexivity.
Qed.


(** *** The digits the three methods can return *)

Lemma argmax_from_range (l : list Q) (i best_i : Z) (best : Q) :
  0 <= best_i < i ->
  0 <= fst (argmax_from l i best_i best) < i + Z.of_nat (List.length l).
Proof.
  revert i best_i best. induction l as [| x rest IH]; intros i best_i best H.
  - simpl. lia.
  - cbn [argmax_from List.length].
    destruct (Qlt_bool best x).
    + specialize (IH (i + 1) i x). lia.
    + specialize (IH (i + 1) best_i best). lia.
Qed.

Lemma np_argmax_range (l : list Q) (i : Z) :
  np_argmax l = Ok i -> 0 <= i < Z.of_nat (List.length l).
Proof.
  destruct l as [| x rest]; simpl; [discriminate |].
  intros H. injection H as <-.
  pose proof (argmax_from_range rest 1 0 x). lia.
Qed.

Lemma int_of_char_range (c : ascii) (d : Z) :
  int_of_char c = Ok d -> 0 <= d <= 9.
Proof.
  unfold int_of_char, is_decimal.
  destruct ((48 <=? nat_of_ascii c)%nat && (nat_of_ascii c <=? 57)%nat) eqn:E;
    [| discriminate].
  intros H. injection H as <-.
  apply andb_true_iff in E. destruct E as [E1 E2].
  apply Nat.leb_le in E1. apply Nat.leb_le in E2. lia.
Qed.

Lemma decode_digit_range (v : SegmentGeometry.ActivationVector) :
  match digit (decode v) with Some d => 0 <= d <= 9 | None => True end.
Proof.
  destruct v as [[] [] [] [] [] [] []]; vm_compute; try exact I;
    split; discriminate.
Qed.

Section Readings.

Variable Image : Type.
Variable preprocess_seven_segment_image : Image -> Exc (array2 Z).
Variable cnn_forward : Image -> Exc ModelOutput.
Variable image_to_string : Image -> Exc string.
Variable self : ProductionOCR.

Local Abbreviation cnn := (cnn_predict_digit Image cnn_forward self).
Local Abbreviation traditional := (traditional_ocr_predict Image image_to_string self).
Local Abbreviation template := (template_matching_predict Image preprocess_seven_segment_image).
Local Abbreviation collect :=
  (collect_results Image preprocess_seven_segment_image cnn_forward image_to_string self).
Local Abbreviation requested :=
  (requested_result Image preprocess_seven_segment_image cnn_forward image_to_string self).
Local Abbreviation predict :=
  (predict_digit Image preprocess_seven_segment_image cnn_forward image_to_string self).
Local Abbreviation humidity_reading :=
  (process_humidity_reading Image preprocess_seven_segment_image cnn_forward
                            image_to_string self).

(** The networks of this repository end in a ten-way softmax: the class
    probabilities have ten entries. *)
Hypothesis model_output_shape :
  forall image out, cnn_forward image = Ok out ->
                    List.length (digit_head out) = 10%nat.

Lemma cnn_digit_range (image : Image) (d : Z) :
  digit (cnn image) = Some d -> 0 <= d <= 9.
Proof.
  unfold cnn_predict_digit.
  destruct (cnn_available self); simpl; [| discriminate].
  destruct (cnn_forward image) as [out | msg] eqn:Hf; [| discriminate].
  pose proof (model_output_shape image out Hf) as Hlen.
  destruct out as [digit_probs segment_probs | probabilities]; simpl in Hlen.
  - destruct (np_argmax digit_probs) as [i | msg] eqn:Ha; [| discriminate].
    destruct (np_max digit_probs); [| discriminate].
    simpl. intros H. injection H as <-.
    apply np_argmax_range in Ha. lia.
  - destruct (np_argmax probabilities) as [i | msg] eqn:Ha; [| discriminate].
    destruct (np_max probabilities); [| discriminate].
    simpl. intros H. injection H as <-.
    apply np_argmax_range in Ha. lia.
Qed.

Lemma traditional_digit_range (image : Image) (d : Z) :
  digit (traditional image) = Some d -> 0 <= d <= 9.
Proof.
  unfold traditional_ocr_predict.
  destruct (tesseract_available self); simpl; [| discriminate].
  destruct (image_to_string image) as [raw | msg]; [| discriminate].
  destruct (isdigit (strip raw) && (String.length (strip raw) =? 1)%nat);
    [| discriminate].
  destruct (strip raw) as [| c rest]; [discriminate |].
  destruct (int_of_char c) as [n | msg] eqn:Hc; [| discriminate].
  simpl. intros H. injection H as <-.
  exact (int_of_char_range c n Hc).
Qed.

Lemma template_digit_range (image : Image) (d : Z) :
  digit (template image) = Some d -> 0 <= d <= 9.
Proof.
  unfold template_matching_predict.
  destruct (preprocess_seven_segment_image image) as [processed | msg];
    [| discriminate].
  intros H.
  pose proof (decode_digit_range
                (SegmentGeometry.mkVec
                   (segment_on processed (0, shape0 processed / 4)
                               (shape1 processed / 4, 3 * shape1 processed / 4))
                   (segment_on processed (0, shape0 processed / 2)
                               (3 * shape1 processed / 4, shape1 processed))
                   (segment_on processed (shape0 processed / 2, shape0 processed)
                               (3 * shape1 processed / 4, shape1 processed))
                   (segment_on processed (3 * shape0 processed / 4, shape0 processed)
                               (shape1 processed / 4, 3 * shape1 processed / 4))
                   (segment_on processed (shape0 processed / 2, shape0 processed)
                               (0, shape1 processed / 4))
                   (segment_on processed (0, shape0 processed / 2)
                               (0, shape1 processed / 4))
                   (segment_on processed (shape0 processed / 3, 2 * shape0 processed / 3)
                               (shape1 processed / 4, 3 * shape1 processed / 4))))
    as Hr.
  unfold decode, segment_states_of in Hr. cbn [SegmentGeometry.vA
    SegmentGeometry.vB SegmentGeometry.vC SegmentGeometry.vD SegmentGeometry.vE
    SegmentGeometry.vF SegmentGeometry.vG] in Hr.
  unfold segment_states_of_image, segment_slices in H. cbn [map fst snd] in H.
  rewrite H in Hr. exact Hr.
Qed.

Lemma predict_digit_first_best_digit (image : Image) :
  (exists r, In r (collect image default_methods)) ->
  has_digit (chosen (predict image None)) = true.
Proof.
  intros [r Hr]. unfold predict_digit.
  destruct (collect image default_methods) as [| r0 rest] eqn:Hc; [destruct Hr |].
  simpl.
  destruct (max_from_first ResultDict get_confidence rest r0)
    as [before [after [Hsplit _]]].
  assert (Hin : In (max_from get_confidence r0 rest) (collect image default_methods)).
  { rewrite Hc, Hsplit. apply in_or_app. right. left. reflexivity. }
  apply (collect_results_In Image preprocess_seven_segment_image cnn_forward
           image_to_string self) in Hin.
  destruct Hin as [m [_ Hm]].
  apply (requested_result_In Image preprocess_seven_segment_image cnn_forward
           image_to_string self) in Hm.
  exact (proj1 Hm).
Qed.

Lemma collected_digit_range (image : Image) (methods : list string)
      (r : ResultDict) (d : Z) :
  In r (collect image methods) -> digit r = Some d -> 0 <= d <= 9.
Proof.
  intros Hin Hd.
  apply (collect_results_In Image preprocess_seven_segment_image cnn_forward
           image_to_string self) in Hin.
  destruct Hin as [m [_ Hm]].
  apply (requested_result_In Image preprocess_seven_segment_image cnn_forward
           image_to_string self) in Hm.
  destruct Hm as [_ [[_ [_ ->]] | [[_ [_ ->]] | [_ ->]]]].
  - exact (cnn_digit_range image d Hd).
  - exact (traditional_digit_range image d Hd).
  - exact (template_digit_range image d Hd).
Qed.

(** C10, amended.  Provided the digit head of the network has ten
    classes: whenever one of the three methods, as [predict_digit] calls
    them by default, yields a digit, [process_humidity_reading] returns
    a reading with [valid = True] and no error whose humidity is the
    digit of the result [predict_digit] chose, a digit in 0..9; and a
    reading that is not valid never carries a humidity: the
    out-of-range branch is not reached. *)
Theorem humidity_reading_is_valid (image : Image) :
  ((cnn_available self = true /\ has_digit (cnn image) = true)
   \/ (tesseract_available self = true /\ has_digit (traditional image) = true)
   \/ has_digit (template image) = true ->
   exists d,
     humidity (humidity_reading image) = Some d
     /\ digit (chosen (predict image None)) = Some d
     /\ 0 <= d <= 9
     /\ valid (humidity_reading image) = true
     /\ reading_error (humidity_reading image) = None)
  /\ (valid (humidity_reading image) = false ->
      humidity (humidity_reading image) = None).
Proof.
  assert (Hchosen : forall d, digit (chosen (predict image None)) = Some d ->
                              0 <= d <= 9).
  { intros d Hd. unfold predict_digit in Hd.
    destruct (collect image default_methods) as [| r0 rest] eqn:Hc;
      simpl in Hd; [discriminate |].
    destruct (max_from_first ResultDict get_confidence rest r0)
      as [before [after [Hsplit _]]].
    apply (collected_digit_range image default_methods
             (max_from get_confidence r0 rest)); [| exact Hd].
    rewrite Hc, Hsplit. apply in_or_app. right. left. reflexivity. }
  split.
  - intros Hany.
    assert (Hne : exists r, In r (collect image default_methods)).
    { destruct Hany as [[Ha Hd] | [[Ha Hd] | Hd]].
      - exists (cnn image).
        apply (collect_results_In Image preprocess_seven_segment_image cnn_forward
                 image_to_string self).
        exists "cnn"%string. split; [simpl; auto |].
        apply requested_result_In. split; [exact Hd | left; auto].
      - exists (traditional image).
        apply (collect_results_In Image preprocess_seven_segment_image cnn_forward
                 image_to_string self).
        exists "traditional"%string. split; [simpl; auto |].
        apply requested_result_In. split; [exact Hd | right; left; auto].
      - exists (template image).
        apply (collect_results_In Image preprocess_seven_segment_image cnn_forward
                 image_to_string self).
        exists "template"%string. split; [simpl; auto |].
        apply requested_result_In. split; [exact Hd | right; right; auto]. }
    pose proof (predict_digit_first_best_digit image) as Hbest.
    destruct Hne as [r Hr].
    specialize (Hbest (ex_intro _ r Hr)). unfold has_digit in Hbest.
    destruct (digit (chosen (predict image None))) as [d |] eqn:Hd;
      [| discriminate Hbest].
    exists d. pose proof (Hchosen d eq_refl) as Hrange.
    unfold process_humidity_reading. rewrite Hd.
    replace (Z.leb 0 d && Z.leb d 100) with true
      by (symmetry; apply andb_true_iff; split; apply Z.leb_le; lia).
    simpl. repeat split; lia.
  - unfold process_humidity_reading.
    destruct (digit (chosen (predict image None))) as [d |] eqn:Hd;
      [| reflexivity].
    pose proof (Hchosen d eq_refl) as Hrange.
    replace (Z.leb 0 d && Z.leb d 100) with true
      by (symmetry; apply andb_true_iff; split; apply Z.leb_le; lia).
    simpl. discriminate.
Qed.

End Readings.

(** C10, refuted.  Nothing in the code bounds the number of classes of
    the network.  With a network of 102 classes whose most probable class
    is 101, the network path yields the digit 101 with confidence 1, the
    arbitrator returns it, and [process_humidity_reading] takes the
    out-of-range branch: humidity 101, not valid, with the range error. *)
Lemma wide_network_reaches_out_of_range_branch :
  digit (cnn_predict_digit unit wide_forward example_ocr tt) = Some 101
  /\ humidity (process_humidity_reading unit example_preprocess wide_forward
                                        example_image_to_string example_ocr tt)
     = Some 101
  /\ valid (process_humidity_reading unit example_preprocess wide_forward
                                     example_image_to_string example_ocr tt)
     = false
  /\ reading_error (process_humidity_reading unit example_preprocess wide_forward
                                             example_image_to_string example_ocr tt)
     = Some "Humidity 101% out of valid range (0-100%)"%string.
Proof.
  split; [vm_compute; reflexivity |].
  split; [vm_compute; reflexivity |].
  split; [vm_compute; reflexivity |].
  vm_compute. reflexivity.
Qed.

(** A run of C10: the stand-in network has ten classes, the CNN yields a
    digit, and the reading is valid with a humidity in 0..9. *)
Lemma humidity_reading_is_valid_witness :
  (forall image out, example_forward image = Ok out ->
                     List.length (digit_head out) = 10%nat)
  /\ exists d,
       humidity (process_humidity_reading unit example_preprocess example_forward
                                          example_image_to_string example_ocr tt)
       = Some d
       /\ 0 <= d <= 9
       /\ valid (process_humidity_reading unit example_preprocess example_forward
                                          example_image_to_string example_ocr tt)
          = true.
Proof.
  assert (Hshape : forall image out, example_forward image = Ok out ->
                                     List.length (digit_head out) = 10%nat).
  { intros image out H. injection H as <-. reflexivity. }
  split; [exact Hshape |].
  destruct (humidity_reading_is_valid unit example_preprocess example_forward
              example_image_to_string example_ocr Hshape tt) as [H _].
  destruct H as [d [H1 [_ [H3 [H4 _]]]]].
  { left. split; vm_compute; reflexivity. }
  exists d. split; [exact H1 | split; [exact H3 | exact H4]].
Defined.

End ArbitrationFacts.

(** ** The recognition methods and the readings built on them *)

Module RecognitionFacts.

Import SegmentGeometry TemplateMatching ProductionOCR HumidityAppOCRManager.
Import ArbitrationStatements RecognitionStatements.

Lemma template_answer_decode (v : ActivationVector) :
  template_answer (decode v) = true.
Proof. destruct v as [[] [] [] [] [] [] []]; vm_compute; reflexivity. Qed.

Lemma match_patterns_of_image (processed : array2 Z) :
  match_patterns (segment_states_of_image processed)
  = decode (vector_of_image processed).
Proof. reflexivity. Qed.

Section Methods.

Variable Image : Type.
Variable preprocess_seven_segment_image : Image -> Exc (array2 Z).
Variable cnn_forward : Image -> Exc ModelOutput.
Variable image_to_string : Image -> Exc string.
Variable self : ProductionOCR.

Local Abbreviation cnn := (cnn_predict_digit Image cnn_forward self).
Local Abbreviation traditional := (traditional_ocr_predict Image image_to_string self).
Local Abbreviation template := (template_matching_predict Image preprocess_seven_segment_image).
Local Abbreviation collect :=
  (collect_results Image preprocess_seven_segment_image cnn_forward image_to_string self).
Local Abbreviation predict :=
  (predict_digit Image preprocess_seven_segment_image cnn_forward image_to_string self).

Lemma template_answer_all (image : Image) : template_answer (template image) = true.
Proof.
  unfold template_matching_predict.
  destruct (preprocess_seven_segment_image image) as [processed | msg];
    [| reflexivity].
  rewrite match_patterns_of_image. apply template_answer_decode.
Qed.

(** X1.  The template matcher answers one of the digits 0, 2, 3, 4, 5, 6 and 8,
    never 1, 7 or 9, with a confidence above 0 and at most one half that
    is never marked confident; otherwise it answers an error without a
    digit.  It raises nothing, whatever the preprocessing does. *)
Theorem template_matching_never_reads_1_7_9 (image : Image) :
  match digit (template_matching_predict Image preprocess_seven_segment_image image) with
  | Some d =>
      In d [0; 2; 3; 4; 5; 6; 8]
      /\ (exists c, confidence (template image) = Some c /\ (0 < c <= 1 # 2)%Q)
      /\ is_confident (template image) = Some false
      /\ method (template image) = Some "Template_Matching"%string
      /\ error (template image) = None
  | None =>
      (exists msg, error (template image) = Some msg)
      /\ confidence (template image) = None
  end.
Proof.
  pose proof (template_answer_all image) as H. unfold template_answer in H.
  destruct (digit (template image)) as [d |];
    destruct (confidence (template image)) as [c |];
    destruct (is_confident (template image)) as [[|] |];
    destruct (method (template image)) as [m |];
    destruct (error (template image)) as [e |]; try discriminate H.
  - repeat rewrite andb_true_iff in H. destruct H as [[[Hd Hpos] Hle] Hm].
    split; [| split; [| split; [reflexivity | split; [| reflexivity]]]].
    + apply existsb_exists in Hd. destruct Hd as [x [Hx Heq]].
      apply Z.eqb_eq in Heq. subst x. exact Hx.
    + exists c. split; [reflexivity |]. split.
      * apply Qlt_bool_iff. exact Hpos.
      * apply Qle_bool_iff. exact Hle.
    + apply String.eqb_eq in Hm. subst m. reflexivity.
  - split; [exists e; reflexivity | reflexivity].
  - split; [exists e; reflexivity | reflexivity].
Qed.

(** What [predict_digit] collects is what it would collect from the
    requested methods that can run. *)
Lemma collect_results_runnable (image : Image) (methods : list string) :
  collect image methods = collect image (filter (runnable self) methods).
Proof.
  induction methods as [| m rest IH]; [reflexivity |].
  cbn [filter]. unfold runnable at 1.
  destruct (String.eqb_spec m "cnn") as [-> | Hcnn].
  - cbn [collect_results String.eqb Ascii.eqb Bool.eqb andb orb].
    destruct (cnn_available self) eqn:Ha; cbn [andb orb].
    + cbn [collect_results String.eqb Ascii.eqb Bool.eqb andb].
      rewrite Ha. cbn [andb]. f_equal. exact IH.
    + exact IH.
  - destruct (String.eqb_spec m "traditional") as [-> | Htrad].
    + cbn [collect_results String.eqb Ascii.eqb Bool.eqb andb orb].
      destruct (tesseract_available self) eqn:Ha; cbn [andb orb].
      * cbn [collect_results String.eqb Ascii.eqb Bool.eqb andb].
        rewrite Ha. cbn [andb]. f_equal. exact IH.
      * exact IH.
    + destruct (String.eqb_spec m "template") as [-> | Htemp].
      * cbn [collect_results String.eqb Ascii.eqb Bool.eqb andb orb].
        f_equal. exact IH.
      * cbn [andb orb collect_results].
        apply String.eqb_neq in Hcnn, Htrad, Htemp.
        rewrite Hcnn, Htrad, Htemp. cbn [andb app]. exact IH.
Qed.

(** X2.  Method names [predict_digit] does not know, and the names of methods
    that are not available, are skipped without an error: the result
    chosen, and the list of results it is chosen from, are those of the
    request without these names. *)
Theorem predict_digit_skips_what_cannot_run (image : Image) (methods : list string) :
  chosen (predict image (Some methods))
  = chosen (predict image (Some (filter (runnable self) methods)))
  /\ all_methods (predict image (Some methods))
     = all_methods (predict image (Some (filter (runnable self) methods))).
Proof.
  unfold predict_digit. rewrite <- collect_results_runnable.
  destruct (py_max_by get_confidence (collect image methods)); split; reflexivity.
Qed.



(** Every result collected has a confidence that the chosen one
    reaches. *)
Lemma chosen_is_maximal (image : Image) (methods : list string) (r : ResultDict) :
  In r (collect image methods) ->
  In (chosen (predict image (Some methods))) (collect image methods)
  /\ (get_confidence r <= get_confidence (chosen (predict image (Some methods))))%Q.
Proof.
  intros Hr. unfold predict_digit.
  destruct (collect image methods) as [| r0 rest] eqn:Hc; [destruct Hr |].
  cbn [py_max_by chosen].
  destruct (ArbitrationFacts.max_from_first ResultDict get_confidence rest r0)
    as [before [after [Hsplit [Hb Ha]]]].
  split.
  - rewrite Hsplit. apply in_or_app. right. left. reflexivity.
  - rewrite Hsplit in Hr. apply in_app_or in Hr.
    destruct Hr as [Hr | [<- | Hr]].
    + apply Qlt_le_weak. exact (Hb r Hr).
    + apply Qle_refl.
    + exact (Ha r Hr).
Qed.

Lemma template_confidence_le_half (image : Image) :
  (get_confidence (template image) <= 1 # 2)%Q.
Proof.
  pose proof (template_answer_all image) as H.
  unfold template_answer in H. unfold get_confidence.
  destruct (digit (template image));
    destruct (confidence (template image)) as [c |]; try discriminate.
  destruct (is_confident (template image)) as [[|] |]; try discriminate H.
  destruct (method (template image)); try discriminate H.
  destruct (error (template image)); try discriminate H.
  repeat rewrite andb_true_iff in H. destruct H as [[[_ _] Hle] _].
  apply Qle_bool_iff. exact Hle.
Qed.

Lemma collected_origin (image : Image) (methods : list string) (r : ResultDict) :
  In r (collect image methods) ->
  has_digit r = true
  /\ ((cnn_available self = true /\ r = cnn image)
      \/ (tesseract_available self = true /\ r = traditional image)
      \/ r = template image).
Proof.
  intros Hin.
  apply (ArbitrationFacts.collect_results_In Image preprocess_seven_segment_image
           cnn_forward image_to_string self) in Hin.
  destruct Hin as [m [_ Hm]].
  apply (ArbitrationFacts.requested_result_In Image preprocess_seven_segment_image
           cnn_forward image_to_string self) in Hm.
  destruct Hm as [Hd [[_ [Ha ->]] | [[_ [Ha ->]] | [_ ->]]]]; split; auto.
Qed.

Lemma chosen_without_digit (image : Image) (methods : list string) :
  digit (chosen (predict image (Some methods))) = None ->
  collect image methods = []
  /\ chosen (predict image (Some methods)) = error_dict None "All methods failed".
Proof.
  intros Hd. destruct (collect image methods) as [| r0 rest] eqn:Hc.
  - split; [reflexivity |]. unfold predict_digit. rewrite Hc. reflexivity.
  - exfalso.
    assert (Hin : In r0 (collect image methods)) by (rewrite Hc; left; reflexivity).
    destruct (chosen_is_maximal image methods r0 Hin) as [Hchosen _].
    destruct (collected_origin image methods _ Hchosen) as [Hhas _].
    unfold has_digit in Hhas. rewrite Hd in Hhas. discriminate Hhas.
Qed.

Lemma chosen_with_digit (image : Image) (methods : list string) (d : Z) :
  digit (chosen (predict image (Some methods))) = Some d ->
  In (chosen (predict image (Some methods))) (collect image methods).
Proof.
  intros Hd. destruct (collect image methods) as [| r0 rest] eqn:Hc.
  - unfold predict_digit in Hd. rewrite Hc in Hd. discriminate Hd.
  - assert (Hin : In r0 (collect image methods)) by (rewrite Hc; left; reflexivity).
    destruct (chosen_is_maximal image methods r0 Hin) as [Hchosen _].
    rewrite Hc in Hchosen. exact Hchosen.
Qed.

Lemma traditional_result_shape (image : Image) :
  has_digit (traditional image) = true ->
  confidence (traditional image) = Some (6 # 10)%Q
  /\ method (traditional image) = Some "Traditional_OCR"%string.
Proof.
  unfold traditional_ocr_predict.
  destruct (tesseract_available self); simpl; [| discriminate].
  destruct (image_to_string image) as [raw | msg]; [| discriminate].
  destruct (isdigit (strip raw) && (String.length (strip raw) =? 1)%nat);
    [| discriminate].
  destruct (strip raw) as [| c rest]; [discriminate |].
  destruct (int_of_char c); [| discriminate].
  intros _. split; reflexivity.
Qed.

Lemma cnn_result_method (image : Image) :
  has_digit (cnn image) = true ->
  method (cnn image) = Some "CNN_v3"%string \/ method (cnn image) = Some "CNN_v2"%string.
Proof.
  unfold cnn_predict_digit.
  destruct (cnn_available self); simpl; [| discriminate].
  destruct (cnn_forward image) as [[digit_probs segment_probs | probabilities] | msg];
    [| | discriminate].
  - destruct (np_argmax digit_probs); [| discriminate].
    destruct (np_max digit_probs); [| discriminate]. intros _. left. reflexivity.
  - destruct (np_argmax probabilities); [| discriminate].
    destruct (np_max probabilities); [| discriminate]. intros _. right. reflexivity.
Qed.

(** X4.  When Tesseract reads a digit, the result [predict_digit] returns by
    default has a confidence of at least 0.6 and is never the template
    matcher's, whose confidence stops at 0.5: the template matcher can
    decide a reading only when Tesseract yields no digit. *)
Theorem template_never_outvotes_traditional (image : Image) :
  tesseract_available self = true ->
  has_digit (traditional image) = true ->
  (6 # 10 <= get_confidence (chosen (predict image None)))%Q
  /\ method (chosen (predict image None)) <> Some "Template_Matching"%string.
Proof.
  intros Ha Hd.
  change (predict image None) with (predict image (Some default_methods)).
  assert (Hin : In (traditional image) (collect image default_methods)).
  { apply (ArbitrationFacts.collect_results_In Image preprocess_seven_segment_image
             cnn_forward image_to_string self).
    exists "traditional"%string. split; [simpl; auto |].
    apply ArbitrationFacts.requested_result_In.
    split; [exact Hd | right; left; auto]. }
  destruct (chosen_is_maximal image default_methods _ Hin) as [Hchosen Hmax].
  destruct (traditional_result_shape image Hd) as [Hconf Hmeth].
  assert (Hge : (6 # 10 <= get_confidence (chosen (predict image (Some default_methods))))%Q).
  { unfold get_confidence at 1 in Hmax. rewrite Hconf in Hmax. exact Hmax. }
  split; [exact Hge |].
  destruct (collected_origin image default_methods _ Hchosen)
    as [Hhas [[_ Hr] | [[_ Hr] | Hr]]]; rewrite Hr in *.
  - destruct (cnn_result_method image Hhas) as [-> | ->]; discriminate.
  - rewrite Hmeth. discriminate.
  - exfalso. pose proof (template_confidence_le_half image) as Hle.
    assert (Habs : (6 # 10 <= 1 # 2)%Q) by exact (Qle_trans _ _ _ Hge Hle).
    vm_compute in Habs. apply Habs. reflexivity.
Qed.

End Methods.

(** With Tesseract available and reading "7", the default request on the
    stand-in network returns a result that is not the template matcher's. *)
Lemma template_never_outvotes_traditional_witness :
  tesseract_available example_ocr = true
  /\ has_digit (traditional_ocr_predict unit example_image_to_string example_ocr tt)
     = true
  /\ (6 # 10 <= get_confidence
                  (chosen (predict_digit unit example_preprocess example_forward
                                         example_image_to_string example_ocr tt None)))%Q.
Proof.
  assert (H1 : tesseract_available example_ocr = true) by reflexivity.
  assert (H2 : has_digit (traditional_ocr_predict unit example_image_to_string
                                                  example_ocr tt) = true)
    by (vm_compute; reflexivity).
  split; [exact H1 | split; [exact H2 |]].
  exact (proj1 (template_never_outvotes_traditional unit example_preprocess
                  example_forward example_image_to_string example_ocr tt H1 H2)).
Defined.

Section Fallback.

Variable Image : Type.
Variable preprocess_seven_segment_image : Image -> Exc (array2 Z).
Variable cnn_forward : Image -> Exc ModelOutput.
Variable image_to_string : Image -> Exc string.
Variable threshold : Q.

Local Abbreviation template := (template_matching_predict Image preprocess_seven_segment_image).
Local Abbreviation predict :=
  (predict_digit Image preprocess_seven_segment_image cnn_forward image_to_string
                 (fallback_ocr threshold)).
Local Abbreviation humidity_reading :=
  (process_humidity_reading Image preprocess_seven_segment_image cnn_forward
                            image_to_string (fallback_ocr threshold)).

Lemma fallback_chosen (image : Image) :
  chosen (predict image None)
  = if has_digit (template image) then template image
    else error_dict None "All methods failed".
Proof.
  unfold predict_digit, default_methods. simpl.
  destruct (has_digit (template image)); reflexivity.
Qed.

(** X5.  Without a network and without Tesseract, whatever the threshold:
    [get_status] names the template matcher as the preferred method,
    [predict_digit] returns the template matcher's result or the error
    "All methods failed", and no humidity reading is ever marked
    confident or has a confidence above one half. *)
Theorem fallback_mode_is_never_confident (image : Image) :
  preferred_method (get_status (fallback_ocr threshold)) = "Template"%string
  /\ (chosen (predict image None) = template image
      \/ chosen (predict image None) = error_dict None "All methods failed")
  /\ reading_is_confident (humidity_reading image) <> Some true
  /\ (reading_confidence (humidity_reading image) <= 1 # 2)%Q.
Proof.
  split; [reflexivity |].
  pose proof (fallback_chosen image) as Hc.
  pose proof (template_answer_all Image preprocess_seven_segment_image image) as Ht.
  pose proof (ArbitrationFacts.template_digit_range Image
                preprocess_seven_segment_image image) as Hrange.
  pose proof (template_confidence_le_half Image preprocess_seven_segment_image image)
    as Hle.
  unfold process_humidity_reading. rewrite Hc.
  unfold has_digit in *. unfold template_answer in Ht.
  destruct (digit (template image)) as [d |] eqn:Hd.
  - split; [left; reflexivity |].
    rewrite Hd. specialize (Hrange d eq_refl).
    replace (Z.leb 0 d && Z.leb d 100) with true
      by (symmetry; apply andb_true_iff; split; apply Z.leb_le; lia).
    cbn [reading_is_confident reading_confidence].
    split; [| exact Hle].
    destruct (confidence (template image)); try discriminate Ht.
    destruct (is_confident (template image)) as [[|] |]; try discriminate Ht.
    discriminate.
  - split; [right; reflexivity |].
    cbn [digit error_dict reading_is_confident reading_confidence].
    split; [discriminate |]. vm_compute. discriminate.
Qed.

End Fallback.

(** *** The class the network path reports *)

Lemma argmax_from_first_max (l : list Q) (i best_i : Z) (best : Q) :
  0 <= i ->
  let ri := fst (argmax_from l i best_i best) in
  let rb := snd (argmax_from l i best_i best) in
  (forall x, In x l -> (x <= rb)%Q)
  /\ (best <= rb)%Q
  /\ ((ri = best_i /\ rb = best)
      \/ (i <= ri < i + Z.of_nat (List.length l)
          /\ nth (Z.to_nat (ri - i)) l 0%Q = rb
          /\ (best < rb)%Q
          /\ forall j, (j < Z.to_nat (ri - i))%nat -> (nth j l 0 < rb)%Q)).
Proof.
  revert i best_i best. induction l as [| x rest IH]; intros i best_i best Hi.
  - simpl. split; [intros x [] |]. split; [apply Qle_refl | left; split; reflexivity].
  - cbn [argmax_from]. destruct (Qlt_bool best x) eqn:E.
    + apply Qlt_bool_iff in E.
      destruct (IH (i + 1) i x ltac:(lia)) as [Hall [Hge Hcase]].
      cbv zeta in *.
      set (ri := fst (argmax_from rest (i + 1) i x)) in *.
      set (rb := snd (argmax_from rest (i + 1) i x)) in *.
      split; [intros y [<- | Hy]; [exact Hge | exact (Hall y Hy)] |].
      split; [apply Qlt_le_weak; exact (Qlt_le_trans _ _ _ E Hge) |].
      right. cbn [List.length].
      destruct Hcase as [[Hri Hrb] | [Hri [Hnth [Hlt Hbefore]]]].
      * rewrite Hri, Hrb. replace (i - i) with 0 by lia.
        split; [lia |]. split; [reflexivity |]. split; [exact E |].
        intros j Hj. simpl in Hj. lia.
      * split; [lia |].
        replace (Z.to_nat (ri - i)) with (S (Z.to_nat (ri - (i + 1)))) by lia.
        split; [exact Hnth |]. split; [exact (Qlt_trans _ _ _ E Hlt) |].
        intros [| j] Hj; [exact Hlt |]. apply Hbefore. lia.
    + apply Qlt_bool_false_iff in E.
      destruct (IH (i + 1) best_i best ltac:(lia)) as [Hall [Hge Hcase]].
      cbv zeta in *.
      set (ri := fst (argmax_from rest (i + 1) best_i best)) in *.
      set (rb := snd (argmax_from rest (i + 1) best_i best)) in *.
      split; [intros y [<- | Hy]; [exact (Qle_trans _ _ _ E Hge) | exact (Hall y Hy)] |].
      split; [exact Hge |].
      destruct Hcase as [[Hri Hrb] | [Hri [Hnth [Hlt Hbefore]]]]; [left; auto |].
      right. cbn [List.length]. split; [lia |].
      replace (Z.to_nat (ri - i)) with (S (Z.to_nat (ri - (i + 1)))) by lia.
      split; [exact Hnth |]. split; [exact Hlt |].
      intros [| j] Hj; [exact (Qle_lt_trans _ _ _ E Hlt) |]. apply Hbefore. lia.
Qed.

(** [np.argmax] and [np.max] of a non-empty array: the index is the
    first one that holds the maximum. *)
Lemma np_argmax_first_max (first : Q) (others : list Q) :
  exists d m,
    np_argmax (first :: others) = Ok d
    /\ np_max (first :: others) = Ok m
    /\ 0 <= d < Z.of_nat (List.length (first :: others))
    /\ nth (Z.to_nat d) (first :: others) 0%Q = m
    /\ (forall x, In x (first :: others) -> (x <= m)%Q)
    /\ (forall j, (j < Z.to_nat d)%nat -> (nth j (first :: others) 0 < m)%Q).
Proof.
  destruct (argmax_from_first_max others 1 0 first ltac:(lia)) as [Hall [Hge Hcase]].
  cbv zeta in *.
  exists (fst (argmax_from others 1 0 first)), (snd (argmax_from others 1 0 first)).
  set (ri := fst (argmax_from others 1 0 first)) in *.
  set (rb := snd (argmax_from others 1 0 first)) in *.
  split; [reflexivity |]. split; [reflexivity |].
  cbn [List.length].
  destruct Hcase as [[Hri Hrb] | [Hri [Hnth [Hlt Hbefore]]]].
  - rewrite Hri, Hrb. split; [lia |]. split; [reflexivity |].
    split; [intros x [<- | Hx]; [apply Qle_refl | rewrite <- Hrb; exact (Hall x Hx)] |].
    intros j Hj. simpl in Hj. lia.
  - split; [lia |].
    replace (Z.to_nat ri) with (S (Z.to_nat (ri - 1))) by lia.
    split; [exact Hnth |].
    split; [intros x [<- | Hx]; [exact Hge | exact (Hall x Hx)] |].
    intros [| j] Hj; [exact Hlt |]. apply Hbefore. lia.
Qed.

Section Network.

Variable Image : Type.
Variable cnn_forward : Image -> Exc ModelOutput.
Variable self : ProductionOCR.

Local Abbreviation cnn := (cnn_predict_digit Image cnn_forward self).

(** X6.  With the model loaded and a forward pass that returns, the network
    path reports the first class of highest probability of the digit head:
    no class has a higher probability and every earlier class has a
    strictly lower one.  For a single head the confidence is that
    probability; for the two heads it is 0.7 times that probability plus
    0.3 times the mean of |p - 0.5| + 0.5 over the segment head.  An empty
    digit head yields an error dictionary without a digit. *)
Theorem cnn_reports_first_most_probable_class (image : Image) (out : ModelOutput) :
  cnn_available self = true ->
  cnn_forward image = Ok out ->
  match digit_head out with
  | [] => digit (cnn image) = None /\ exists msg, error (cnn image) = Some msg
  | _ :: _ =>
      exists d,
        digit (cnn image) = Some d
        /\ 0 <= d < Z.of_nat (List.length (digit_head out))
        /\ (forall x, In x (digit_head out) ->
                      (x <= nth (Z.to_nat d) (digit_head out) 0)%Q)
        /\ (forall j, (j < Z.to_nat d)%nat ->
                      (nth j (digit_head out) 0 < nth (Z.to_nat d) (digit_head out) 0)%Q)
        /\ confidence (cnn image)
           = Some (match out with
                   | SingleHead _ => nth (Z.to_nat d) (digit_head out) 0%Q
                   | DualHead _ segment_probs =>
                       (7 # 10) * nth (Z.to_nat d) (digit_head out) 0
                       + (3 # 10)
                         * np_mean (map (fun p => Qabs (p - (1 # 2)) + (1 # 2))
                                        segment_probs)
                   end)%Q
  end.
Proof.
  intros Ha Hf. unfold cnn_predict_digit. rewrite Ha, Hf. cbn [negb].
  destruct out as [digit_probs segment_probs | probabilities]; cbn [digit_head].
  - destruct digit_probs as [| first others].
    + cbn [np_argmax]. split; [reflexivity | eexists; reflexivity].
    + destruct (np_argmax_first_max first others)
        as [d [m [Hd [Hm [Hrange [Hnth [Hall Hbefore]]]]]]].
      rewrite Hd, Hm. exists d. rewrite Hnth.
      split; [reflexivity |]. split; [exact Hrange |].
      split; [exact Hall |]. split; [exact Hbefore | reflexivity].
  - destruct probabilities as [| first others].
    + cbn [np_argmax]. split; [reflexivity | eexists; reflexivity].
    + destruct (np_argmax_first_max first others)
        as [d [m [Hd [Hm [Hrange [Hnth [Hall Hbefore]]]]]]].
      rewrite Hd, Hm. exists d. rewrite Hnth.
      split; [reflexivity |]. split; [exact Hrange |].
      split; [exact Hall |]. split; [exact Hbefore | reflexivity].
Qed.

End Network.

(** The stand-in network gives class 3 the probability 0.6 and every
    other class less: the network path reports 3. *)
Lemma cnn_reports_first_most_probable_class_witness :
  cnn_available example_ocr = true
  /\ example_forward tt
     = Ok (SingleHead [1 # 10; 1 # 10; 1 # 10; 6 # 10; 1 # 10; 0; 0; 0; 0; 0]%Q)
  /\ exists d,
       digit (cnn_predict_digit unit example_forward example_ocr tt) = Some d
       /\ 0 <= d < 10.
Proof.
  split; [reflexivity |]. split; [reflexivity |].
  destruct (cnn_reports_first_most_probable_class unit example_forward example_ocr tt
              _ eq_refl eq_refl) as [d [Hd [Hrange _]]].
  exists d. split; [exact Hd | exact Hrange].
Defined.

(** *** Temperature readings and the automatic branch *)

Section Readings.

Variable Image : Type.
Variable preprocess_seven_segment_image : Image -> Exc (array2 Z).
Variable cnn_forward : Image -> Exc ModelOutput.
Variable image_to_string : Image -> Exc string.
Variable self : ProductionOCR.

Local Abbreviation predict :=
  (predict_digit Image preprocess_seven_segment_image cnn_forward image_to_string self).
Local Abbreviation temperature_reading :=
  (process_temperature_reading Image preprocess_seven_segment_image cnn_forward
                               image_to_string self).

(** The digit head of the network has the ten classes 0..9. *)
Hypothesis model_output_shape :
  forall image out, cnn_forward image = Ok out ->
                    List.length (digit_head out) = 10%nat.

Lemma chosen_digit_range (image : Image) (d : Z) :
  digit (chosen (predict image None)) = Some d -> 0 <= d <= 9.
Proof.
  change (predict image None) with (predict image (Some default_methods)).
  intros Hd.
  pose proof (chosen_with_digit Image preprocess_seven_segment_image cnn_forward
                image_to_string self image default_methods d Hd) as Hin.
  exact (ArbitrationFacts.collected_digit_range Image preprocess_seven_segment_image
           cnn_forward image_to_string self model_output_shape image default_methods
           _ d Hin Hd).
Qed.

Lemma chosen_error (image : Image) :
  digit (chosen (predict image None)) = None ->
  error (chosen (predict image None)) = Some "All methods failed"%string.
Proof.
  change (predict image None) with (predict image (Some default_methods)).
  intros Hd.
  destruct (chosen_without_digit Image preprocess_seven_segment_image cnn_forward
              image_to_string self image default_methods Hd) as [_ ->].
  reflexivity.
Qed.

(** X7.  A temperature reading is valid exactly when [predict_digit] found a
    digit, and then the temperature is that digit, between 0 and 9: no
    negative temperature and none above 9 is ever reported, and the
    out-of-range branch is not reached.  A reading that failed carries no
    temperature, confidence 0 and the error "All methods failed"; the
    errors of the single methods are not reported. *)
Theorem temperature_reading_is_a_digit (image : Image) :
  match digit (chosen (predict image None)) with
  | Some d =>
      temperature (temperature_reading image) = Some d
      /\ 0 <= d <= 9
      /\ temperature_valid (temperature_reading image) = true
      /\ temperature_error (temperature_reading image) = None
      /\ temperature_confidence (temperature_reading image)
         = get_confidence (chosen (predict image None))
  | None =>
      temperature (temperature_reading image) = None
      /\ temperature_valid (temperature_reading image) = false
      /\ temperature_confidence (temperature_reading image) = 0%Q
      /\ temperature_error (temperature_reading image)
         = Some "All methods failed"%string
  end.
Proof.
  pose proof (chosen_digit_range image) as Hrange.
  pose proof (chosen_error image) as Herr.
  unfold process_temperature_reading.
  destruct (digit (chosen (predict image None))) as [d |].
  - specialize (Hrange d eq_refl).
    replace (Z.leb (-40) d && Z.leb d 80) with true
      by (symmetry; apply andb_true_iff; split; apply Z.leb_le; lia).
    cbn. repeat split; lia.
  - rewrite (Herr eq_refl). cbn. repeat split.
Qed.

Variable manager_self : HumidityAppOCRManager.
Hypothesis manager_ocr : ocr manager_self = self.

Local Abbreviation display_reading :=
  (process_display_reading Image preprocess_seven_segment_image cnn_forward
                           image_to_string manager_self).

(** X8.  For a reading type other than "humidity" and "temperature" the
    manager takes the automatic branch.  A value found is the digit
    [predict_digit] chose, between 0 and 9, the reading is valid and the
    suggested type is always "humidity": "either" is never suggested and
    the out-of-range branch is not reached.  Without a digit the reading
    has no value, no suggested type and the error "All methods failed". *)
Theorem auto_reading_always_suggests_humidity (image : Image) (reading_type : string) :
  reading_type <> "humidity"%string ->
  reading_type <> "temperature"%string ->
  exists r,
    process_display_reading Image preprocess_seven_segment_image cnn_forward
                            image_to_string manager_self image reading_type
    = AutoResult r
    /\ match digit (chosen (predict image None)) with
       | Some d =>
           value r = Some d /\ 0 <= d <= 9
           /\ suggested_type r = Some "humidity"%string
           /\ value_valid r = true /\ value_error r = None
       | None =>
           value r = None /\ suggested_type r = None
           /\ value_valid r = false
           /\ value_error r = Some "All methods failed"%string
       end.
Proof.
  intros Hh Ht.
  pose proof (chosen_digit_range image) as Hrange.
  pose proof (chosen_error image) as Herr.
  unfold process_display_reading.
  apply String.eqb_neq in Hh, Ht. rewrite Hh, Ht, manager_ocr.
  destruct (digit (chosen (predict image None))) as [d |].
  - specialize (Hrange d eq_refl).
    replace (Z.leb 0 d && Z.leb d 100) with true
      by (symmetry; apply andb_true_iff; split; apply Z.leb_le; lia).
    replace (Z.leb d 50) with true by (symmetry; apply Z.leb_le; lia).
    eexists. split; [reflexivity |]. cbn. repeat split; lia.
  - rewrite (Herr eq_refl). eexists. split; [reflexivity |]. cbn. repeat split.
Qed.

End Readings.

Lemma example_model_output_shape :
  forall (image : unit) (out : ModelOutput),
    example_forward image = Ok out -> List.length (digit_head out) = 10%nat.
Proof. intros image out H. injection H as <-. reflexivity. Qed.

(** On the stand-in network, which has ten classes and reads 3, the
    temperature reading is 3 and valid. *)
Lemma temperature_reading_is_a_digit_witness :
  (forall (image : unit) (out : ModelOutput),
      example_forward image = Ok out -> List.length (digit_head out) = 10%nat)
  /\ temperature (process_temperature_reading unit example_preprocess example_forward
                                              example_image_to_string example_ocr tt)
     = Some 3
  /\ temperature_valid
       (process_temperature_reading unit example_preprocess example_forward
                                    example_image_to_string example_ocr tt)
     = true.
Proof.
  split; [exact example_model_output_shape |].
  assert (Hd : digit (chosen (predict_digit unit example_preprocess example_forward
                                            example_image_to_string example_ocr tt None))
               = Some 3) by (vm_compute; reflexivity).
  pose proof (temperature_reading_is_a_digit unit example_preprocess example_forward
                example_image_to_string example_ocr example_model_output_shape tt) as H.
  rewrite Hd in H. destruct H as [H1 [_ [H3 _]]]. split; assumption.
Defined.

(** The reading type "auto" on the stand-in network: the value 3 is
    suggested to be a humidity. *)
Lemma auto_reading_always_suggests_humidity_witness :
  (forall (image : unit) (out : ModelOutput),
      example_forward image = Ok out -> List.length (digit_head out) = 10%nat)
  /\ ocr example_manager = example_ocr
  /\ "auto"%string <> "humidity"%string
  /\ "auto"%string <> "temperature"%string
  /\ exists r,
       process_display_reading unit example_preprocess example_forward
                               example_image_to_string example_manager tt "auto"
       = AutoResult r
       /\ value r = Some 3
       /\ suggested_type r = Some "humidity"%string.
Proof.
  assert (Hh : "auto"%string <> "humidity"%string) by discriminate.
  assert (Ht : "auto"%string <> "temperature"%string) by discriminate.
  split; [exact example_model_output_shape |].
  split; [reflexivity |]. split; [exact Hh |]. split; [exact Ht |].
  assert (Hd : digit (chosen (predict_digit unit example_preprocess example_forward
                                            example_image_to_string example_ocr tt None))
               = Some 3) by (vm_compute; reflexivity).
  destruct (auto_reading_always_suggests_humidity unit example_preprocess
              example_forward example_image_to_string example_ocr
              example_model_output_shape example_manager eq_refl tt "auto" Hh Ht)
    as [r [Hr H]].
  rewrite Hd in H. destruct H as [H1 [_ [H3 _]]].
  exists r. split; [exact Hr | split; assumption].
Defined.

(** *** Images without a white pixel, images that are white everywhere *)

Lemma fold_count_none {T : Type} (f : T -> Z) (l : list T) (n : Z) :
  (forall x, f x <> 255) ->
  fold_left (fun k x => if Z.eqb (f x) 255 then k + 1 else k) l n = n.
Proof.
  intros Hf. revert n. induction l as [| x rest IH]; intros n; simpl; [reflexivity |].
  destruct (Z.eqb_spec (f x) 255) as [E | _]; [destruct (Hf x E) | apply IH].
Qed.

Lemma fold_count_all {T : Type} (f : T -> Z) (l : list T) (n : Z) :
  (forall x, f x = 255) ->
  fold_left (fun k x => if Z.eqb (f x) 255 then k + 1 else k) l n
  = n + Z.of_nat (List.length l).
Proof.
  intros Hf. revert n. induction l as [| x rest IH]; intros n.
  - simpl. lia.
  - cbn [fold_left List.length]. rewrite Hf, Z.eqb_refl, IH. lia.
Qed.

Lemma fold_rows {T : Type} (step : Z -> T -> Z) (d : Z) (l : list T) (n : Z) :
  (forall k y, step k y = k + d) ->
  fold_left step l n = n + d * Z.of_nat (List.length l).
Proof.
  intros Hstep. revert n. induction l as [| y rest IH]; intros n.
  - simpl. lia.
  - cbn [fold_left List.length]. rewrite Hstep, IH. lia.
Qed.

Lemma range_length (lo hi : Z) :
  Z.of_nat (List.length (range lo hi)) = Z.max 0 (hi - lo).
Proof. unfold range. rewrite length_map, length_seq. lia. Qed.

Lemma count_white_black (processed : array2 Z) (rows cols : Z * Z) :
  (forall y x, at2 processed y x <> 255) -> count_white processed rows cols = 0.
Proof.
  intros Hb. unfold count_white.
  rewrite (fold_rows _ 0); [lia |].
  intros k y. rewrite (fold_count_none (fun x => at2 processed y x)); [lia |].
  intros x. apply Hb.
Qed.

Lemma count_white_white (processed : array2 Z) (rows cols : Z * Z) :
  (forall y x, at2 processed y x = 255) ->
  count_white processed rows cols = slice_size rows cols.
Proof.
  intros Hw. unfold count_white, slice_size.
  rewrite (fold_rows _ (Z.max 0 (snd cols - fst cols))).
  - rewrite range_length. lia.
  - intros k y. rewrite (fold_count_all (fun x => at2 processed y x)).
    + rewrite range_length. reflexivity.
    + intros x. apply Hw.
Qed.

Lemma segment_on_black (processed : array2 Z) (rows cols : Z * Z) :
  (forall y x, at2 processed y x <> 255) -> segment_on processed rows cols = false.
Proof.
  intros Hb. unfold segment_on. rewrite (count_white_black processed rows cols Hb).
  destruct (Z.eqb (slice_size rows cols) 0); [reflexivity |].
  apply Qlt_bool_false_iff. unfold Qle, Qdiv, Qmult. simpl. lia.
Qed.

Lemma segment_on_white (processed : array2 Z) (rows cols : Z * Z) :
  (forall y x, at2 processed y x = 255) ->
  fst rows < snd rows -> fst cols < snd cols ->
  segment_on processed rows cols = true.
Proof.
  intros Hw Hr Hc. unfold segment_on.
  rewrite (count_white_white processed rows cols Hw).
  assert (Hs : 0 < slice_size rows cols) by (unfold slice_size; nia).
  destruct (slice_size rows cols) as [| p | p]; try lia.
  cbn [Z.eqb]. apply Qlt_bool_iff. unfold Qlt, Qdiv, Qmult, Qinv. simpl. lia.
Qed.

Section EdgeImages.

Variable Image : Type.
Variable preprocess_seven_segment_image : Image -> Exc (array2 Z).

(** X9.  A binary image without a single white pixel is never read as a
    digit by the template matcher: every segment is off, no pattern
    scores above 0 and the result is the error "No pattern match
    found". *)
Theorem blank_image_matches_no_pattern (image : Image) (processed : array2 Z) :
  preprocess_seven_segment_image image = Ok processed ->
  (forall y x, at2 processed y x <> 255) ->
  template_matching_predict Image preprocess_seven_segment_image image
  = error_dict (Some "Template_Matching"%string) "No pattern match found".
Proof.
  intros Hp Hb. unfold template_matching_predict. rewrite Hp.
  rewrite match_patterns_of_image. unfold vector_of_image.
  rewrite !(segment_on_black processed _ _ Hb). reflexivity.
Qed.

(** X10.  A binary image that is white everywhere, at least 4 by 4, is read
    as the digit 8 with confidence one half: every region is white, all
    seven segments are on. *)
Theorem white_image_reads_8 (image : Image) (processed : array2 Z) :
  preprocess_seven_segment_image image = Ok processed ->
  (forall y x, at2 processed y x = 255) ->
  4 <= shape0 processed -> 4 <= shape1 processed ->
  digit (template_matching_predict Image preprocess_seven_segment_image image) = Some 8
  /\ confidence (template_matching_predict Image preprocess_seven_segment_image image)
     = Some (1 # 2)%Q.
Proof.
  intros Hp Hw Hh Hwd. unfold template_matching_predict. rewrite Hp.
  rewrite match_patterns_of_image. unfold vector_of_image. cbv zeta.
  rewrite !(segment_on_white processed _ _ Hw);
    try (cbn [fst snd]; Z.div_mod_to_equations; lia).
  split; reflexivity.
Qed.

End EdgeImages.

Lemma blank_image_matches_no_pattern_witness :
  black_preprocess tt = Ok (mkArray2 4 4 (fun _ _ => 0))
  /\ (forall y x : Z, at2 (mkArray2 4 4 (fun _ _ : Z => 0)) y x <> 255)
  /\ template_matching_predict unit black_preprocess tt
     = error_dict (Some "Template_Matching"%string) "No pattern match found".
Proof.
  assert (Hb : forall y x : Z, at2 (mkArray2 4 4 (fun _ _ : Z => 0)) y x <> 255)
    by (intros y x; simpl; discriminate).
  split; [reflexivity |]. split; [exact Hb |].
  exact (blank_image_matches_no_pattern unit black_preprocess tt _ eq_refl Hb).
Defined.

Lemma white_image_reads_8_witness :
  example_preprocess tt = Ok (mkArray2 4 4 (fun _ _ => 255))
  /\ (forall y x : Z, at2 (mkArray2 4 4 (fun _ _ : Z => 255)) y x = 255)
  /\ 4 <= shape0 (mkArray2 4 4 (fun _ _ : Z => 255))
  /\ 4 <= shape1 (mkArray2 4 4 (fun _ _ : Z => 255))
  /\ digit (template_matching_predict unit example_preprocess tt) = Some 8.
Proof.
  assert (Hw : forall y x : Z, at2 (mkArray2 4 4 (fun _ _ : Z => 255)) y x = 255)
    by (intros y x; reflexivity).
  assert (Hh : 4 <= shape0 (mkArray2 4 4 (fun _ _ : Z => 255))) by (simpl; lia).
  assert (Hs : 4 <= shape1 (mkArray2 4 4 (fun _ _ : Z => 255))) by (simpl; lia).
  split; [reflexivity |]. split; [exact Hw |]. split; [exact Hh |].
  split; [exact Hs |].
  exact (proj1 (white_image_reads_8 unit example_preprocess tt _ eq_refl Hw Hh Hs)).
Defined.

(** *** The confidence of the two-headed network *)

Lemma inject_Z_succ (n : nat) :
  (inject_Z (Z.of_nat (S n)) == inject_Z (Z.of_nat n) + 1)%Q.
Proof. rewrite Nat2Z.inj_succ. unfold Z.succ. rewrite inject_Z_plus. reflexivity. Qed.

Lemma fold_sum_bounds (lo hi : Q) (l : list Q) (acc : Q) :
  (forall x, In x l -> (lo <= x <= hi)%Q) ->
  (acc + lo * inject_Z (Z.of_nat (List.length l)) <= fold_left Qplus l acc
   <= acc + hi * inject_Z (Z.of_nat (List.length l)))%Q.
Proof.
  revert acc. induction l as [| x rest IH]; intros acc Hl.
  - cbn [fold_left].
    change (inject_Z (Z.of_nat (List.length (@nil Q)))) with 0%Q. split; lra.
  - cbn [fold_left List.length].
    destruct (Hl x (or_introl eq_refl)) as [Hlo Hhi].
    destruct (IH (acc + x)%Q (fun y Hy => Hl y (or_intror Hy))) as [IHlo IHhi].
    rewrite inject_Z_succ.
    set (n := inject_Z (Z.of_nat (List.length rest))) in *. clearbody n.
    set (total := fold_left Qplus rest (acc + x)%Q) in *. clearbody total.
    split; lra.
Qed.

Lemma np_mean_bounds (lo hi : Q) (first : Q) (others : list Q) :
  (forall x, In x (first :: others) -> (lo <= x <= hi)%Q) ->
  (lo <= np_mean (first :: others) <= hi)%Q.
Proof.
  intros Hl. unfold np_mean.
  destruct (fold_sum_bounds lo hi (first :: others) 0 Hl) as [Hlo Hhi].
  set (total := fold_left Qplus (first :: others) 0%Q) in *. clearbody total.
  assert (Hn : (0 < inject_Z (Z.of_nat (List.length (first :: others))))%Q).
  { change 0%Q with (inject_Z 0). rewrite <- Zlt_Qlt. cbn [List.length]. lia. }
  set (n := inject_Z (Z.of_nat (List.length (first :: others)))) in *. clearbody n.
  split.
  - apply Qle_shift_div_l; [exact Hn | lra].
  - apply Qle_shift_div_r; [exact Hn | lra].
Qed.

Lemma segment_term_bounds (p : Q) :
  (0 <= p <= 1)%Q -> (1 # 2 <= Qabs (p - (1 # 2)) + (1 # 2) <= 1)%Q.
Proof.
  intros Hp. split.
  - pose proof (Qabs_nonneg (p - (1 # 2))). lra.
  - assert (H : (Qabs (p - (1 # 2)) <= 1 # 2)%Q)
      by (apply Qabs_Qle_condition; split; lra).
    lra.
Qed.

Section TwoHeads.

Variable Image : Type.
Variable cnn_forward : Image -> Exc ModelOutput.
Variable self : ProductionOCR.

(** X11.  For a network with two heads whose segment outputs lie in [0, 1], the
    confidence reported is 0.7 times the probability of the reported
    class plus a segment term between 0.15 and 0.3: the segment head can
    move the confidence by 0.15 at most, and a confidence of 0.15 is
    reached whatever the digit head says. *)
Theorem two_head_confidence_bounds
        (image : Image) (first : Q) (others : list Q)
        (first_segment : Q) (other_segments : list Q) :
  cnn_available self = true ->
  cnn_forward image = Ok (DualHead (first :: others) (first_segment :: other_segments)) ->
  (forall p, In p (first_segment :: other_segments) -> (0 <= p <= 1)%Q) ->
  exists d c,
    digit (cnn_predict_digit Image cnn_forward self image) = Some d
    /\ confidence (cnn_predict_digit Image cnn_forward self image) = Some c
    /\ ((7 # 10) * nth (Z.to_nat d) (first :: others) 0 + (15 # 100) <= c
        <= (7 # 10) * nth (Z.to_nat d) (first :: others) 0 + (3 # 10))%Q.
Proof.
  intros Ha Hf Hseg. unfold cnn_predict_digit. rewrite Ha, Hf. cbn [negb].
  destruct (np_argmax_first_max first others)
    as [d [m [Hd [Hm [_ [Hnth _]]]]]].
  rewrite Hd, Hm.
  assert (Hmean : (1 # 2
                   <= np_mean (map (fun p => Qabs (p - (1 # 2)) + (1 # 2))%Q
                                   (first_segment :: other_segments))
                   <= 1)%Q).
  { cbn [map]. apply np_mean_bounds. intros x Hx.
    change (In x (map (fun p => Qabs (p - (1 # 2)) + (1 # 2))%Q
                      (first_segment :: other_segments))) in Hx.
    apply in_map_iff in Hx. destruct Hx as [p [<- Hp]].
    apply segment_term_bounds. exact (Hseg p Hp). }
  set (mean := np_mean (map (fun p => Qabs (p - (1 # 2)) + (1 # 2))%Q
                            (first_segment :: other_segments))) in *.
  clearbody mean.
  exists d, ((7 # 10) * m + (3 # 10) * mean)%Q. rewrite Hnth.
  split; [reflexivity |]. split; [reflexivity |]. split; lra.
Qed.

End TwoHeads.

Lemma two_head_confidence_bounds_witness :
  cnn_available example_ocr = true
  /\ (forall p, In p [9 # 10; 8 # 10; 1; 1 # 2; 0; 1 # 10; 1]%Q -> (0 <= p <= 1)%Q)
  /\ exists d c,
       digit (cnn_predict_digit unit example_dual_forward example_ocr tt) = Some d
       /\ confidence (cnn_predict_digit unit example_dual_forward example_ocr tt)
          = Some c.
Proof.
  assert (Hseg : forall p, In p [9 # 10; 8 # 10; 1; 1 # 2; 0; 1 # 10; 1]%Q ->
                           (0 <= p <= 1)%Q).
  { intros p Hp. simpl in Hp.
    repeat destruct Hp as [<- | Hp]; try (split; vm_compute; discriminate).
    destruct Hp. }
  split; [reflexivity |]. split; [exact Hseg |].
  destruct (two_head_confidence_bounds unit example_dual_forward example_ocr tt
              _ _ _ _ eq_refl eq_refl Hseg) as [d [c [Hd [Hc _]]]].
  exists d, c. split; [exact Hd | exact Hc].
Defined.

End RecognitionFacts.

(** ** The clean renderer *)

Module GeneratorFacts.

Import GlobalRandom SevenSegmentGenerator GeneratorStatements.
Local Open Scope rand_scope.

Lemma digit_segments_get_unknown (digit : string) :
  ~ In digit (map fst digit_segments) -> dict_get digit_segments digit [] = [].
Proof.
  intros H. unfold digit_segments in *. simpl in *.
  repeat match goal with
         | |- context [String.eqb digit ?k] =>
             destruct (String.eqb_spec digit k) as [-> | ?];
             [exfalso; apply H; tauto |]
         end.
  reflexivity.
Qed.

(** C5, refuted.  Asked for the digit "x" on the default 200 by 300
    canvas, the renderer raises nothing: it returns the canvas filled with
    the background value 220.  (No polygon is filled on this path, so the
    rasteriser plays no part.) *)
Lemma unknown_digit_is_not_refused :
  create_clean_digit no_polygon (mkGenerator 200 300) "x"
  = Ok (np_full 300 200 220).
Proof. reflexivity. Qed.

(** C5, amended.  For a digit that is not one of the keys "0".."9" the
    renderer does not fail with an invalid-digit error: on a canvas of
    valid size it returns the blank background image, every channel 220,
    with no segment drawn (a negative size is refused by numpy, whatever
    the digit). *)
Theorem unknown_digit_renders_blank
        (fillPoly_covers : list (Z * Z) -> Z -> Z -> bool)
        (self : SevenSegmentGenerator) (digit : string) :
  ~ In digit (map fst digit_segments) ->
  create_clean_digit fillPoly_covers self digit
  = if (self_height self <? 0) || (self_width self <? 0)
    then Raise "negative dimensions are not allowed"
    else Ok (np_full (self_height self) (self_width self) 220).
Proof.
  intros H. unfold create_clean_digit.
  rewrite (digit_segments_get_unknown digit H). reflexivity.
Qed.

Lemma unknown_digit_renders_blank_witness :
  ~ In "x"%string (map fst digit_segments)
  /\ create_clean_digit no_polygon (mkGenerator 200 300) "x"
     = Ok (np_full 300 200 220).
Proof.
  assert (H : ~ In "x"%string (map fst digit_segments)).
  { simpl. intros Hin. repeat destruct Hin as [Hin | Hin]; try discriminate Hin.
    exact Hin. }
  split; [exact H |].
  exact (unknown_digit_renders_blank no_polygon (mkGenerator 200 300) "x" H).
Defined.


(** ** Contrast compression *)

Lemma random_fraction_range (k : Z) :
  (0 <= Qmake (k mod 9007199254740992) 9007199254740992 < 1)%Q.
Proof.
  pose proof (Z.mod_pos_bound k 9007199254740992 eq_refl) as H.
  unfold Qle, Qlt. simpl. lia.
Qed.


(** The mask is not taken from the compressed image: a pixel whose
    channels are 99 is dark in the original and receives the delta, though
    after compression its value is above 100 whatever factor is drawn. *)
Lemma dark_pixel_is_light_after_compression (contrast_factor : Q) :
  (3 # 10 <= contrast_factor <= 7 # 10)%Q ->
  (100 < compressed contrast_factor 99 * 255)%Q.
Proof.
  intros H. unfold compressed.
  setoid_replace (inject_Z 99 / 255)%Q with (99 # 255)%Q by reflexivity.
  lra.
Qed.


(** ** Reasoning about code that draws *)

Lemma returns_only_ret {T : Type} (x : T) (P : T -> Prop) :
  P x -> returns_only (ret x) P.
Proof. intros H g. exact H. Qed.

Lemma returns_only_bind {S T : Type} (c : M S) (k : S -> M T) (Q : T -> Prop) :
  (forall x, returns_only (k x) Q) -> returns_only (bind c k) Q.
Proof.
  intros Hk g. unfold bind. destruct (c g) as [[x g'] | msg]; [| exact I].
  apply Hk.
Qed.

Lemma returns_only_cut {S T : Type} (c : M S) (k : S -> M T)
      (P : S -> Prop) (Q : T -> Prop) :
  returns_only c P -> (forall x, P x -> returns_only (k x) Q) ->
  returns_only (bind c k) Q.
Proof.
  intros Hc Hk g. unfold bind. specialize (Hc g).
  destruct (c g) as [[x g'] | msg]; [| exact I].
  apply Hk. exact Hc.
Qed.

Lemma always_returns_ret {T : Type} (x : T) (P : T -> Prop) :
  P x -> always_returns (ret x) P.
Proof. intros H g. exists x, g. split; [reflexivity | exact H]. Qed.

Lemma always_returns_bind {S T : Type} (c : M S) (k : S -> M T)
      (P : S -> Prop) (Q : T -> Prop) :
  always_returns c P -> (forall x, P x -> always_returns (k x) Q) ->
  always_returns (bind c k) Q.
Proof.
  intros Hc Hk g. destruct (Hc g) as [x [g' [Hx HP]]].
  destruct (Hk x HP g') as [y [g'' [Hy HQ]]].
  exists y, g''. unfold bind. rewrite Hx. split; assumption.
Qed.

Lemma always_returns_next_raw : always_returns next_raw (fun _ => True).
Proof. intros g. do 2 eexists. split; [reflexivity | exact I]. Qed.

Lemma always_returns_randint (a b : Z) :
  a <= b -> always_returns (randint a b) (fun r => a <= r <= b).
Proof.
  intros H. unfold randint.
  destruct (b + 1 - a <=? 0) eqn:E; [apply Z.leb_le in E; lia |].
  apply Z.leb_gt in E.
  apply always_returns_bind with (P := fun r => 0 <= r < b + 1 - a).
  - unfold randbelow. apply always_returns_bind with (P := fun _ => True).
    + apply always_returns_next_raw.
    + intros k _. apply always_returns_ret. apply Z.mod_pos_bound. lia.
  - intros r Hr. apply always_returns_ret. lia.
Qed.

Lemma always_returns_uniform (a b : Q) :
  (a <= b)%Q -> always_returns (uniform a b) (fun v => a <= v <= b)%Q.
Proof.
  intros H. unfold uniform, random.
  apply always_returns_bind with (P := fun u => (0 <= u < 1)%Q).
  - apply always_returns_bind with (P := fun _ => True).
    + apply always_returns_next_raw.
    + intros k _. apply always_returns_ret. apply random_fraction_range.
  - intros u [Hu0 Hu1]. apply always_returns_ret.
    assert (H0 : (0 <= (b - a) * u)%Q).
    { apply Qmult_le_0_compat; [lra | exact Hu0]. }
    assert (H1 : ((b - a) * u <= (b - a) * 1)%Q).
    { destruct (Qlt_le_dec 0 (b - a)) as [Hpos | Hnonpos].
      - apply Qmult_le_l; [exact Hpos | lra].
      - assert (Hz : (b - a == 0)%Q) by lra. rewrite Hz. lra. }
    split; lra.
Qed.

Lemma always_returns_choice {T : Type} (first : T) (others : list T) :
  always_returns (choice (first :: others)) (fun x => In x (first :: others)).
Proof.
  unfold choice.
  apply always_returns_bind
    with (P := fun i => 0 <= i < Z.of_nat (List.length (first :: others))).
  - unfold randbelow. apply always_returns_bind with (P := fun _ => True).
    + apply always_returns_next_raw.
    + intros k _. apply always_returns_ret. apply Z.mod_pos_bound.
      simpl List.length. lia.
  - intros i Hi. apply always_returns_ret. apply nth_In. lia.
Qed.

Lemma always_returns_repeat {T : Type} (body : T -> M T) (Inv : T -> Prop) (n : nat) :
  (forall x, Inv x -> always_returns (body x) Inv) ->
  forall x, Inv x -> always_returns (repeat_M n body x) Inv.
Proof.
  intros Hbody. induction n as [| n IH]; intros x Hx; simpl.
  - apply always_returns_ret. exact Hx.
  - apply always_returns_bind with (P := Inv); [apply Hbody; exact Hx | exact IH].
Qed.

(** ** Pixels stay in range *)

Lemma astype_uint8_range (v : Q) : 0 <= astype_uint8 v <= 255.
Proof.
  unfold astype_uint8.
  pose proof (Z.mod_pos_bound (Z.quot (Qnum v) (Zpos (Qden v))) 256 eq_refl). lia.
Qed.

Lemma clip_to_uint8_valid (a : array3 Q) :
  valid_image (height a) (width a) (clip_to_uint8 a).
Proof.
  split; [| split; reflexivity].
  intros y x c. apply astype_uint8_range.
Qed.

Lemma draw_valid (covers : Z -> Z -> bool) (color : Z) (h w : Z) (img : array3 Z) :
  0 <= color <= 255 -> valid_image h w img ->
  valid_image h w (draw covers (color, color, color) img).
Proof.
  intros Hc [Hr [Hh Hw]]. split; [| split; assumption].
  intros y x c. simpl. destruct (covers y x); [| apply Hr].
  unfold channel. destruct (c =? 0); [exact Hc |]. destruct (c =? 1); exact Hc.
Qed.

(** What a stage returns after its final [np.clip(...).astype(np.uint8)]. *)
Ltac clipped :=
  apply always_returns_ret;
  split; [intros ? ? ?; apply astype_uint8_range | split; simpl; assumption].

Section Stages.

Variable circle_covers : Z * Z -> Z -> Z -> Z -> bool.
Variable ellipse_covers : Z * Z -> Z * Z -> Z -> Z -> Z -> Z -> Z -> bool.
Variable cv2_GaussianBlur : array2 Z -> Z * Z -> Q -> array2 Z.
Variable np_sqrt : Z -> Q.
Variables h w : Z.

Lemma reduce_contrast_valid (img : array3 Z) :
  height img = h -> width img = w ->
  always_returns (_reduce_contrast img) (valid_image h w).
Proof.
  intros Hh Hw. unfold _reduce_contrast.
  eapply always_returns_bind; [apply always_returns_uniform; lra |].
  intros contrast_factor _.
  eapply always_returns_bind; [apply always_returns_uniform; lra |].
  intros delta _. clipped.
Qed.

Lemma add_reflection_valid (img : array3 Z) :
  0 <= h -> 0 <= w -> valid_image h w img ->
  always_returns (add_reflection np_sqrt h w img) (valid_image h w).
Proof.
  intros Hh0 Hw0 [Hr [Hh Hw]]. unfold add_reflection.
  eapply always_returns_bind; [apply always_returns_randint; exact Hw0 |].
  intros center_x _.
  eapply always_returns_bind; [apply always_returns_randint; exact Hh0 |].
  intros center_y _.
  eapply always_returns_bind; [apply always_returns_randint; lia |].
  intros radius _.
  eapply always_returns_bind; [apply always_returns_uniform; lra |].
  intros intensity _. clipped.
Qed.

Lemma add_reflections_valid (img : array3 Z) :
  0 <= h -> 0 <= w -> valid_image h w img ->
  always_returns (_add_reflections np_sqrt img) (valid_image h w).
Proof.
  intros Hh0 Hw0 Hv. unfold _add_reflections.
  destruct Hv as [Hr [Hh Hw]]. rewrite Hh, Hw.
  eapply always_returns_bind; [apply always_returns_randint; lia |].
  intros n _. apply always_returns_repeat.
  - intros x Hx. apply add_reflection_valid; assumption.
  - split; [exact Hr | split; assumption].
Qed.

Lemma add_smudge_valid (img : array3 Z) :
  50 <= h -> 50 <= w -> valid_image h w img ->
  always_returns (add_smudge ellipse_covers cv2_GaussianBlur h w img) (valid_image h w).
Proof.
  intros Hh0 Hw0 [Hr [Hh Hw]]. unfold add_smudge.
  eapply always_returns_bind; [apply always_returns_randint; lia |].
  intros x _.
  eapply always_returns_bind; [apply always_returns_randint; lia |].
  intros y _.
  eapply always_returns_bind; [apply always_returns_randint; lia |].
  intros size_x _.
  eapply always_returns_bind; [apply always_returns_randint; lia |].
  intros size_y _.
  eapply always_returns_bind; [apply always_returns_randint; lia |].
  intros angle _.
  eapply always_returns_bind; [apply always_returns_uniform; lra |].
  intros smudge_intensity _. clipped.
Qed.

Lemma add_smudges_valid (img : array3 Z) :
  50 <= h -> 50 <= w -> valid_image h w img ->
  always_returns (_add_smudges ellipse_covers cv2_GaussianBlur img) (valid_image h w).
Proof.
  intros Hh0 Hw0 Hv. unfold _add_smudges.
  destruct Hv as [Hr [Hh Hw]]. rewrite Hh, Hw.
  eapply always_returns_bind; [apply always_returns_randint; lia |].
  intros n _. apply always_returns_repeat.
  - intros x Hx. apply add_smudge_valid; assumption.
  - split; [exact Hr | split; assumption].
Qed.

Lemma add_particle_valid (img : array3 Z) :
  1 <= h -> 1 <= w -> valid_image h w img ->
  always_returns (add_particle circle_covers h w img) (valid_image h w).
Proof.
  intros Hh0 Hw0 Hv. unfold add_particle.
  eapply always_returns_bind; [apply always_returns_randint; lia |].
  intros x _.
  eapply always_returns_bind; [apply always_returns_randint; lia |].
  intros y _.
  eapply always_returns_bind; [apply always_returns_randint; lia |].
  intros size _.
  eapply always_returns_bind; [apply always_returns_randint; lia |].
  intros color Hc. simpl in Hc.
  destruct (size =? 1); apply always_returns_ret; apply draw_valid;
    try assumption; lia.
Qed.

Lemma add_dust_valid (img : array3 Z) :
  1 <= h -> 1 <= w -> valid_image h w img ->
  always_returns (_add_dust circle_covers img) (valid_image h w).
Proof.
  intros Hh0 Hw0 Hv. unfold _add_dust.
  destruct Hv as [Hr [Hh Hw]]. rewrite Hh, Hw.
  eapply always_returns_bind; [apply always_returns_randint; lia |].
  intros n _. apply always_returns_repeat.
  - intros x Hx. apply add_particle_valid; assumption.
  - split; [exact Hr | split; assumption].
Qed.

Lemma always_returns_normal (loc scale : Q) (rows cols : Z) :
  (0 <= scale)%Q ->
  always_returns (np_random_normal loc scale rows cols) (fun _ => True).
Proof.
  intros Hs g. unfold np_random_normal.
  destruct (Qlt_bool scale 0) eqn:E.
  - apply Qlt_bool_iff in E. lra.
  - do 2 eexists. split; [reflexivity | exact I].
Qed.

Lemma add_noise_valid (img : array3 Z) :
  valid_image h w img -> always_returns (_add_noise img) (valid_image h w).
Proof.
  intros [Hr [Hh Hw]]. unfold _add_noise.
  eapply always_returns_bind; [apply always_returns_uniform; lra |].
  intros sigma Hs. simpl in Hs.
  eapply always_returns_bind; [apply always_returns_normal; lra |].
  intros noise _. clipped.
Qed.

Lemma vary_lighting_valid (img : array3 Z) :
  valid_image h w img -> always_returns (_vary_lighting np_sqrt img) (valid_image h w).
Proof.
  intros [Hr [Hh Hw]]. unfold _vary_lighting.
  eapply always_returns_bind; [apply always_returns_choice |].
  intros lighting_type _. clipped.
Qed.

Lemma add_realistic_effects_valid (img : array3 Z) :
  50 <= h -> 50 <= w -> height img = h -> width img = w ->
  always_returns
    (add_realistic_effects circle_covers ellipse_covers cv2_GaussianBlur np_sqrt img)
    (valid_image h w).
Proof.
  intros Hh0 Hw0 Hh Hw. unfold add_realistic_effects.
  eapply always_returns_bind; [apply reduce_contrast_valid; assumption |].
  intros r1 H1.
  eapply always_returns_bind; [apply add_reflections_valid; [lia | lia | exact H1] |].
  intros r2 H2.
  eapply always_returns_bind; [apply add_smudges_valid; assumption |].
  intros r3 H3.
  eapply always_returns_bind; [apply add_dust_valid; [lia | lia | exact H3] |].
  intros r4 H4.
  eapply always_returns_bind; [apply add_noise_valid; exact H4 |].
  intros r5 H5.
  eapply always_returns_bind; [apply vary_lighting_valid; exact H5 |].
  intros r6 H6. apply always_returns_ret. exact H6.
Qed.

Lemma vary_lighting_in_range (img : array3 Z) :
  returns_only (_vary_lighting np_sqrt img) in_range.
Proof.
  unfold _vary_lighting. apply returns_only_bind. intros lighting_type.
  apply returns_only_ret. intros y x c. apply astype_uint8_range.
Qed.

Lemma add_realistic_effects_in_range (img : array3 Z) :
  returns_only
    (add_realistic_effects circle_covers ellipse_covers cv2_GaussianBlur np_sqrt img)
    in_range.
Proof.
  unfold add_realistic_effects.
  do 5 (apply returns_only_bind; intros ?).
  eapply returns_only_cut; [apply vary_lighting_in_range |].
  intros r Hr. apply returns_only_ret. exact Hr.
Qed.

End Stages.

(** C6.  Whatever the input image, the state of the generators and the
    OpenCV rasterisers, a run of the whole pipeline that returns an image
    returns one whose every pixel lies in [0, 255]; and on an image at
    least 50 pixels high and wide the run does return: nothing is raised,
    and the image returned has the shape of the input and every pixel in
    [0, 255]. *)
Theorem degraded_pixels_in_range
        (circle_covers : Z * Z -> Z -> Z -> Z -> bool)
        (ellipse_covers : Z * Z -> Z * Z -> Z -> Z -> Z -> Z -> Z -> bool)
        (cv2_GaussianBlur : array2 Z -> Z * Z -> Q -> array2 Z)
        (np_sqrt : Z -> Q) (img : array3 Z) (g : Globals) :
  match add_realistic_effects circle_covers ellipse_covers cv2_GaussianBlur np_sqrt img g with
  | Ok (out, _) => in_range out
  | Raise _ => True
  end
  /\ (50 <= height img -> 50 <= width img ->
      exists out g',
        add_realistic_effects circle_covers ellipse_covers cv2_GaussianBlur np_sqrt img g
        = Ok (out, g')
        /\ in_range out /\ height out = height img /\ width out = width img).
Proof.
  split.
  - apply add_realistic_effects_in_range.
  - intros Hh Hw.
    destruct (add_realistic_effects_valid circle_covers ellipse_covers cv2_GaussianBlur
                np_sqrt (height img) (width img) img Hh Hw eq_refl eq_refl g)
      as [out [g' [Hrun Hv]]].
    exists out, g'. split; [exact Hrun | exact Hv].
Qed.

(** ** Runs from states that produce the same draws *)

Lemma related_ret {T : Type} (R : T -> T -> Prop) (x y : T) :
  R x y -> related R (ret x) (ret y).
Proof. intros H g1 g2 Hg. split; assumption. Qed.

Lemma related_bind {S T : Type} (R : S -> S -> Prop) (Q : T -> T -> Prop)
      (c1 c2 : M S) (k1 k2 : S -> M T) :
  related R c1 c2 -> (forall x y, R x y -> related Q (k1 x) (k2 y)) ->
  related Q (bind c1 k1) (bind c2 k2).
Proof.
  intros Hc Hk g1 g2 Hg. unfold bind. specialize (Hc g1 g2 Hg).
  unfold same_result in Hc.
  destruct (c1 g1) as [[x1 g1'] | m1]; destruct (c2 g2) as [[x2 g2'] | m2];
    try contradiction.
  - destruct Hc as [HR Hg']. apply Hk; assumption.
  - exact Hc.
Qed.

Lemma related_raise {T : Type} (R : T -> T -> Prop) (msg : string) :
  related R (raise msg) (raise msg).
Proof. intros g1 g2 Hg. reflexivity. Qed.

Lemma related_next_raw : related eq next_raw next_raw.
Proof.
  intros g1 g2 [Hc [Hraw [Hnc Hvar]]]. unfold next_raw. simpl.
  split; [rewrite Hc; apply Hraw |].
  repeat split; simpl; try assumption. rewrite Hc. reflexivity.
Qed.

Lemma related_random : related eq random random.
Proof.
  unfold random. eapply related_bind; [apply related_next_raw |].
  intros k ? <-. apply related_ret. reflexivity.
Qed.

Lemma related_uniform (a b : Q) : related eq (uniform a b) (uniform a b).
Proof.
  unfold uniform. eapply related_bind; [apply related_random |].
  intros u ? <-. apply related_ret. reflexivity.
Qed.

Lemma related_randbelow (n : Z) : related eq (randbelow n) (randbelow n).
Proof.
  unfold randbelow. eapply related_bind; [apply related_next_raw |].
  intros k ? <-. apply related_ret. reflexivity.
Qed.

Lemma related_randint (a b : Z) : related eq (randint a b) (randint a b).
Proof.
  unfold randint. destruct (b + 1 - a <=? 0); [apply related_raise |].
  eapply related_bind; [apply related_randbelow |].
  intros r ? <-. apply related_ret. reflexivity.
Qed.

Lemma related_choice {T : Type} (seq : list T) :
  related eq (choice seq) (choice seq).
Proof.
  unfold choice. destruct seq as [| first others]; [apply related_raise |].
  eapply related_bind; [apply related_randbelow |].
  intros i ? <-. apply related_ret. reflexivity.
Qed.

Lemma related_repeat {T : Type} (R : T -> T -> Prop) (body1 body2 : T -> M T)
      (n : nat) :
  (forall x y, R x y -> related R (body1 x) (body2 y)) ->
  forall x y, R x y -> related R (repeat_M n body1 x) (repeat_M n body2 y).
Proof.
  intros Hbody. induction n as [| n IH]; intros x y Hxy; simpl.
  - apply related_ret. exact Hxy.
  - eapply related_bind; [apply Hbody; exact Hxy | exact IH].
Qed.

Lemma related_normal (loc scale : Q) (rows cols : Z) :
  related same_array (np_random_normal loc scale rows cols)
          (np_random_normal loc scale rows cols).
Proof.
  intros g1 g2 [Hc [Hraw [Hnc Hvar]]]. unfold np_random_normal.
  destruct (Qlt_bool scale 0); [reflexivity |]. simpl.
  split; [| repeat split; simpl; try assumption; rewrite Hnc; reflexivity].
  split; [reflexivity | split; [reflexivity |]].
  intros y x c. simpl. rewrite Hnc, Hvar. reflexivity.
Qed.

(** The last step of a stage: the same element-wise expression on images
    with the same pixels. *)
Ltac same_pixels Hh Hw Hpix :=
  apply related_ret;
  split; [simpl; assumption
         | split; [simpl; assumption
                  | intros ? ? ?; simpl; rewrite ?Hh, ?Hw, ?Hpix; reflexivity]].

Ltac same_draw c :=
  eapply related_bind; [apply c |]; intros ? ? <-.

Section SameStages.

Variable circle_covers : Z * Z -> Z -> Z -> Z -> bool.
Variable ellipse_covers : Z * Z -> Z * Z -> Z -> Z -> Z -> Z -> Z -> bool.
Variable cv2_GaussianBlur : array2 Z -> Z * Z -> Q -> array2 Z.
Variable np_sqrt : Z -> Q.

Lemma reduce_contrast_related (a b : array3 Z) :
  same_image a b -> related same_image (_reduce_contrast a) (_reduce_contrast b).
Proof.
  intros [Hh [Hw Hpix]]. unfold _reduce_contrast.
  same_draw related_uniform. same_draw related_uniform.
  same_pixels Hh Hw Hpix.
Qed.

Lemma add_reflections_related (a b : array3 Z) :
  same_image a b ->
  related same_image (_add_reflections np_sqrt a) (_add_reflections np_sqrt b).
Proof.
  intros Hab. unfold _add_reflections.
  destruct Hab as [Hh [Hw Hpix]]. rewrite Hh, Hw.
  same_draw related_randint. apply related_repeat.
  - clear Hh Hw Hpix. intros a' b' [Hh [Hw Hpix]]. unfold add_reflection.
    do 3 same_draw related_randint. same_draw related_uniform.
    same_pixels Hh Hw Hpix.
  - split; [exact Hh | split; assumption].
Qed.

Lemma add_smudges_related (a b : array3 Z) :
  same_image a b ->
  related same_image (_add_smudges ellipse_covers cv2_GaussianBlur a)
          (_add_smudges ellipse_covers cv2_GaussianBlur b).
Proof.
  intros Hab. unfold _add_smudges.
  destruct Hab as [Hh [Hw Hpix]]. rewrite Hh, Hw.
  same_draw related_randint. apply related_repeat.
  - clear Hh Hw Hpix. intros a' b' [Hh [Hw Hpix]]. unfold add_smudge.
    do 5 same_draw related_randint. same_draw related_uniform.
    same_pixels Hh Hw Hpix.
  - split; [exact Hh | split; assumption].
Qed.

Lemma add_dust_related (a b : array3 Z) :
  same_image a b ->
  related same_image (_add_dust circle_covers a) (_add_dust circle_covers b).
Proof.
  intros Hab. unfold _add_dust.
  destruct Hab as [Hh [Hw Hpix]]. rewrite Hh, Hw.
  same_draw related_randint. apply related_repeat.
  - clear Hh Hw Hpix. intros a' b' [Hh [Hw Hpix]]. unfold add_particle.
    do 4 same_draw related_randint.
    match goal with |- context [?s =? 1] => destruct (s =? 1) end;
      same_pixels Hh Hw Hpix.
  - split; [exact Hh | split; assumption].
Qed.

Lemma add_noise_related (a b : array3 Z) :
  same_image a b -> related same_image (_add_noise a) (_add_noise b).
Proof.
  intros [Hh [Hw Hpix]]. unfold _add_noise. rewrite Hh, Hw.
  same_draw related_uniform.
  eapply related_bind; [apply related_normal |].
  intros n1 n2 [Hnh [Hnw Hn]].
  apply related_ret.
  split; [simpl; assumption | split; [simpl; assumption |]].
  intros row col ch. simpl. rewrite Hpix, Hn. reflexivity.
Qed.

Lemma vary_lighting_related (a b : array3 Z) :
  same_image a b ->
  related same_image (_vary_lighting np_sqrt a) (_vary_lighting np_sqrt b).
Proof.
  intros [Hh [Hw Hpix]]. unfold _vary_lighting. rewrite Hh, Hw.
  eapply related_bind; [apply related_choice |]. intros lighting_type ? <-.
  same_pixels Hh Hw Hpix.
Qed.

Lemma add_realistic_effects_related (a b : array3 Z) :
  same_image a b ->
  related same_image
    (add_realistic_effects circle_covers ellipse_covers cv2_GaussianBlur np_sqrt a)
    (add_realistic_effects circle_covers ellipse_covers cv2_GaussianBlur np_sqrt b).
Proof.
  intros Hab. unfold add_realistic_effects.
  eapply related_bind; [apply reduce_contrast_related; exact Hab |].
  intros a1 b1 H1.
  eapply related_bind; [apply add_reflections_related; exact H1 |].
  intros a2 b2 H2.
  eapply related_bind; [apply add_smudges_related; exact H2 |].
  intros a3 b3 H3.
  eapply related_bind; [apply add_dust_related; exact H3 |].
  intros a4 b4 H4.
  eapply related_bind; [apply add_noise_related; exact H4 |].
  intros a5 b5 H5.
  eapply related_bind; [apply vary_lighting_related; exact H5 |].
  intros a6 b6 H6. apply related_ret. exact H6.
Qed.

End SameStages.

Lemma same_image_refl (img : array3 Z) : same_image img img.
Proof. split; [reflexivity | split; reflexivity]. Qed.

Lemma example_globals_same_draws : same_draws example_globals example_globals_again.
Proof.
  split; [reflexivity | split; [| split; [reflexivity | intros n; reflexivity]]].
  intros n.
  change (1234567891234567 * Z.of_nat (S n) = 1234567891234567 * (Z.of_nat n + 1)).
  lia.
Qed.

(** C8, refuted.  The pipeline takes no random source: it reads the
    generators of the [random] and [numpy.random] modules.  Two calls in a
    row on the same image with the same arguments, the second finding the
    generators where the first left them, return different images: pixel
    (3, 4, 0) is 210 after the first call and 255 after the second. *)
Lemma consecutive_runs_differ :
  pixel_of (example_degrade example_globals) 3 4 0 = Some 210
  /\ pixel_of (example_degrade
                 (state_after (example_degrade example_globals) example_globals))
              3 4 0 = Some 255.
Proof. split; vm_compute; reflexivity. Qed.

(** C8, amended.  The pipeline draws from the global generators of
    [random] and [numpy.random], not from a source the caller passes; two
    runs on the same clean image that start from states of these
    generators producing the same draws (as after seeding both
    identically) end alike: either both raise the same exception, or they
    return images of the same shape with the same pixels and leave the
    generators in states that again produce the same draws. *)
Theorem same_draws_same_degradation
        (circle_covers : Z * Z -> Z -> Z -> Z -> bool)
        (ellipse_covers : Z * Z -> Z * Z -> Z -> Z -> Z -> Z -> Z -> bool)
        (cv2_GaussianBlur : array2 Z -> Z * Z -> Q -> array2 Z)
        (np_sqrt : Z -> Q) (img : array3 Z) (g1 g2 : Globals) :
  same_draws g1 g2 ->
  same_outcome
    (add_realistic_effects circle_covers ellipse_covers cv2_GaussianBlur np_sqrt img g1)
    (add_realistic_effects circle_covers ellipse_covers cv2_GaussianBlur np_sqrt img g2).
Proof.
  intros Hg.
  exact (add_realistic_effects_related circle_covers ellipse_covers cv2_GaussianBlur
           np_sqrt img img (same_image_refl img) g1 g2 Hg).
Qed.

Lemma same_draws_same_degradation_witness :
  same_draws example_globals example_globals_again
  /\ same_outcome (example_degrade example_globals)
                  (example_degrade example_globals_again).
Proof.
  split; [exact example_globals_same_draws |].
  exact (same_draws_same_degradation no_circle no_ellipse no_blur integer_sqrt
           example_image example_globals example_globals_again
           example_globals_same_draws).
Defined.

End GeneratorFacts.

(** ** Where the pipeline raises, and what the stages keep *)

Module PipelineFacts.

Import GlobalRandom SevenSegmentGenerator GeneratorStatements PipelineStatements.
Import GeneratorFacts.
Local Open Scope rand_scope.

Lemma always_raises_bind {S T : Type} (c : M S) (k : S -> M T) :
  always_raises c -> always_raises (bind c k).
Proof.
  intros Hc g. destruct (Hc g) as [msg Hmsg]. exists msg.
  unfold bind. rewrite Hmsg. reflexivity.
Qed.

Lemma always_raises_after {S T : Type} (c : M S) (k : S -> M T) (P : S -> Prop) :
  returns_only c P -> (forall x, P x -> always_raises (k x)) ->
  always_raises (bind c k).
Proof.
  intros Hc Hk g. unfold bind. specialize (Hc g).
  destruct (c g) as [[x g'] | msg]; [| exists msg; reflexivity].
  apply Hk. exact Hc.
Qed.

Lemma always_raises_randint (a b : Z) : b < a -> always_raises (randint a b).
Proof.
  intros H g. unfold randint.
  destruct (b + 1 - a <=? 0) eqn:E; [| apply Z.leb_gt in E; lia].
  eexists. reflexivity.
Qed.

Lemma returns_only_always {T : Type} (c : M T) (P : T -> Prop) :
  always_returns c P -> returns_only c P.
Proof.
  intros H g. destruct (H g) as [x [g' [-> HP]]]. exact HP.
Qed.

Lemma returns_only_repeat {T : Type} (body : T -> M T) (Inv : T -> Prop) (n : nat) :
  (forall x, Inv x -> returns_only (body x) Inv) ->
  forall x, Inv x -> returns_only (repeat_M n body x) Inv.
Proof.
  intros Hbody. induction n as [| n IH]; intros x Hx; simpl.
  - apply returns_only_ret. exact Hx.
  - eapply returns_only_cut; [apply Hbody; exact Hx | exact IH].
Qed.

Section Raising.

Variable circle_covers : Z * Z -> Z -> Z -> Z -> bool.
Variable ellipse_covers : Z * Z -> Z * Z -> Z -> Z -> Z -> Z -> Z -> bool.
Variable cv2_GaussianBlur : array2 Z -> Z * Z -> Q -> array2 Z.
Variable np_sqrt : Z -> Q.
Variables h w : Z.

Lemma reduce_contrast_shape (img : array3 Z) :
  has_shape h w img -> returns_only (_reduce_contrast img) (has_shape h w).
Proof.
  intros [Hh Hw]. unfold _reduce_contrast.
  do 2 (apply returns_only_bind; intros ?).
  apply returns_only_ret. split; simpl; assumption.
Qed.

Lemma add_reflections_shape (img : array3 Z) :
  has_shape h w img -> returns_only (_add_reflections np_sqrt img) (has_shape h w).
Proof.
  intros Hs. unfold _add_reflections.
  apply returns_only_bind. intros n. apply returns_only_repeat; [| exact Hs].
  intros x [Hh Hw]. unfold add_reflection.
  do 4 (apply returns_only_bind; intros ?).
  apply returns_only_ret. split; simpl; assumption.
Qed.

Lemma add_smudge_raises (img : array3 Z) :
  h < 50 \/ w < 50 ->
  always_raises (add_smudge ellipse_covers cv2_GaussianBlur h w img).
Proof.
  intros Hsmall. unfold add_smudge.
  destruct (Z_lt_ge_dec w 50) as [Hw | Hw].
  - apply always_raises_bind. apply always_raises_randint. lia.
  - assert (Hh : h < 50) by lia.
    eapply always_raises_after with (P := fun _ => True);
      [intros g; destruct (randint 0 (w - 50) g) as [[? ?] |]; exact I |].
    intros x _. apply always_raises_bind. apply always_raises_randint. lia.
Qed.

Lemma add_smudges_raises (img : array3 Z) :
  has_shape h w img -> h < 50 \/ w < 50 ->
  always_raises (_add_smudges ellipse_covers cv2_GaussianBlur img).
Proof.
  intros [Hh Hw] Hsmall. unfold _add_smudges. rewrite Hh, Hw.
  eapply always_raises_after;
    [apply returns_only_always; apply (always_returns_randint 2 5); lia |].
  intros n Hn. simpl in Hn.
  destruct (Z.to_nat n) as [| k] eqn:E; [lia |].
  cbn [repeat_M]. apply always_raises_bind. apply add_smudge_raises. exact Hsmall.
Qed.

Lemma add_realistic_effects_raises (img : array3 Z) :
  has_shape h w img -> h < 50 \/ w < 50 ->
  always_raises
    (add_realistic_effects circle_covers ellipse_covers cv2_GaussianBlur np_sqrt img).
Proof.
  intros Hs Hsmall. unfold add_realistic_effects.
  eapply always_raises_after; [apply reduce_contrast_shape; exact Hs |].
  intros r1 H1.
  eapply always_raises_after; [apply add_reflections_shape; exact H1 |].
  intros r2 H2.
  apply always_raises_bind. apply add_smudges_raises; assumption.
Qed.

End Raising.

(** X12.  The degradation pipeline returns an image exactly on images at least
    50 pixels high and 50 pixels wide, whatever the state of the
    generators and the OpenCV rasterisers: on a smaller image the smudge
    stage asks [random.randint] for a number in an empty range and the
    [ValueError] leaves the pipeline. *)
Theorem degradation_returns_iff_50_by_50
        (circle_covers : Z * Z -> Z -> Z -> Z -> bool)
        (ellipse_covers : Z * Z -> Z * Z -> Z -> Z -> Z -> Z -> Z -> bool)
        (cv2_GaussianBlur : array2 Z -> Z * Z -> Q -> array2 Z)
        (np_sqrt : Z -> Q) (img : array3 Z) (g : Globals) :
  (exists out g',
      add_realistic_effects circle_covers ellipse_covers cv2_GaussianBlur np_sqrt img g
      = Ok (out, g'))
  <-> 50 <= height img /\ 50 <= width img.
Proof.
  split.
  - intros [out [g' Hrun]].
    destruct (Z_lt_ge_dec (height img) 50) as [Hh | Hh];
      [| destruct (Z_lt_ge_dec (width img) 50) as [Hw | Hw]; [| lia]].
    + destruct (add_realistic_effects_raises circle_covers ellipse_covers
                  cv2_GaussianBlur np_sqrt (height img) (width img) img
                  (conj eq_refl eq_refl) (or_introl Hh) g) as [msg Hmsg].
      rewrite Hmsg in Hrun. discriminate Hrun.
    + destruct (add_realistic_effects_raises circle_covers ellipse_covers
                  cv2_GaussianBlur np_sqrt (height img) (width img) img
                  (conj eq_refl eq_refl) (or_intror Hw) g) as [msg Hmsg].
      rewrite Hmsg in Hrun. discriminate Hrun.
  - intros [Hh Hw].
    destruct (add_realistic_effects_valid circle_covers ellipse_covers cv2_GaussianBlur
                np_sqrt (height img) (width img) img Hh Hw eq_refl eq_refl g)
      as [out [g' [Hrun _]]].
    exists out, g'. exact Hrun.
Qed.

(** *** The clean image *)

Lemma dict_get_In {V : Type} (d : list (string * V)) (k : string) (default : V) :
  In (dict_get d k default) (default :: map snd d).
Proof.
  induction d as [| [k' v] rest IH]; simpl; [left; reflexivity |].
  destruct (String.eqb k k'); [right; left; reflexivity |].
  destruct IH as [IH | IH]; [left; exact IH | right; right; exact IH].
Qed.

Lemma active_segments_known (digit : string) :
  all_segments_known (dict_get digit_segments digit []) = true.
Proof.
  assert (H : forallb all_segments_known ([] :: map snd digit_segments) = true)
    by (vm_compute; reflexivity).
  rewrite forallb_forall in H. apply H. apply dict_get_In.
Qed.

Section CleanDigit.

Variable fillPoly_covers : list (Z * Z) -> Z -> Z -> bool.
Variable self : SevenSegmentGenerator.

(** The loop of [create_clean_digit] over segments that are keys of
    [segments]: the pixels of their polygons become 40, the others keep
    their value. *)
Lemma draw_segments (names : list string) (img : array3 Z) :
  all_segments_known names = true ->
  exists out,
    fold_left
      (fun (acc : Exc (array3 Z)) segment =>
         match acc with
         | Raise msg => Raise msg
         | Ok img =>
             match dict_lookup segments segment with
             | None => Raise segment
             | Some points =>
                 let abs_points :=
                   map (fun p : Q * Q =>
                          (py_int (fst p * inject_Z (self_width self)),
                           py_int (snd p * inject_Z (self_height self)))) points in
                 Ok (draw (fillPoly_covers abs_points) (40, 40, 40) img)
             end
         end) names (Ok img) = Ok out
    /\ height out = height img /\ width out = width img
    /\ forall y x c,
         at3 out y x c
         = if covered_by fillPoly_covers self names y x then 40 else at3 img y x c.
Proof.
  revert img. induction names as [| n rest IH]; intros img Hknown.
  - exists img. simpl. repeat split.
  - cbn [all_segments_known forallb] in Hknown.
    apply andb_true_iff in Hknown. destruct Hknown as [Hn Hrest].
    cbn [fold_left].
    destruct (dict_lookup segments n) as [points |] eqn:Hl; [| discriminate Hn].
    destruct (IH (draw (fillPoly_covers (abs_points_of self points)) (40, 40, 40) img)
                Hrest) as [out [Hrun [Hh [Hw Hpix]]]].
    exists out. split; [exact Hrun |]. split; [exact Hh |]. split; [exact Hw |].
    intros y x c. rewrite Hpix. cbn [covered_by existsb]. rewrite Hl.
    fold (covered_by fillPoly_covers self rest y x).
    destruct (covered_by fillPoly_covers self rest y x);
      [rewrite orb_true_r; reflexivity |].
    rewrite orb_false_r. simpl.
    destruct (fillPoly_covers (abs_points_of self points) y x); [| reflexivity].
    destruct (c =? 0); [reflexivity |]. destruct (c =? 1); reflexivity.
Qed.

Lemma create_clean_digit_shape (digit : string) :
  0 <= self_height self -> 0 <= self_width self ->
  exists img,
    create_clean_digit fillPoly_covers self digit = Ok img
    /\ height img = self_height self /\ width img = self_width self.
Proof.
  intros Hh Hw. unfold create_clean_digit.
  replace (self_height self <? 0) with false by (symmetry; apply Z.ltb_ge; lia).
  replace (self_width self <? 0) with false by (symmetry; apply Z.ltb_ge; lia).
  cbn [orb].
  destruct (draw_segments (dict_get digit_segments digit [])
              (np_full (self_height self) (self_width self) 220)
              (active_segments_known digit)) as [out [Hrun [Hho [Hwo _]]]].
  exists out. split; [exact Hrun |]. split; assumption.
Qed.

(** X13.  On a canvas of valid size the clean renderer returns, for every
    digit string, an image of the configured shape with two tones only:
    40 on the pixels that the polygon of an active segment covers (for any
    rasteriser), the background 220 elsewhere.  The dark mask that
    [_reduce_contrast] computes on it is therefore exactly the set of
    segment pixels. *)
Theorem clean_digit_is_two_tone (digit : string) :
  0 <= self_height self -> 0 <= self_width self ->
  exists img,
    create_clean_digit fillPoly_covers self digit = Ok img
    /\ height img = self_height self /\ width img = self_width self
    /\ (forall y x c,
          at3 img y x c
          = if covered_by fillPoly_covers self (dict_get digit_segments digit []) y x
            then 40 else 220)
    /\ (forall y x,
          is_dark img y x
          = covered_by fillPoly_covers self (dict_get digit_segments digit []) y x).
Proof.
  intros Hh Hw. unfold create_clean_digit.
  replace (self_height self <? 0) with false by (symmetry; apply Z.ltb_ge; lia).
  replace (self_width self <? 0) with false by (symmetry; apply Z.ltb_ge; lia).
  cbn [orb].
  destruct (draw_segments (dict_get digit_segments digit [])
              (np_full (self_height self) (self_width self) 220)
              (active_segments_known digit)) as [out [Hrun [Hho [Hwo Hpix]]]].
  exists out. split; [exact Hrun |]. split; [exact Hho |]. split; [exact Hwo |].
  split; [exact Hpix |].
  intros y x. unfold is_dark. cbn [forallb]. rewrite !Hpix.
  destruct (covered_by fillPoly_covers self (dict_get digit_segments digit []) y x);
    reflexivity.
Qed.

End CleanDigit.

(** The digit "1" on the default canvas, with polygons filled as their
    bounding boxes: the pixel (row 100, column 162) lies in segment b and
    is dark, the pixel (row 100, column 100) is background. *)
Lemma clean_digit_is_two_tone_witness :
  0 <= self_height default_generator
  /\ 0 <= self_width default_generator
  /\ exists img,
       create_clean_digit bounding_box_covers default_generator "1" = Ok img
       /\ at3 img 100 162 0 = 40
       /\ at3 img 100 100 0 = 220.
Proof.
  assert (Hh : 0 <= self_height default_generator) by (simpl; lia).
  assert (Hw : 0 <= self_width default_generator) by (simpl; lia).
  split; [exact Hh |]. split; [exact Hw |].
  destruct (clean_digit_is_two_tone bounding_box_covers default_generator "1" Hh Hw)
    as [img [Hrun [_ [_ [Hpix _]]]]].
  exists img. split; [exact Hrun |].
  split; rewrite Hpix; vm_compute; reflexivity.
Defined.

(** *** A whole sample *)

(** X14.  [generate_sample] returns exactly for a generator whose canvas is at
    least 50 pixels high and wide, and this for every digit string, known
    or not; the image it returns has the shape of the canvas and every
    pixel in [0, 255].  A smaller canvas makes the smudge stage raise. *)
Theorem generate_sample_returns_iff_50_by_50
        (fillPoly_covers : list (Z * Z) -> Z -> Z -> bool)
        (circle_covers : Z * Z -> Z -> Z -> Z -> bool)
        (ellipse_covers : Z * Z -> Z * Z -> Z -> Z -> Z -> Z -> Z -> bool)
        (cv2_GaussianBlur : array2 Z -> Z * Z -> Q -> array2 Z)
        (np_sqrt : Z -> Q) (self : SevenSegmentGenerator) (digit : string)
        (g : Globals) :
  ((exists out g',
       generate_sample fillPoly_covers circle_covers ellipse_covers cv2_GaussianBlur
                       np_sqrt self digit g = Ok (out, g'))
   <-> 50 <= self_height self /\ 50 <= self_width self)
  /\ match generate_sample fillPoly_covers circle_covers ellipse_covers
                           cv2_GaussianBlur np_sqrt self digit g with
     | Ok (out, _) => valid_image (self_height self) (self_width self) out
     | Raise _ => True
     end.
Proof.
  unfold generate_sample.
  destruct (Z_lt_ge_dec (self_height self) 0) as [Hh | Hh];
    [| destruct (Z_lt_ge_dec (self_width self) 0) as [Hw | Hw]].
  - unfold create_clean_digit.
    replace (self_height self <? 0) with true by (symmetry; apply Z.ltb_lt; lia).
    cbn [orb raise]. split; [| exact I].
    split; [intros [out [g' H]]; discriminate H | lia].
  - unfold create_clean_digit.
    replace (self_width self <? 0) with true by (symmetry; apply Z.ltb_lt; lia).
    rewrite orb_true_r. cbn [raise]. split; [| exact I].
    split; [intros [out [g' H]]; discriminate H | lia].
  - destruct (create_clean_digit_shape fillPoly_covers self digit
                ltac:(lia) ltac:(lia)) as [img [-> [Hhi Hwi]]].
    assert (Hsmall : self_height self < 50 \/ self_width self < 50 ->
                     forall out g',
                       add_realistic_effects circle_covers ellipse_covers
                         cv2_GaussianBlur np_sqrt img g <> Ok (out, g')).
    { intros Hlt out g' Hrun.
      destruct (add_realistic_effects_raises circle_covers ellipse_covers
                  cv2_GaussianBlur np_sqrt (self_height self) (self_width self) img
                  (conj Hhi Hwi) Hlt g) as [msg Hmsg].
      rewrite Hmsg in Hrun. discriminate Hrun. }
    assert (Hbig : forall out g',
               add_realistic_effects circle_covers ellipse_covers
                 cv2_GaussianBlur np_sqrt img g = Ok (out, g') ->
               50 <= self_height self /\ 50 <= self_width self).
    { intros out g' Hrun.
      destruct (Z_lt_ge_dec (self_height self) 50) as [H1 | H1];
        [exfalso; exact (Hsmall (or_introl H1) out g' Hrun) |].
      destruct (Z_lt_ge_dec (self_width self) 50) as [H2 | H2];
        [exfalso; exact (Hsmall (or_intror H2) out g' Hrun) | lia]. }
    split.
    + split.
      * intros [out [g' Hrun]]. exact (Hbig out g' Hrun).
      * intros [H50h H50w].
        destruct (add_realistic_effects_valid circle_covers ellipse_covers
                    cv2_GaussianBlur np_sqrt (self_height self) (self_width self)
                    img H50h H50w Hhi Hwi g) as [out [g' [Hrun _]]].
        exists out, g'. exact Hrun.
    + destruct (add_realistic_effects circle_covers ellipse_covers cv2_GaussianBlur
                  np_sqrt img g) as [[out g'] | msg] eqn:Hrun; [| exact I].
      destruct (Hbig out g' eq_refl) as [H50h H50w].
      destruct (add_realistic_effects_valid circle_covers ellipse_covers
                  cv2_GaussianBlur np_sqrt (self_height self) (self_width self)
                  img H50h H50w Hhi Hwi g) as [out2 [g2 [Hrun2 Hv]]].
      rewrite Hrun in Hrun2. injection Hrun2 as <- <-. exact Hv.
Qed.

(** *** What the single stages do to a pixel *)

(** [np.clip(q, 0, 255).astype(np.uint8)] is monotone against integer
    bounds within [0, 255]. *)
Lemma clip_floor_lower (a : Z) (q : Q) :
  0 <= a <= 255 -> (inject_Z a <= q)%Q -> a <= astype_uint8 (np_clip q 0 255).
Proof.
  intros Ha Hq. unfold np_clip.
  destruct (Qlt_bool q 0) eqn:E0.
  - apply Qlt_bool_iff in E0. exfalso.
    assert (H : (inject_Z a < 0)%Q) by exact (Qle_lt_trans _ _ _ Hq E0).
    unfold Qlt in H. simpl in H. clear - H Ha. lia.
  - destruct (Qlt_bool 255 q) eqn:E1;
      [replace (astype_uint8 255) with 255 by reflexivity; lia |].
    apply Qlt_bool_false_iff in E0, E1.
    destruct q as [n d]. unfold astype_uint8, Qle in *. simpl in *.
    assert (Hn : 0 <= n) by lia.
    rewrite Z.quot_div_nonneg by lia.
    assert (Hlo : a <= n / Z.pos d) by (apply Z.div_le_lower_bound; lia).
    assert (Hhi : n / Z.pos d <= 255) by (apply Z.div_le_upper_bound; lia).
    rewrite Z.mod_small by lia. exact Hlo.
Qed.

Lemma clip_floor_upper (b : Z) (q : Q) :
  0 <= b <= 255 -> (q <= inject_Z b)%Q -> astype_uint8 (np_clip q 0 255) <= b.
Proof.
  intros Hb Hq. unfold np_clip.
  destruct (Qlt_bool q 0) eqn:E0;
    [replace (astype_uint8 0) with 0 by reflexivity; lia |].
  destruct (Qlt_bool 255 q) eqn:E1.
  - apply Qlt_bool_iff in E1. exfalso.
    assert (H : (255 < inject_Z b)%Q) by exact (Qlt_le_trans _ _ _ E1 Hq).
    unfold Qlt in H. simpl in H. clear - H Hb. lia.
  - apply Qlt_bool_false_iff in E0, E1.
    destruct q as [n d]. unfold astype_uint8, Qle in *. simpl in *.
    assert (Hn : 0 <= n) by lia.
    rewrite Z.quot_div_nonneg by lia.
    assert (Hlo : 0 <= n / Z.pos d) by (apply Z.div_pos; lia).
    assert (Hhi : n / Z.pos d <= b) by (apply Z.div_le_upper_bound; lia).
    rewrite Z.mod_small by lia. exact Hhi.
Qed.

Lemma clip_floor_below (b : Z) (q : Q) :
  0 <= b <= 255 -> (q < inject_Z (b + 1))%Q -> astype_uint8 (np_clip q 0 255) <= b.
Proof.
  intros Hb Hq. unfold np_clip.
  destruct (Qlt_bool q 0) eqn:E0;
    [replace (astype_uint8 0) with 0 by reflexivity; lia |].
  destruct (Qlt_bool 255 q) eqn:E1.
  - apply Qlt_bool_iff in E1.
    assert (H : (255 < inject_Z (b + 1))%Q) by exact (Qlt_trans _ _ _ E1 Hq).
    unfold Qlt in H. simpl in H.
    replace (astype_uint8 255) with 255 by reflexivity. clear - H Hb. lia.
  - apply Qlt_bool_false_iff in E0, E1.
    destruct q as [n d]. unfold astype_uint8, Qle, Qlt in *. simpl in *.
    assert (Hn : 0 <= n) by lia.
    rewrite Z.quot_div_nonneg by lia.
    assert (Hlo : 0 <= n / Z.pos d) by (apply Z.div_pos; lia).
    assert (Hhi : n / Z.pos d < b + 1) by (apply Z.div_lt_upper_bound; lia).
    rewrite Z.mod_small by lia. lia.
Qed.

Lemma inject_Z_bounds (v lo hi : Z) :
  lo <= v <= hi -> (inject_Z lo <= inject_Z v <= inject_Z hi)%Q.
Proof. intros [H1 H2]. split; rewrite <- Zle_Qle; assumption. Qed.

Lemma np_maximum_nonneg (x : Q) : (0 <= np_maximum 0 x)%Q.
Proof.
  unfold np_maximum. destruct (Qlt_bool 0 x) eqn:E; [| apply Qle_refl].
  apply Qlt_bool_iff in E. apply Qlt_le_weak. exact E.
Qed.

Section Reflections.

Variable np_sqrt : Z -> Q.
Variable img : array3 Z.

Lemma add_reflection_not_darker (cur : array3 Z) :
  0 <= height img -> 0 <= width img ->
  valid_image (height img) (width img) cur /\ not_darker img cur ->
  always_returns (add_reflection np_sqrt (height img) (width img) cur)
                 (fun out => valid_image (height img) (width img) out
                             /\ not_darker img out).
Proof.
  intros Hh0 Hw0 [[Hr [Hh Hw]] Hnd]. unfold add_reflection.
  eapply always_returns_bind; [apply always_returns_randint; exact Hw0 |].
  intros center_x _.
  eapply always_returns_bind; [apply always_returns_randint; exact Hh0 |].
  intros center_y _.
  eapply always_returns_bind; [apply always_returns_randint; lia |].
  intros radius _.
  eapply always_returns_bind; [apply (always_returns_uniform (2 # 10) (6 # 10)); lra |].
  intros intensity Hi. simpl in Hi.
  apply always_returns_ret. split.
  - split; [intros ? ? ?; apply astype_uint8_range | split; simpl; assumption].
  - intros y x c. simpl.
    apply Z.le_trans with (m := at3 cur y x c); [apply Hnd |].
    apply clip_floor_lower; [apply Hr |].
    unfold astype_float.
    match goal with
    | |- (_ <= _ + ?o * 255)%Q => assert (Ho : (0 <= o)%Q)
    end.
    { match goal with
      | |- (0 <= if ?inside then _ else _)%Q => destruct inside
      end; [| apply Qle_refl].
      apply Qmult_le_0_compat; [lra | apply np_maximum_nonneg]. }
    lra.
Qed.

(** X15.  The reflection stage only adds light: on an image with valid pixels
    it returns an image of the same shape in which no pixel is darker
    than before. *)
Theorem reflections_never_darken (g : Globals) :
  in_range img -> 0 <= height img -> 0 <= width img ->
  exists out g',
    _add_reflections np_sqrt img g = Ok (out, g')
    /\ valid_image (height img) (width img) out
    /\ not_darker img out.
Proof.
  intros Hr Hh0 Hw0.
  assert (H : always_returns (_add_reflections np_sqrt img)
                (fun out => valid_image (height img) (width img) out
                            /\ not_darker img out)).
  { unfold _add_reflections.
    eapply always_returns_bind; [apply always_returns_randint; lia |].
    intros n _. apply always_returns_repeat.
    - intros cur Hcur. apply add_reflection_not_darker; assumption.
    - split; [split; [exact Hr | split; reflexivity] |].
      intros y x c. apply Z.le_refl. }
  destruct (H g) as [out [g' [Hrun [Hv Hnd]]]].
  exists out, g'. split; [exact Hrun | split; assumption].
Qed.

End Reflections.

Lemma reflections_never_darken_witness :
  in_range example_image
  /\ 0 <= height example_image
  /\ 0 <= width example_image
  /\ exists out g',
       _add_reflections integer_sqrt example_image example_globals = Ok (out, g')
       /\ not_darker example_image out.
Proof.
  assert (Hr : in_range example_image).
  { intros y x c. simpl. destruct (x <? 30); lia. }
  assert (Hh : 0 <= height example_image) by (simpl; lia).
  assert (Hw : 0 <= width example_image) by (simpl; lia).
  split; [exact Hr |]. split; [exact Hh |]. split; [exact Hw |].
  destruct (reflections_never_darken integer_sqrt example_image example_globals
              Hr Hh Hw) as [out [g' [Hrun [_ Hnd]]]].
  exists out, g'. split; assumption.
Defined.

Section Smudges.

Variable ellipse_covers : Z * Z -> Z * Z -> Z -> Z -> Z -> Z -> Z -> bool.
Variable cv2_GaussianBlur : array2 Z -> Z * Z -> Q -> array2 Z.
Variable img : array3 Z.

(** The blurred mask is an array of [uint8]. *)
Hypothesis blur_nonneg :
  forall mask ksize sigma y x, 0 <= at2 (cv2_GaussianBlur mask ksize sigma) y x.

Lemma add_smudge_not_lighter (cur : array3 Z) :
  50 <= height img -> 50 <= width img ->
  valid_image (height img) (width img) cur /\ not_lighter img cur ->
  always_returns
    (add_smudge ellipse_covers cv2_GaussianBlur (height img) (width img) cur)
    (fun out => valid_image (height img) (width img) out /\ not_lighter img out).
Proof.
  intros Hh0 Hw0 [[Hr [Hh Hw]] Hnl]. unfold add_smudge.
  eapply always_returns_bind; [apply always_returns_randint; lia |].
  intros x0 _.
  eapply always_returns_bind; [apply always_returns_randint; lia |].
  intros y0 _.
  eapply always_returns_bind; [apply always_returns_randint; lia |].
  intros size_x _.
  eapply always_returns_bind; [apply always_returns_randint; lia |].
  intros size_y _.
  eapply always_returns_bind; [apply always_returns_randint; lia |].
  intros angle _.
  eapply always_returns_bind;
    [apply (always_returns_uniform (5 # 100) (15 # 100)); lra |].
  intros smudge_intensity Hi. simpl in Hi.
  apply always_returns_ret. split.
  - split; [intros ? ? ?; apply astype_uint8_range | split; simpl; assumption].
  - intros y x c. simpl.
    apply Z.le_trans with (m := at3 cur y x c); [| apply Hnl].
    apply clip_floor_upper; [apply Hr |].
    unfold astype_float.
    match goal with
    | |- (_ - inject_Z ?m / 255 * _ * 255 <= _)%Q =>
        assert (Hm : (0 <= inject_Z m)%Q)
          by (rewrite <- (Zle_Qle 0); apply blur_nonneg);
        set (mv := inject_Z m) in *
    end.
    assert (Hp : (0 <= mv * smudge_intensity)%Q)
      by (apply Qmult_le_0_compat; lra).
    clearbody mv.
    assert (Heq : (mv / 255 * smudge_intensity * 255 == mv * smudge_intensity)%Q)
      by field.
    rewrite Heq. lra.
Qed.

(** X16.  The smudge stage only darkens, given that the blurred mask has no
    negative element: on an image with valid pixels, at least 50 by 50,
    it returns an image of the same shape in which no pixel is lighter
    than before. *)
Theorem smudges_never_lighten (g : Globals) :
  in_range img -> 50 <= height img -> 50 <= width img ->
  exists out g',
    _add_smudges ellipse_covers cv2_GaussianBlur img g = Ok (out, g')
    /\ valid_image (height img) (width img) out
    /\ not_lighter img out.
Proof.
  intros Hr Hh0 Hw0.
  assert (H : always_returns (_add_smudges ellipse_covers cv2_GaussianBlur img)
                (fun out => valid_image (height img) (width img) out
                            /\ not_lighter img out)).
  { unfold _add_smudges.
    eapply always_returns_bind; [apply always_returns_randint; lia |].
    intros n _. apply always_returns_repeat.
    - intros cur Hcur. apply add_smudge_not_lighter; assumption.
    - split; [split; [exact Hr | split; reflexivity] |].
      intros y x c. apply Z.le_refl. }
  destruct (H g) as [out [g' [Hrun [Hv Hnl]]]].
  exists out, g'. split; [exact Hrun | split; assumption].
Qed.

End Smudges.

Lemma example_image_in_range : in_range example_image.
Proof. intros y x c. simpl. destruct (x <? 30); lia. Qed.

Lemma smudges_never_lighten_witness :
  (forall mask ksize sigma y x, 0 <= at2 (saturating_blur mask ksize sigma) y x)
  /\ in_range example_image
  /\ 50 <= height example_image
  /\ 50 <= width example_image
  /\ exists out g',
       _add_smudges no_ellipse saturating_blur example_image example_globals
       = Ok (out, g')
       /\ not_lighter example_image out.
Proof.
  assert (Hb : forall mask ksize sigma y x,
             0 <= at2 (saturating_blur mask ksize sigma) y x)
    by (intros; simpl; lia).
  assert (Hh : 50 <= height example_image) by (simpl; lia).
  assert (Hw : 50 <= width example_image) by (simpl; lia).
  split; [exact Hb |]. split; [exact example_image_in_range |].
  split; [exact Hh |]. split; [exact Hw |].
  destruct (smudges_never_lighten no_ellipse saturating_blur example_image Hb
              example_globals example_image_in_range Hh Hw)
    as [out [g' [Hrun [_ Hnl]]]].
  exists out, g'. split; assumption.
Defined.

Section Dust.

Variable circle_covers : Z * Z -> Z -> Z -> Z -> bool.
Variable img : array3 Z.

Lemma draw_dusted (covers : Z -> Z -> bool) (color : Z) (cur : array3 Z) :
  60 <= color <= 180 -> dusted img cur ->
  dusted img (draw covers (color, color, color) cur).
Proof.
  intros Hc Hd y x. simpl. destruct (covers y x); [| apply Hd].
  right. exists color. split; [exact Hc |].
  intros c. destruct (c =? 0); [reflexivity |]. destruct (c =? 1); reflexivity.
Qed.

Lemma add_particle_dusted (cur : array3 Z) :
  1 <= height img -> 1 <= width img ->
  valid_image (height img) (width img) cur /\ dusted img cur ->
  always_returns (add_particle circle_covers (height img) (width img) cur)
                 (fun out => valid_image (height img) (width img) out
                             /\ dusted img out).
Proof.
  intros Hh0 Hw0 [Hv Hd]. unfold add_particle.
  eapply always_returns_bind; [apply always_returns_randint; lia |].
  intros x0 _.
  eapply always_returns_bind; [apply always_returns_randint; lia |].
  intros y0 _.
  eapply always_returns_bind; [apply always_returns_randint; lia |].
  intros size _.
  eapply always_returns_bind; [apply (always_returns_randint 60 180); lia |].
  intros color Hc. simpl in Hc.
  destruct (size =? 1); apply always_returns_ret;
    (split; [apply draw_valid; [lia | exact Hv] | apply draw_dusted; assumption]).
Qed.

(** X17.  The dust stage only paints grey specks: on an image with valid
    pixels and at least one row and one column it returns an image of
    the same shape in which every pixel is either unchanged in all its
    channels or one grey between 60 and 180 in all its channels. *)
Theorem dust_only_paints_grey (g : Globals) :
  in_range img -> 1 <= height img -> 1 <= width img ->
  exists out g',
    _add_dust circle_covers img g = Ok (out, g')
    /\ valid_image (height img) (width img) out
    /\ dusted img out.
Proof.
  intros Hr Hh0 Hw0.
  assert (H : always_returns (_add_dust circle_covers img)
                (fun out => valid_image (height img) (width img) out
                            /\ dusted img out)).
  { unfold _add_dust.
    eapply always_returns_bind; [apply always_returns_randint; lia |].
    intros n _. apply always_returns_repeat.
    - intros cur Hcur. apply add_particle_dusted; assumption.
    - split; [split; [exact Hr | split; reflexivity] |].
      intros y x. left. intros c. reflexivity. }
  destruct (H g) as [out [g' [Hrun [Hv Hd]]]].
  exists out, g'. split; [exact Hrun | split; assumption].
Qed.

End Dust.

Lemma dust_only_paints_grey_witness :
  in_range example_image
  /\ 1 <= height example_image
  /\ 1 <= width example_image
  /\ exists out g',
       _add_dust no_circle example_image example_globals = Ok (out, g')
       /\ dusted example_image out.
Proof.
  assert (Hh : 1 <= height example_image) by (simpl; lia).
  assert (Hw : 1 <= width example_image) by (simpl; lia).
  split; [exact example_image_in_range |]. split; [exact Hh |]. split; [exact Hw |].
  destruct (dust_only_paints_grey no_circle example_image example_globals
              example_image_in_range Hh Hw) as [out [g' [Hrun [_ Hd]]]].
  exists out, g'. split; assumption.
Defined.

Section Contrast.

Variable img : array3 Z.

Lemma is_dark_channel (y x c : Z) :
  is_dark img y x = true -> 0 <= c <= 2 -> at3 img y x c < 100.
Proof.
  unfold is_dark. cbn [forallb]. rewrite !andb_true_iff, !Z.ltb_lt.
  intros [H0 [H1 [H2 _]]] Hc.
  assert (Hcases : c = 0 \/ c = 1 \/ c = 2) by lia.
  destruct Hcases as [-> | [-> | ->]]; assumption.
Qed.

(** The value of a pixel after the blend toward mid-grey and the
    lightening, before clipping. *)
Lemma blended_bounds (contrast_factor delta : Q) (v : Z) :
  (3 # 10 <= contrast_factor <= 7 # 10)%Q ->
  (0 <= delta <= 3 # 10)%Q ->
  0 <= v <= 255 ->
  (inject_Z 38
   <= ((1 # 2) + contrast_factor * (inject_Z v / 255 - (1 # 2)) + delta) * 255)%Q
  /\ (delta == 0 ->
      ((1 # 2) + contrast_factor * (inject_Z v / 255 - (1 # 2)) + delta) * 255
      < inject_Z (216 + 1))%Q
  /\ ((1 # 10 <= delta)%Q -> v < 100 ->
      (inject_Z 63
       <= ((1 # 2) + contrast_factor * (inject_Z v / 255 - (1 # 2)) + delta) * 255
       < inject_Z (195 + 1))%Q).
Proof.
  intros Hcf Hdelta Hv.
  destruct (inject_Z_bounds v 0 255 Hv) as [Hv0 Hv255].
  assert (E : (inject_Z v / 255 == inject_Z v * (1 # 255))%Q) by reflexivity.
  rewrite !E. clear E.
  set (t := (inject_Z v * (1 # 255) - (1 # 2))%Q).
  assert (Ht : (- (1 # 2) <= t <= 1 # 2)%Q).
  { unfold t. change (inject_Z 0) with 0%Q in Hv0.
    change (inject_Z 255) with 255%Q in Hv255. split; lra. }
  assert (Hlow : (- (35 # 100) <= contrast_factor * t)%Q).
  { assert (Hp : (0 <= contrast_factor * (t + (1 # 2)))%Q)
      by (apply Qmult_le_0_compat; lra).
    lra. }
  assert (Hhigh : (contrast_factor * t <= 35 # 100)%Q).
  { assert (Hp : (0 <= contrast_factor * ((1 # 2) - t))%Q)
      by (apply Qmult_le_0_compat; lra).
    lra. }
  change (inject_Z 38) with 38%Q. change (inject_Z (216 + 1)) with 217%Q.
  change (inject_Z 63) with 63%Q. change (inject_Z (195 + 1)) with 196%Q.
  split; [lra |]. split; [intros Hz; lra |].
  intros Hd Hdark.
  assert (Hv99 : (inject_Z v <= 99)%Q).
  { change 99%Q with (inject_Z 99). rewrite <- Zle_Qle. lia. }
  assert (Ht' : (t <= - (19 # 170))%Q) by (unfold t; lra).
  assert (Hhigh' : (contrast_factor * t <= - (57 # 1700))%Q).
  { assert (Hp : (0 <= contrast_factor * (- (19 # 170) - t))%Q)
      by (apply Qmult_le_0_compat; lra).
    lra. }
  split; lra.
Qed.

(** X18.  Contrast reduction leaves no pure black: on an image with valid
    pixels every pixel of the result is at least 38; a pixel that was not
    dark is at most 216, and the colour channels of a pixel that was dark
    (all three below 100) end between 63 and 195.  Nothing is clipped at
    0, and only lightened pixels can reach 255. *)
Theorem contrast_reduction_leaves_no_black (g : Globals) :
  in_range img ->
  exists out g',
    _reduce_contrast img g = Ok (out, g')
    /\ forall y x c,
         38 <= at3 out y x c
         /\ (is_dark img y x = false -> at3 out y x c <= 216)
         /\ (is_dark img y x = true -> 0 <= c <= 2 -> 63 <= at3 out y x c <= 195).
Proof.
  intros Hr.
  destruct g as [[rawf pos] np].
  unfold _reduce_contrast, uniform, random, next_raw, bind, ret. simpl.
  pose proof (random_fraction_range (rawf pos)) as H1.
  pose proof (random_fraction_range (rawf (S pos))) as H2.
  set (u1 := Qmake (rawf pos mod _) _) in *.
  set (u2 := Qmake (rawf (S pos) mod _) _) in *.
  do 2 eexists. split; [reflexivity |].
  intros y x c. cbn [at3 clip_to_uint8 map3 imap3].
  assert (Hmask : (at3 img y x 0 <? 100)
                  && ((at3 img y x 1 <? 100) && ((at3 img y x 2 <? 100) && true))
                  = is_dark img y x) by reflexivity.
  rewrite Hmask. clear Hmask.
  set (cf := ((3 # 10) + ((7 # 10) - (3 # 10)) * u1)%Q).
  set (delta := ((1 # 10) + ((3 # 10) - (1 # 10)) * u2)%Q).
  assert (Hcf : (3 # 10 <= cf <= 7 # 10)%Q) by (unfold cf; split; lra).
  assert (Hd : (1 # 10 <= delta <= 3 # 10)%Q) by (unfold delta; split; lra).
  clearbody cf delta. clear H1 H2.
  destruct (is_dark img y x) eqn:Hdark.
  - destruct (blended_bounds cf delta (at3 img y x c) Hcf ltac:(lra) (Hr y x c))
      as [Hlo [_ Hdk]].
    split; [| split; [discriminate |]].
    + apply clip_floor_lower; [lia | exact Hlo].
    + intros _ Hc.
      destruct (Hdk ltac:(lra) (is_dark_channel y x c Hdark Hc)) as [Hlo' Hhi'].
      split; [apply clip_floor_lower; [lia | exact Hlo']
             | apply clip_floor_below; [lia | exact Hhi']].
  - destruct (blended_bounds cf 0 (at3 img y x c) Hcf ltac:(lra) (Hr y x c))
      as [Hlo [Hhi _]].
    split; [| split; [| discriminate]].
    + apply clip_floor_lower; [lia |].
      eapply Qle_trans; [exact Hlo |]. lra.
    + intros _. apply clip_floor_below; [lia |].
      eapply Qle_lt_trans; [| exact (Hhi ltac:(reflexivity))]. lra.
Qed.

End Contrast.

Lemma contrast_reduction_leaves_no_black_witness :
  in_range example_image
  /\ exists out g',
       _reduce_contrast example_image example_globals = Ok (out, g')
       /\ 63 <= at3 out 3 4 0 <= 195
       /\ 38 <= at3 out 3 40 0 <= 216.
Proof.
  split; [exact example_image_in_range |].
  destruct (contrast_reduction_leaves_no_black example_image example_globals
              example_image_in_range) as [out [g' [Hrun Hpix]]].
  exists out, g'. split; [exact Hrun |].
  split.
  - destruct (Hpix 3 4 0) as [_ [_ Hdark]]. apply Hdark; [reflexivity | lia].
  - destruct (Hpix 3 40 0) as [Hlo [Hhi _]]. split; [exact Hlo |].
    apply Hhi. reflexivity.
Defined.

End PipelineFacts.

(** ** The dataset: file names, labels and numbering *)

Module DatasetFacts.

Import GlobalRandom SevenSegmentGenerator DatasetGeneration.
Import GeneratorStatements PipelineStatements DatasetStatements.
Import GeneratorFacts PipelineFacts.
Local Open Scope rand_scope.

(** *** The four-digit field *)

Lemma uint_of_zeros (k : nat) (s : string) :
  NilEmpty.uint_of_string (zeros k ++ s)
  = option_map (Nat.iter k Decimal.D0) (NilEmpty.uint_of_string s).
Proof.
  induction k as [| k IH]; simpl.
  - destruct (NilEmpty.uint_of_string s); reflexivity.
  - rewrite IH. destruct (NilEmpty.uint_of_string s); reflexivity.
Qed.

Lemma of_uint_leading_zeros (k : nat) (d : Decimal.uint) :
  Z.of_uint (Nat.iter k Decimal.D0 d) = Z.of_uint d.
Proof. induction k as [| k IH]; [reflexivity | exact IH]. Qed.

Lemma str_of_int_parses (i : Z) :
  0 <= i ->
  exists c rest d,
    ProductionOCR.str_of_int i = String c rest
    /\ NilEmpty.uint_of_string (ProductionOCR.str_of_int i) = Some d
    /\ Z.of_uint d = i.
Proof.
  intros Hi. unfold ProductionOCR.str_of_int.
  destruct i as [| p | p]; [| | lia].
  - exists "0"%char, EmptyString, (Decimal.D0 Decimal.Nil). repeat split.
  - cbn [Z.to_int NilZero.string_of_int].
    assert (Hs : NilZero.string_of_uint (Pos.to_uint p)
                 = NilEmpty.string_of_uint (Pos.to_uint p)).
    { destruct (Pos.to_uint p) eqn:E; try reflexivity.
      destruct (Unsigned.to_uint_nonnil p E). }
    rewrite Hs.
    destruct (NilEmpty.string_of_uint (Pos.to_uint p)) as [| c rest] eqn:E.
    + exfalso. destruct (Pos.to_uint p) eqn:E'; try discriminate E.
      destruct (Unsigned.to_uint_nonnil p E').
    + exists c, rest, (Pos.to_uint p). split; [reflexivity |].
      split; [rewrite <- E; apply NilEmpty.usu |].
      unfold Z.of_uint. rewrite DecimalPos.Unsigned.of_to. reflexivity.
Qed.

Lemma zeros_append_nonempty (k : nat) (c : ascii) (rest : string) :
  exists c' rest', (zeros k ++ String c rest)%string = String c' rest'.
Proof. destruct k; simpl; eauto. Qed.

(** The sample number can be read back from the field [{i:04d}]: for
    every number from 0 on, also beyond 9999 where the field grows wider,
    [int] of the field is the number. *)
Lemma format_04d_parses (i : Z) :
  0 <= i -> int_of_text (format_04d i) = Ok i.
Proof.
  intros Hi. unfold format_04d.
  replace (Z.ltb i 0) with false by (symmetry; apply Z.ltb_ge; exact Hi).
  destruct (str_of_int_parses i Hi) as [c [rest [d [Hs [Hd Hv]]]]].
  cbv zeta.
  destruct (zeros_append_nonempty (4 - String.length (ProductionOCR.str_of_int i))
              c rest) as [c' [rest' Hne]].
  unfold int_of_text.
  rewrite Hs in Hne |- *. simpl String.length in *. rewrite Hne, <- Hne.
  rewrite <- Hs, uint_of_zeros, Hd. cbn [option_map].
  rewrite of_uint_leading_zeros, Hv. reflexivity.
Qed.

Lemma append_inv_tail (s1 s2 t : string) :
  (s1 ++ t = s2 ++ t)%string -> s1 = s2.
Proof.
  assert (Hlen : forall a b : string,
             String.length (a ++ b)%string = (String.length a + String.length b)%nat).
  { intros a b. induction a as [| c a IH]; simpl; [| rewrite IH]; reflexivity. }
  revert s2. induction s1 as [| c1 r1 IH]; intros [| c2 r2] H.
  - reflexivity.
  - exfalso. apply (f_equal String.length) in H. simpl in H. rewrite Hlen in H. lia.
  - exfalso. apply (f_equal String.length) in H. simpl in H. rewrite Hlen in H. lia.
  - simpl in H. injection H as Hc Hr. rewrite Hc, (IH r2 Hr). reflexivity.
Qed.

Lemma digit_character_shape (digit : string) :
  In digit digit_characters -> exists c, digit = String c EmptyString.
Proof.
  intros H. simpl in H.
  repeat destruct H as [<- | H]; try (eexists; reflexivity). destruct H.
Qed.

(** Different samples get different file names. *)
Lemma sample_filename_inj (d1 d2 : string) (i1 i2 : Z) :
  In d1 digit_characters -> In d2 digit_characters -> 0 <= i1 -> 0 <= i2 ->
  sample_filename d1 i1 = sample_filename d2 i2 -> d1 = d2 /\ i1 = i2.
Proof.
  intros H1 H2 Hi1 Hi2 Heq.
  destruct (digit_character_shape d1 H1) as [c1 ->].
  destruct (digit_character_shape d2 H2) as [c2 ->].
  unfold sample_filename in Heq. simpl in Heq.
  injection Heq as Hc Hrest. apply append_inv_tail in Hrest.
  split; [rewrite Hc; reflexivity |].
  pose proof (format_04d_parses i1 Hi1) as P1.
  pose proof (format_04d_parses i2 Hi2) as P2.
  rewrite Hrest, P2 in P1. injection P1 as ->. reflexivity.
Qed.

(** *** The label *)

(** X19.  For each of the ten digit characters and every sample number, the
    label that the readers of the dataset parse from the file name,
    [int(filename.split('_')[2])], is the digit the sample was rendered
    for; the ten characters have the values 0 to 9. *)
Theorem filename_label_round_trip :
  Forall (fun digit =>
            forall i, label_of_filename (sample_filename digit i) = int_of_text digit)
         digit_characters
  /\ map int_of_text digit_characters = digit_values.
Proof.
  split; [| reflexivity].
  repeat (apply Forall_cons; [intros i; reflexivity |]). apply Forall_nil.
Qed.

(** *** The loops of generate_dataset *)

Lemma for_each_appends {A S B : Type} (items : list A) (body : A -> S -> M S)
      (names : S -> list B) (f : A -> list B) (Inv : S -> Prop) :
  (forall x s, Inv s ->
               always_returns (body x s)
                              (fun s' => Inv s' /\ names s' = names s ++ f x)) ->
  forall s, Inv s ->
            always_returns (for_each items body s)
                           (fun s' => Inv s' /\ names s' = names s ++ flat_map f items).
Proof.
  intros Hbody. induction items as [| x rest IH]; intros s Hs.
  - apply always_returns_ret. split; [exact Hs |]. simpl. rewrite app_nil_r. reflexivity.
  - cbn [for_each flat_map].
    eapply always_returns_bind; [apply Hbody; exact Hs |].
    intros s1 [H1 Hn1]. intros g.
    destruct (IH s1 H1 g) as [s2 [g2 [Hrun [H2 Hn2]]]].
    exists s2, g2. split; [exact Hrun |]. split; [exact H2 |].
    rewrite Hn2, Hn1, app_assoc. reflexivity.
Qed.

Lemma range_snoc (n : Z) : 0 <= n -> range 0 (n + 1) = range 0 n ++ [n].
Proof.
  intros Hn. unfold range.
  replace (Z.to_nat (n + 1 - 0)) with (S (Z.to_nat (n - 0))) by lia.
  rewrite seq_S, map_app. simpl. f_equal. f_equal. lia.
Qed.

Lemma flat_map_single {A B : Type} (g : A -> B) (l : list A) :
  flat_map (fun x => [g x]) l = map g l.
Proof. induction l as [| x rest IH]; simpl; [| rewrite IH]; reflexivity. Qed.

Lemma map_list_prod {A B C : Type} (h : A * B -> C) (l : list A) (l' : list B) :
  map h (list_prod l l') = flat_map (fun x => map (fun y => h (x, y)) l') l.
Proof.
  induction l as [| x rest IH]; simpl; [reflexivity |].
  rewrite map_app, map_map, IH. reflexivity.
Qed.

Section Run.

Variable fillPoly_covers : list (Z * Z) -> Z -> Z -> bool.
Variable circle_covers : Z * Z -> Z -> Z -> Z -> bool.
Variable ellipse_covers : Z * Z -> Z * Z -> Z -> Z -> Z -> Z -> Z -> bool.
Variable cv2_GaussianBlur : array2 Z -> Z * Z -> Q -> array2 Z.
Variable np_sqrt : Z -> Q.
Variables samples_per_digit img_width img_height : Z.

Hypothesis wide_enough : 50 <= img_width.
Hypothesis high_enough : 50 <= img_height.

Lemma generate_sample_returns (digit : string) :
  always_returns
    (generate_sample fillPoly_covers circle_covers ellipse_covers cv2_GaussianBlur
                     np_sqrt (mkGenerator img_width img_height) digit)
    (valid_image img_height img_width).
Proof.
  unfold generate_sample.
  destruct (create_clean_digit_shape fillPoly_covers (mkGenerator img_width img_height)
              digit ltac:(simpl; lia) ltac:(simpl; lia)) as [img [-> [Hh Hw]]].
  simpl in Hh, Hw.
  apply add_realistic_effects_valid; assumption.
Qed.

Lemma generate_one_appends (digit : string) (i : Z) (st : DatasetState) :
  consistent st ->
  always_returns
    (generate_one fillPoly_covers circle_covers ellipse_covers cv2_GaussianBlur np_sqrt
                  (mkGenerator img_width img_height) digit i st)
    (fun st' => consistent st'
                /\ listing st' = listing st ++ [(digit, sample_filename digit i)]).
Proof.
  intros [Hf [Hid Hc]]. unfold generate_one.
  eapply always_returns_bind; [apply generate_sample_returns |].
  intros img _. apply always_returns_ret. split; [split; [| split] |].
  - cbn [files all_metadata]. rewrite !map_app, Hf. reflexivity.
  - cbn [all_metadata sample_count]. rewrite map_app, Hid, range_snoc by exact Hc.
    reflexivity.
  - cbn [sample_count]. lia.
  - unfold listing. cbn [all_metadata]. rewrite map_app. reflexivity.
Qed.

(** What a run of [generate_dataset] leaves, on a canvas at least 50 by
    50. *)
Lemma generate_dataset_run (g : Globals) :
  exists st g',
    generate_dataset fillPoly_covers circle_covers ellipse_covers cv2_GaussianBlur
                     np_sqrt samples_per_digit img_width img_height g
    = Ok ((st, mkSummary (sample_count st) samples_per_digit digit_characters
                         img_width img_height), g')
    /\ consistent st
    /\ listing st = expected_listing samples_per_digit.
Proof.
  unfold generate_dataset.
  assert (Hloops :
            always_returns
              (for_each digit_characters
                 (fun digit st =>
                    for_each (range 0 samples_per_digit)
                      (generate_one fillPoly_covers circle_covers ellipse_covers
                         cv2_GaussianBlur np_sqrt (mkGenerator img_width img_height)
                         digit) st)
                 (mkDatasetState [] [] 0))
              (fun st => consistent st
                         /\ listing st
                            = listing (mkDatasetState [] [] 0)
                              ++ flat_map
                                   (fun digit =>
                                      map (fun i => (digit, sample_filename digit i))
                                          (range 0 samples_per_digit))
                                   digit_characters)).
  { apply for_each_appends.
    - intros digit st Hst.
      rewrite <- (flat_map_single (fun i => (digit, sample_filename digit i))).
      apply for_each_appends; [| exact Hst].
      intros i st' Hst'. apply generate_one_appends. exact Hst'.
    - split; [reflexivity | split; [reflexivity | simpl; lia]]. }
  destruct (Hloops g) as [st [g' [Hrun [Hc Hl]]]].
  exists st, g'. unfold bind. rewrite Hrun. split; [reflexivity |].
  split; [exact Hc |].
  rewrite Hl. unfold expected_listing, sample_keys. rewrite map_list_prod.
  reflexivity.
Qed.

End Run.

(** *** What a dataset holds *)

Lemma range_In (lo hi i : Z) : In i (range lo hi) -> lo <= i < hi.
Proof.
  unfold range. rewrite in_map_iff. intros [k [<- Hk]]. apply in_seq in Hk. lia.
Qed.

Lemma range_NoDup (lo hi : Z) : NoDup (range lo hi).
Proof.
  unfold range. apply NoDup_map_NoDup_ForallPairs; [| apply seq_NoDup].
  intros a b _ _ H. lia.
Qed.

Lemma digit_characters_NoDup : NoDup digit_characters.
Proof.
  unfold digit_characters.
  repeat (apply NoDup_cons;
          [simpl; intros H; repeat destruct H as [H | H]; try discriminate H; exact H |]).
  apply NoDup_nil.
Qed.

Lemma list_prod_NoDup {A B : Type} (l : list A) (l' : list B) :
  NoDup l -> NoDup l' -> NoDup (list_prod l l').
Proof.
  intros Hl Hl'. induction Hl as [| x rest Hx Hrest IH]; simpl; [apply NoDup_nil |].
  apply NoDup_app.
  - apply NoDup_map_NoDup_ForallPairs; [| exact Hl'].
    intros a b _ _ H. injection H as ->. reflexivity.
  - exact IH.
  - intros [a b] Hin Hin'. apply in_map_iff in Hin.
    destruct Hin as [y [Heq _]]. injection Heq as <- <-.
    apply in_prod_iff in Hin'. destruct Hin' as [Hin' _]. exact (Hx Hin').
Qed.

Lemma expected_filenames_NoDup (n : Z) : NoDup (map snd (expected_listing n)).
Proof.
  unfold expected_listing. rewrite map_map. cbn [snd].
  apply NoDup_map_NoDup_ForallPairs.
  - intros [d1 i1] [d2 i2] Hin1 Hin2 Heq. cbn [fst snd] in Heq.
    unfold sample_keys in Hin1, Hin2. apply in_prod_iff in Hin1, Hin2.
    destruct Hin1 as [Hd1 Hi1]. destruct Hin2 as [Hd2 Hi2].
    apply range_In in Hi1, Hi2.
    destruct (sample_filename_inj d1 d2 i1 i2 Hd1 Hd2 ltac:(lia) ltac:(lia) Heq)
      as [-> ->].
    reflexivity.
  - unfold sample_keys. apply list_prod_NoDup; [apply digit_characters_NoDup | apply range_NoDup].
Qed.

Lemma expected_listing_length (n : Z) :
  Z.of_nat (List.length (expected_listing n)) = 10 * Z.max 0 n.
Proof.
  unfold expected_listing, sample_keys.
  rewrite length_map, length_prod, Nat2Z.inj_mul, RecognitionFacts.range_length.
  change (Z.of_nat (List.length digit_characters)) with 10. lia.
Qed.

Lemma consistent_count (st : DatasetState) :
  consistent st -> sample_count st = Z.of_nat (List.length (listing st)).
Proof.
  intros [_ [Hid Hc]]. unfold listing. rewrite length_map.
  apply (f_equal (@List.length Z)) in Hid. rewrite length_map in Hid.
  rewrite Hid. pose proof (RecognitionFacts.range_length 0 (sample_count st)). lia.
Qed.

Section Dataset.

Variable fillPoly_covers : list (Z * Z) -> Z -> Z -> bool.
Variable circle_covers : Z * Z -> Z -> Z -> Z -> bool.
Variable ellipse_covers : Z * Z -> Z * Z -> Z -> Z -> Z -> Z -> Z -> bool.
Variable cv2_GaussianBlur : array2 Z -> Z * Z -> Q -> array2 Z.
Variable np_sqrt : Z -> Q.

(** X20.  On a canvas at least 50 by 50, [generate_dataset] returns, for any
    number of samples per digit and any state of the generators: the
    metadata list holds, digit by digit from "0" to "9", the samples 0 to
    [samples_per_digit - 1] of the digit under the names
    [seven_segment_{digit}_{i:04d}.png]; the images are written under
    these names in the same order; the sample ids count from 0 without a
    gap; and the summary's total is ten times the number of samples per
    digit (0 for a negative number). *)
Theorem dataset_lists_every_sample_in_order
        (samples_per_digit img_width img_height : Z) (g : Globals) :
  50 <= img_width -> 50 <= img_height ->
  exists st summary g',
    generate_dataset fillPoly_covers circle_covers ellipse_covers cv2_GaussianBlur
                     np_sqrt samples_per_digit img_width img_height g
    = Ok ((st, summary), g')
    /\ listing st = expected_listing samples_per_digit
    /\ map fst (files st) = map snd (expected_listing samples_per_digit)
    /\ map sample_id (all_metadata st) = range 0 (10 * Z.max 0 samples_per_digit)
    /\ total_samples summary = 10 * Z.max 0 samples_per_digit.
Proof.
  intros Hw Hh.
  destruct (generate_dataset_run fillPoly_covers circle_covers ellipse_covers
              cv2_GaussianBlur np_sqrt samples_per_digit img_width img_height
              Hw Hh g) as [st [g' [Hrun [Hc Hl]]]].
  pose proof (consistent_count st Hc) as Hcount.
  rewrite Hl, expected_listing_length in Hcount.
  exists st, (mkSummary (sample_count st) samples_per_digit digit_characters
                        img_width img_height), g'.
  split; [exact Hrun |]. split; [exact Hl |].
  destruct Hc as [Hf [Hid _]].
  split; [| split].
  - rewrite Hf, <- Hl. unfold listing. rewrite map_map. reflexivity.
  - rewrite Hid, Hcount. reflexivity.
  - exact Hcount.
Qed.

(** X21.  On a canvas at least 50 by 50, no two images of a dataset are
    written under the same file name, so no sample overwrites another;
    and the label parsed from the file name of every metadata entry,
    [int(filename.split('_')[2])], is the value of the entry's digit, one
    of the ten digit characters. *)
Theorem dataset_files_are_distinct_and_labelled
        (samples_per_digit img_width img_height : Z) (g : Globals) :
  50 <= img_width -> 50 <= img_height ->
  exists st summary g',
    generate_dataset fillPoly_covers circle_covers ellipse_covers cv2_GaussianBlur
                     np_sqrt samples_per_digit img_width img_height g
    = Ok ((st, summary), g')
    /\ NoDup (map fst (files st))
    /\ forall m, In m (all_metadata st) ->
                 In (meta_digit m) digit_characters
                 /\ label_of_filename (meta_filename m) = int_of_text (meta_digit m).
Proof.
  intros Hw Hh.
  destruct (generate_dataset_run fillPoly_covers circle_covers ellipse_covers
              cv2_GaussianBlur np_sqrt samples_per_digit img_width img_height
              Hw Hh g) as [st [g' [Hrun [Hc Hl]]]].
  exists st, (mkSummary (sample_count st) samples_per_digit digit_characters
                        img_width img_height), g'.
  split; [exact Hrun |]. split.
  - destruct Hc as [Hf _]. rewrite Hf.
    replace (map meta_filename (all_metadata st)) with (map snd (listing st))
      by (unfold listing; rewrite map_map; reflexivity).
    rewrite Hl. apply expected_filenames_NoDup.
  - intros m Hm.
    assert (Hin : In (meta_digit m, meta_filename m) (expected_listing samples_per_digit)).
    { rewrite <- Hl. unfold listing.
      apply (in_map (fun m => (meta_digit m, meta_filename m))). exact Hm. }
    unfold expected_listing in Hin. apply in_map_iff in Hin.
    destruct Hin as [[d i] [Heq Hkey]]. cbn [fst snd] in Heq.
    injection Heq as Hd Hf. unfold sample_keys in Hkey.
    apply in_prod_iff in Hkey. destruct Hkey as [Hdigit _].
    rewrite <- Hd, <- Hf. split; [exact Hdigit |].
    simpl in Hdigit.
    repeat destruct Hdigit as [<- | Hdigit]; try reflexivity. destruct Hdigit.
Qed.

End Dataset.

Lemma dataset_lists_every_sample_in_order_witness :
  50 <= 60
  /\ exists st summary g',
       generate_dataset no_polygon no_circle no_ellipse no_blur integer_sqrt
                        2 60 60 example_globals
       = Ok ((st, summary), g')
       /\ map sample_id (all_metadata st) = range 0 20
       /\ total_samples summary = 20.
Proof.
  assert (H : 50 <= 60) by lia.
  split; [exact H |].
  destruct (dataset_lists_every_sample_in_order no_polygon no_circle no_ellipse no_blur
              integer_sqrt 2 60 60 example_globals H H)
    as [st [summary [g' [Hrun [_ [_ [Hid Htotal]]]]]]].
  exists st, summary, g'. split; [exact Hrun |]. split; [exact Hid | exact Htotal].
Defined.

Lemma dataset_files_are_distinct_and_labelled_witness :
  50 <= 60
  /\ exists st summary g',
       generate_dataset no_polygon no_circle no_ellipse no_blur integer_sqrt
                        2 60 60 example_globals
       = Ok ((st, summary), g')
       /\ NoDup (map fst (files st)).
Proof.
  assert (H : 50 <= 60) by lia.
  split; [exact H |].
  destruct (dataset_files_are_distinct_and_labelled no_polygon no_circle no_ellipse
              no_blur integer_sqrt 2 60 60 example_globals H H)
    as [st [summary [g' [Hrun [Hnd _]]]]].
  exists st, summary, g'. split; [exact Hrun | exact Hnd].
Defined.

End DatasetFacts.
